(** * The GRR data store abstraction (grr/server/data_store.py)

    A shallow embedding of the [MutationPool] and [DataStore] classes of
    [data_store.py] together with the properties the specification states
    about them.

    The abstract methods of [DataStore] (the ones decorated with
    [abc.abstractmethod]) are the fields of the class [Backend]; the
    serialization routines of [rdf_flows], which live in another module of
    the code base, are the fields of the class [Codec].  Python code that
    mutates objects, raises exceptions, calls the backend, bumps counters,
    logs or sleeps is written in the monad [Python Store], whose state is a [World Store]. *)

From Stdlib Require Import ZArith String Ascii List Sorted Permutation Lia.
From stdpp Require Import gmap strings list fin_maps.

Open Scope Z_scope.

(** Evaluate a run and keep the result as an equation. *)
Ltac run_to H c :=
  let v := eval vm_compute in c in
  assert (H : c = v) by (vm_compute; reflexivity).

(** ** Exceptions and results *)

(** [Error] is the base class of the module's exceptions and
    [DBSubjectLockError] derives from it; every other exception that can
    cross this code (a [KeyError], a decoding failure, a [RuntimeError]) is
    not an [Error]. *)
Inductive exn : Type :=
| DBSubjectLockError (msg : string)
| Error (msg : string)
| KeyError (key : string)
| OtherException (msg : string).

(** [isinstance(e, Error)] *)
Definition isinstance_Error (e : exn) : bool :=
  match e with
  | DBSubjectLockError _ | Error _ => true
  | KeyError _ | OtherException _ => false
  end.

(** [isinstance(e, DBSubjectLockError)] *)
Definition isinstance_DBSubjectLockError (e : exn) : bool :=
  match e with
  | DBSubjectLockError _ => true
  | _ => false
  end.

(** [str(e)] *)
Definition exn_str (e : exn) : string :=
  match e with
  | DBSubjectLockError m | Error m | KeyError m | OtherException m => m
  end.

(** The outcome of running a piece of Python: a value, an exception, or
    the loop budget of the model ran out (only [LockRetryWrapper] has an
    unbounded loop). *)
Inductive result (A : Type) : Type :=
| Return (a : A)
| Raise (e : exn)
| OutOfFuel.
Arguments Return {A} a.
Arguments Raise {A} e.
Arguments OutOfFuel {A}.

(** ** Data model *)

Record ACLToken : Type := { username : string }.

(** A resolved cell: [(attribute, value, timestamp)]. *)
Definition cell : Type := string * string * Z.

(** The [timestamp] argument of the resolve methods. *)
Inductive timestamp_spec : Type :=
| TimestampNone
| ALL_TIMESTAMPS
| NEWEST_TIMESTAMP
| TimestampRange (start end_ : Z).

(** The [values] dict of [MultiSet]: attribute to a list of values, each
    either bare ([None]) or paired with its own timestamp. *)
Abbreviation attribute_values := (gmap string (list (string * option Z))).

Module rdf_flows.

  (** The fields of [rdf_flows.GrrMessage] that the data store touches;
      [args] stands for the rest of the message. *)
Record GrrMessage : Type := {
    task_id : Z;
    queue : string;
    priority : Z;
    task_ttl : Z;
    eta : Z;
    last_lease : string;
    args : string
  }.

Definition set_eta (v : Z) (t : GrrMessage) : GrrMessage :=
    {| task_id := task_id t; queue := queue t; priority := priority t;
       task_ttl := task_ttl t; eta := v; last_lease := last_lease t;
       args := args t |}.

Definition set_last_lease (v : string) (t : GrrMessage) : GrrMessage :=
    {| task_id := task_id t; queue := queue t; priority := priority t;
       task_ttl := task_ttl t; eta := eta t; last_lease := v;
       args := args t |}.

Definition set_task_ttl (v : Z) (t : GrrMessage) : GrrMessage :=
    {| task_id := task_id t; queue := queue t; priority := priority t;
       task_ttl := v; eta := eta t; last_lease := last_lease t;
       args := args t |}.

Record GrrNotification : Type := {
    session_id : string;
    timestamp : Z;
    notification_args : string
  }.

Definition set_session_id (v : string) (n : GrrNotification)
    : GrrNotification :=
    {| session_id := v; timestamp := timestamp n;
       notification_args := notification_args n |}.

Definition set_timestamp (v : Z) (n : GrrNotification) : GrrNotification :=
    {| session_id := session_id n; timestamp := v;
       notification_args := notification_args n |}.

End rdf_flows.

(** What [data_store.py] uses from [rdf_flows]: the two serializers (a
    [FromSerializedString] that yields [None] raises in Python) and the class
    constant [GrrMessage.max_ttl]. *)
Class Codec : Type := {
  GrrMessage_FromSerializedString : string → option rdf_flows.GrrMessage;
  GrrMessage_SerializeToString : rdf_flows.GrrMessage → string;
  GrrMessage_max_ttl : Z;
  GrrNotification_FromSerializedString :
    string → option rdf_flows.GrrNotification;
  GrrNotification_SerializeToString : rdf_flows.GrrNotification → string
}.

(** The lock object handed out by [DataStore.DBSubjectLock]. *)
Record SubjectLock : Type := {
  lock_subject : string;
  lock_lease_time : Z;
  lock_expires : option Z;
  locked : bool
}.

(** A call on the data store object, with its arguments in the order of the
    Python signature ([sync] and [token] last). *)
Inductive db_call : Type :=
| CallDeleteSubject (subject : string) (sync : bool) (token : option ACLToken)
| CallDeleteSubjects (subjects : list string) (sync : bool)
    (token : option ACLToken)
| CallMultiSet (subject : string) (values : attribute_values)
    (timestamp : option Z) (replace : bool) (to_delete : option (gset string))
    (sync : bool) (token : option ACLToken)
| CallDeleteAttributes (subject : string) (attributes : list string)
    (start end_ : option Z) (sync : bool) (token : option ACLToken)
| CallMultiResolvePrefix (subjects : list string) (attribute_prefix : string)
    (timestamp : timestamp_spec) (limit : option Z) (token : option ACLToken)
| CallResolvePrefix (subject : string) (attribute_prefix : string)
    (timestamp : timestamp_spec) (limit : option Z) (token : option ACLToken)
| CallFlush
| CallDBSubjectLock (subject : string) (lease_time : option Z)
    (token : option ACLToken)
| CallLockRetryWrapper (subject : string) (retrywrap_timeout : Z)
    (retrywrap_max_timeout : Z) (blocking : bool) (lease_time : option Z)
    (token : option ACLToken)
| CallCreateNotifications (queue_shard : string)
    (notifications : list rdf_flows.GrrNotification)
    (token : option ACLToken).

(** The state of a [MutationPool] object. A set request is the tuple
    [(subject, values, timestamp, replace, to_delete)], an attribute
    deletion the tuple [(subject, attributes, start, end)]. *)
Abbreviation set_request :=
  (string * attribute_values * option Z * bool * option (gset string))%type.
Abbreviation delete_attributes_request :=
  (string * list string * option Z * option Z)%type.

Record Pool : Type := {
  token : option ACLToken;
  delete_subject_requests : list string;
  set_requests : list set_request;
  delete_attributes_requests : list delete_attributes_request;
  new_notifications : list (string * list rdf_flows.GrrNotification)
}.

(** ** The world the code runs in *)

Inductive log_level : Type := INFO | WARNING | EXCEPTION.

Record World (Store : Type) : Type := {
  store : Store;                        (* the backend's own state *)
  calls : list db_call;                 (* calls on [DB], oldest first *)
  counters : gmap string Z;             (* [stats.STATS] counters *)
  logged : list (log_level * string);   (* [logging] records, oldest first *)
  slept : list Z;                       (* [time.sleep] arguments *)
  now : Z;                              (* the clock, in microseconds *)
  hostname : string;                    (* [socket.gethostname()] *)
  pid : Z;                              (* [os.getpid()] *)
  pool : Pool                           (* the mutation pool [self] *)
}.
Arguments store {Store} w.
Arguments calls {Store} w.
Arguments counters {Store} w.
Arguments logged {Store} w.
Arguments slept {Store} w.
Arguments now {Store} w.
Arguments hostname {Store} w.
Arguments pid {Store} w.
Arguments pool {Store} w.

(** The abstract methods of [DataStore]. A backend sees its own state only
    and either raises ([inl]) or returns ([inr]); [elapse] is what happens to
    that state while the caller sleeps. *)
Class Backend (Store : Type) : Type := {
  abstract_DeleteSubject :
    string → bool → option ACLToken → Store → (exn + unit) * Store;
  abstract_MultiSet :
    string → attribute_values → option Z → bool → option (gset string) →
    bool → option ACLToken → Store → (exn + unit) * Store;
  abstract_DeleteAttributes :
    string → list string → option Z → option Z → bool → option ACLToken →
    Store → (exn + unit) * Store;
  abstract_MultiResolvePrefix :
    list string → string → timestamp_spec → option Z → option ACLToken →
    Store → (exn + list (string * list cell)) * Store;
  abstract_Flush : Store → (exn + unit) * Store;
  abstract_DBSubjectLock :
    string → option Z → option ACLToken → Store → (exn + SubjectLock) * Store;
  elapse : Z → Store → Store
}.

(** ** The monad *)

Definition Python (Store : Type) (A : Type) : Type :=
  World Store → result A * World Store.

Section Monad.
Context {Store : Type}.
Local Abbreviation M := (Python Store).

Global Instance M_ret : MRet M := λ A a w, (Return a, w).

Global Instance M_bind : MBind M := λ A B f c w,
    match c w with
    | (Return a, w1) => f a w1
    | (Raise e, w1) => (Raise e, w1)
    | (OutOfFuel, w1) => (OutOfFuel, w1)
    end.

Definition raise {A} (e : exn) : M A := λ w, (Raise e, w).

Definition out_of_fuel {A} : M A := λ w, (OutOfFuel, w).

  (** [try: c except Exception as e: handler(e)] *)
Definition try_except {A} (c : M A) (handler : exn → M A) : M A := λ w,
    match c w with
    | (Raise e, w1) => handler e w1
    | other => other
    end.

Definition get_world : M (World Store) := λ w, (Return w, w).

Definition modify_world (f : World Store → World Store) : M unit :=
    λ w, (Return tt, f w).

  (** [for x in l: body(x)] *)
Fixpoint for_each {A} (l : list A) (body : A → M unit) : M unit :=
    match l with
    | [] => mret tt
    | x :: l' => body x;; for_each l' body
    end.

Definition set_store (s : Store) (w : World Store) : World Store :=
    {| store := s; calls := calls w; counters := counters w;
       logged := logged w; slept := slept w; now := now w;
       hostname := hostname w; pid := pid w; pool := pool w |}.

Definition set_calls (c : list db_call) (w : World Store) : World Store :=
    {| store := store w; calls := c; counters := counters w;
       logged := logged w; slept := slept w; now := now w;
       hostname := hostname w; pid := pid w; pool := pool w |}.

Definition set_counters (c : gmap string Z) (w : World Store)
    : World Store :=
    {| store := store w; calls := calls w; counters := c;
       logged := logged w; slept := slept w; now := now w;
       hostname := hostname w; pid := pid w; pool := pool w |}.

Definition set_logged (l : list (log_level * string)) (w : World Store)
    : World Store :=
    {| store := store w; calls := calls w; counters := counters w;
       logged := l; slept := slept w; now := now w;
       hostname := hostname w; pid := pid w; pool := pool w |}.

Definition set_pool (p : Pool) (w : World Store) : World Store :=
    {| store := store w; calls := calls w; counters := counters w;
       logged := logged w; slept := slept w; now := now w;
       hostname := hostname w; pid := pid w; pool := p |}.

  (** Record a call on [DB]. *)
Definition called (c : db_call) : M unit :=
    modify_world (λ w, set_calls (calls w ++ [c]) w).

  (** Run an abstract method against the backend's state. *)
Definition backend {A} (f : Store → (exn + A) * Store) : M A := λ w,
  match f (store w) with
  | (inr a, s) => (Return a, set_store s w)
  | (inl e, s) => (Raise e, set_store s w)
  end.

  (** [stats.STATS.IncrementCounter(name)]; a counter starts at 0. *)
Definition GetCounter (name : string) (w : World Store) : Z :=
    default 0 (counters w !! name).

Definition IncrementCounter (name : string) : M unit :=
    modify_world (λ w,
      set_counters (<[name := GetCounter name w + 1]> (counters w)) w).

  (** [logging.info], [logging.warning], [logging.exception] *)
Definition logging (level : log_level) (msg : string) : M unit :=
    modify_world (λ w, set_logged (logged w ++ [(level, msg)]) w).

Definition get_pool : M Pool := λ w, (Return (pool w), w).

Definition put_pool (p : Pool) : M unit := modify_world (set_pool p).

End Monad.

(** ** Python built-ins used by the module *)

(** [s[n:]] *)
Fixpoint string_drop (n : nat) (s : string) : string :=
  match n, s with
  | O, _ => s
  | S n', String _ s' => string_drop n' s'
  | S _, EmptyString => EmptyString
  end.

(** The digit characters of the [%d] and [%x] conversions, in order. *)
Definition digit_chars : string := "0123456789abcdef".

Definition digit_char (d : Z) : ascii :=
  default "f"%char (String.get (Z.to_nat d) digit_chars).

(** The digits of [n >= 0] in [base], most significant first, pushed in
    front of [acc]; one digit at least. [fuel] bounds the number of digits. *)
Fixpoint digits_onto (base : Z) (fuel : nat) (n : Z) (acc : string) : string :=
  match fuel with
  | O => acc
  | S fuel' =>
      let acc' := String (digit_char (n mod base)) acc in
      if n / base =? 0 then acc' else digits_onto base fuel' (n / base) acc'
  end.

Definition number_digits (base : Z) (n : Z) : string :=
  digits_onto base (S (Z.to_nat (Z.log2 n))) n EmptyString.

(** Left padding with zeros up to [width] characters. *)
Fixpoint zeros (k : nat) : string :=
  match k with
  | O => EmptyString
  | S k' => String "0" (zeros k')
  end.

Definition zero_pad (width : nat) (s : string) : string :=
  zeros (width - String.length s) +:+ s.

(** ["%0<width>d" % n] for base 10 and ["%0<width>x" % n] for base 16: the
    sign counts in the width. *)
Definition format_int (base : Z) (width : nat) (n : Z) : string :=
  if n <? 0
  then String "-" (zero_pad (width - 1) (number_digits base (- n)))
  else zero_pad width (number_digits base n).

(** [int(s, 16)] on a string of lower-case hexadecimal digits: the value
    of a digit is its place in [digit_chars]. *)
Fixpoint place_of (c : ascii) (s : string) (place : Z) : option Z :=
  match s with
  | EmptyString => None
  | String d s' =>
      if Ascii.eqb c d then Some place else place_of c s' (place + 1)
  end.

Definition hex_value (c : ascii) : option Z := place_of c digit_chars 0.

Fixpoint int16_from (acc : Z) (s : string) : option Z :=
  match s with
  | EmptyString => Some acc
  | String c s' =>
      match hex_value c with
      | Some d => int16_from (16 * acc + d) s'
      | None => None
      end
  end.

Definition int16 (s : string) : option Z :=
  match s with
  | EmptyString => None
  | _ => int16_from 0 s
  end.

(** [l.sort(key=key)], a stable sort: [leb] is the order on keys, and
    elements with equal keys keep their relative order. With
    [reverse=True] the order on keys is flipped and equal keys still keep
    their order. *)
Section StableSort.
Context {A K : Type} (key : A → K) (leb : K → K → bool).

Fixpoint insert_by (x : A) (l : list A) : list A :=
  match l with
  | [] => [x]
  | y :: l' =>
      if leb (key x) (key y) then x :: y :: l' else y :: insert_by x l'
  end.

Fixpoint sort_by (l : list A) : list A :=
  match l with
  | [] => []
  | x :: l' => insert_by x (sort_by l')
  end.

End StableSort.

(** [l[:limit]] for an integer [limit]: a negative limit counts from the
    end. *)
Definition slice_to {A} (limit : Z) (l : list A) : list A :=
  if limit <? 0
  then take (Z.to_nat (Z.of_nat (length l) + limit)) l
  else take (Z.to_nat limit) l.

(** ** class DataStore *)

Module DataStore.
Section DataStore.
Context {Store : Type} `{!Backend Store} `{!Codec}.
Local Abbreviation M := (Python Store).

Definition NOTIFY_PREDICATE_PREFIX : string := "notify:".
Definition COLLECTION_MAX_SUFFIX : Z := 0xffffff.
Definition QUEUE_TASK_PREDICATE_PREFIX : string := "task:".
Definition _INDEX_PREFIX : string := "kw_index:".
Definition _INDEX_PREFIX_LEN : nat := String.length _INDEX_PREFIX.

(** [NOTIFY_PREDICATE_TEMPLATE % session_id] *)
Definition NOTIFY_PREDICATE_TEMPLATE (session_id : string) : string :=
  NOTIFY_PREDICATE_PREFIX +:+ session_id.

(** [time.sleep(seconds)]: the clock advances and the backend's state moves
    on under the other processes. *)
Definition sleep (seconds : Z) : M unit :=
  modify_world (λ w : World Store,
    {| store := elapse seconds (store w); calls := calls w;
       counters := counters w; logged := logged w;
       slept := slept w ++ [seconds]; now := now w + seconds * 1000000;
       hostname := hostname w; pid := pid w; pool := pool w |}).

(** [raise DBSubjectLockError(msg)]: the exception class mixes in
    [stats.CountingExceptionMixin] with [counter = "grr_commit_failure"], so
    building the exception counts it. *)
Definition raise_DBSubjectLockError {A} (msg : string) : M A :=
  IncrementCounter "grr_commit_failure";;
  raise (DBSubjectLockError msg).

(** The abstract methods, as called on the data store object. *)

Definition DeleteSubject (subject : string) (sync : bool)
  (token : option ACLToken) : M unit :=
  called (CallDeleteSubject subject sync token);;
  backend (abstract_DeleteSubject subject sync token).

Definition MultiSet (subject : string) (values : attribute_values)
  (timestamp : option Z) (replace : bool) (to_delete : option (gset string))
  (sync : bool) (token : option ACLToken) : M unit :=
  called (CallMultiSet subject values timestamp replace to_delete sync token);;
  backend (abstract_MultiSet subject values timestamp replace to_delete sync
             token).

Definition DeleteAttributes (subject : string) (attributes : list string)
  (start end_ : option Z) (sync : bool) (token : option ACLToken) : M unit :=
  called (CallDeleteAttributes subject attributes start end_ sync token);;
  backend (abstract_DeleteAttributes subject attributes start end_ sync token).

Definition MultiResolvePrefix (subjects : list string)
  (attribute_prefix : string) (timestamp : timestamp_spec) (limit : option Z)
  (token : option ACLToken) : M (list (string * list cell)) :=
  called (CallMultiResolvePrefix subjects attribute_prefix timestamp limit
            token);;
  backend (abstract_MultiResolvePrefix subjects attribute_prefix timestamp
             limit token).

Definition Flush : M unit :=
  called CallFlush;;
  backend abstract_Flush.

Definition DBSubjectLock (subject : string) (lease_time : option Z)
  (token : option ACLToken) : M SubjectLock :=
  called (CallDBSubjectLock subject lease_time token);;
  backend (abstract_DBSubjectLock subject lease_time token).

(** The methods with a body. *)

Definition DeleteSubjects (subjects : list string) (sync : bool)
  (token : option ACLToken) : M unit :=
  called (CallDeleteSubjects subjects sync token);;
  for_each subjects (λ subject, DeleteSubject subject sync token).

(** The [while] loop of [LockRetryWrapper], entered with the local
    [timeout]; every turn of the loop costs one unit of [fuel]. *)
Fixpoint LockRetryWrapper_loop (fuel : nat) (subject : string)
  (retrywrap_timeout : Z) (token : option ACLToken)
  (retrywrap_max_timeout : Z) (blocking : bool) (lease_time : option Z)
  (timeout : Z) : M SubjectLock :=
  if timeout <? retrywrap_max_timeout then
    match fuel with
    | O => out_of_fuel
    | S fuel' =>
        try_except (DBSubjectLock subject lease_time token)
          (λ e,
            if isinstance_DBSubjectLockError e then
              if negb blocking then raise e
              else
                IncrementCounter "datastore_retries";;
                sleep retrywrap_timeout;;
                LockRetryWrapper_loop fuel' subject retrywrap_timeout token
                  retrywrap_max_timeout blocking lease_time
                  (timeout + retrywrap_timeout)
            else raise e)
    end
  else raise_DBSubjectLockError "Retry number exceeded.".

Definition LockRetryWrapper (fuel : nat) (subject : string)
  (retrywrap_timeout : Z) (token : option ACLToken)
  (retrywrap_max_timeout : Z) (blocking : bool) (lease_time : option Z)
  : M SubjectLock :=
  called (CallLockRetryWrapper subject retrywrap_timeout retrywrap_max_timeout
            blocking lease_time token);;
  LockRetryWrapper_loop fuel subject retrywrap_timeout token
    retrywrap_max_timeout blocking lease_time 0.

(** [ResolvePrefix]: the first [(subject, values)] pair of
    [MultiResolvePrefix], its values sorted on the attribute. *)
Definition ResolvePrefix (subject : string) (attribute_prefix : string)
  (timestamp : timestamp_spec) (limit : option Z) (token : option ACLToken)
  : M (list cell) :=
  called (CallResolvePrefix subject attribute_prefix timestamp limit token);;
  found ← MultiResolvePrefix [subject] attribute_prefix timestamp limit token;
  match found with
  | (_, values) :: _ =>
      mret (sort_by (λ a : cell, a.1.1) String.leb values)
  | [] => mret []
  end.

(** The [values] dict built by [CreateNotifications]. *)
Definition notification_values
  (notifications : list rdf_flows.GrrNotification) : attribute_values :=
  foldl (λ values notification,
           <[NOTIFY_PREDICATE_TEMPLATE (rdf_flows.session_id notification) :=
               [(GrrNotification_SerializeToString notification,
                 Some (rdf_flows.timestamp notification))]]> values)
        ∅ notifications.

Definition CreateNotifications (queue_shard : string)
  (notifications : list rdf_flows.GrrNotification) (token : option ACLToken)
  : M unit :=
  called (CallCreateNotifications queue_shard notifications token);;
  MultiSet queue_shard (notification_values notifications) None false None
    true token.


(** *** Notifications *)

(** The body of the [for] loop of [GetNotifications] over the resolved
    cells; the generator is run to its end and its yields are collected. *)
Fixpoint GetNotifications_loop (queue_shard : string)
  (token : option ACLToken) (cells : list cell)
  : M (list rdf_flows.GrrNotification) :=
  match cells with
  | [] => mret []
  | (predicate, serialized_notification, ts) :: rest =>
      match GrrNotification_FromSerializedString serialized_notification with
      | None =>
          logging EXCEPTION
            ("Can't unserialize notification, deleting it: predicate="
             +:+ predicate +:+ ", ts=" +:+ format_int 10 0 ts);;
          DeleteAttributes queue_shard [predicate] (Some ts) (Some ts) true
            token;;
          GetNotifications_loop queue_shard token rest
      | Some notification =>
          let session_id :=
            string_drop (String.length NOTIFY_PREDICATE_PREFIX) predicate in
          let notification := rdf_flows.set_session_id session_id notification in
          let notification := rdf_flows.set_timestamp ts notification in
          yielded ← GetNotifications_loop queue_shard token rest;
          mret (notification :: yielded)
      end
  end.

Definition GetNotifications (queue_shard : string) (end_ : Z) (limit : Z)
  (token : option ACLToken) : M (list rdf_flows.GrrNotification) :=
  cells ← ResolvePrefix queue_shard NOTIFY_PREDICATE_PREFIX
             (TimestampRange 0 end_) (Some limit) token;
  GetNotifications_loop queue_shard token cells.

(** *** Keyword index *)

(** Modelled from the spec: [RDFURN.Add] of [grr.lib.rdfvalue], which is not
    part of this file. The spec has a URN be path segments joined by ["/"]
    and [Add] the suffixing operation that appends a segment. *)
Definition RDFURN_Add (urn : string) (segment : string) : string :=
  urn +:+ "/" +:+ segment.

Definition _KeywordToURN (urn : string) (keyword : string) : string :=
  RDFURN_Add urn keyword.

(** The state of the loops of [IndexReadPostingLists]: the [result] dict
    and the caller's [last_seen_map], if one was passed. *)
Abbreviation posting_state :=
  (gmap string (gset string) * option (gmap (string * string) Z))%type.

(** [for column, _, ts in value: ...] *)
Fixpoint IndexReadPostingLists_cells (keyword_urns : gmap string string)
  (keyword_urn : string) (value : list cell) (st : posting_state)
  : M posting_state :=
  match value with
  | [] => mret st
  | (column, _, ts) :: rest =>
      let '(result, last_seen_map) := st in
      match keyword_urns !! keyword_urn with
      | None => raise (KeyError keyword_urn)
      | Some kw =>
          let name := string_drop _INDEX_PREFIX_LEN column in
          match result !! kw with
          | None => raise (KeyError kw)
          | Some names =>
              let result := <[kw := names ∪ {[name]}]> result in
              let last_seen_map :=
                (λ m : gmap (string * string) Z,
                   <[(kw, name) := Z.max (default (-1) (m !! (kw, name))) ts]> m)
                <$> last_seen_map in
              IndexReadPostingLists_cells keyword_urns keyword_urn rest
                (result, last_seen_map)
          end
      end
  end.

(** [for keyword_urn, value in self.MultiResolvePrefix(...): ...] *)
Fixpoint IndexReadPostingLists_rows (keyword_urns : gmap string string)
  (rows : list (string * list cell)) (st : posting_state) : M posting_state :=
  match rows with
  | [] => mret st
  | (keyword_urn, value) :: rest =>
      st ← IndexReadPostingLists_cells keyword_urns keyword_urn value st;
      IndexReadPostingLists_rows keyword_urns rest st
  end.

(** [{self._KeywordToURN(index_urn, k): k for k in keywords}] *)
Definition keyword_urns_of (index_urn : string) (keywords : list string)
  : gmap string string :=
  foldl (λ d k, <[_KeywordToURN index_urn k := k]> d) ∅ keywords.

(** [IndexReadPostingLists] returns [result]; the caller's [last_seen_map]
    is updated in place, so its final state is returned with it. *)
Definition IndexReadPostingLists (index_urn : string) (keywords : list string)
  (start_time end_time : Z)
  (last_seen_map : option (gmap (string * string) Z))
  (token : option ACLToken) : M posting_state :=
  let keyword_urns := keyword_urns_of index_urn keywords in
  let result : gmap string (gset string) :=
    foldl (λ result kw, <[kw := ∅]> result) ∅ keywords in
  rows ← MultiResolvePrefix (map_to_list keyword_urns).*1 _INDEX_PREFIX
            (TimestampRange start_time (end_time + 1)) None token;
  IndexReadPostingLists_rows keyword_urns rows (result, last_seen_map).

(** *** Collections *)

(** [random.randint(a, b)]: an integer [N] with [a <= N <= b], taken from
    the next raw [draw] of the generator. *)
Definition randint (a b : Z) (draw : Z) : Z := a + draw mod (b - a + 1).

(** [CollectionMakeURN(urn, timestamp, suffix=None, subpath="Results")];
    [subpath = None] is the call that leaves the argument out. *)
Definition CollectionMakeURN (draw : Z) (urn : string) (timestamp : Z)
  (suffix : option Z) (subpath : option string) : string * Z * Z :=
  let subpath := default "Results"%string subpath in
  let suffix :=
    match suffix with
    | None => randint 1 COLLECTION_MAX_SUFFIX draw
    | Some suffix => suffix
    end in
  let result_urn :=
    RDFURN_Add (RDFURN_Add urn subpath)
      (format_int 16 16 timestamp +:+ "." +:+ format_int 16 6 suffix) in
  (result_urn, timestamp, suffix).

(** *** Task queues, read side *)

(** [rdf_flows.GrrMessage.FromSerializedString(serialized)] *)
Definition FromSerializedString (serialized : string)
  : M rdf_flows.GrrMessage :=
  match GrrMessage_FromSerializedString serialized with
  | Some task => mret task
  | None => raise (OtherException "GrrMessage.FromSerializedString")
  end.

(** [for _, serialized, ts in raw_tasks: ... all_tasks.append(task)] *)
Fixpoint parse_tasks (raw_tasks : list cell)
  (all_tasks : list rdf_flows.GrrMessage) : M (list rdf_flows.GrrMessage) :=
  match raw_tasks with
  | [] => mret all_tasks
  | (_, serialized, ts) :: rest =>
      task ← FromSerializedString serialized;
      let task := rdf_flows.set_eta ts task in
      parse_tasks rest (all_tasks ++ [task])
  end.

(** [sort(key=lambda task: task.priority, reverse=True)] *)
Definition sort_by_priority (tasks : list rdf_flows.GrrMessage)
  : list rdf_flows.GrrMessage :=
  sort_by rdf_flows.priority (λ a b, b <=? a) tasks.

(** [for queue, raw_tasks in self.MultiResolvePrefix(...): ...] *)
Fixpoint QueueMultiQuery_rows (rows : list (string * list cell))
  (tasks : gmap string (list rdf_flows.GrrMessage))
  : M (gmap string (list rdf_flows.GrrMessage)) :=
  match rows with
  | [] => mret tasks
  | (queue, raw_tasks) :: rest =>
      match raw_tasks with
      | [] => QueueMultiQuery_rows rest tasks
      | _ :: _ =>
          task_list ← parse_tasks raw_tasks (default [] (tasks !! queue));
          QueueMultiQuery_rows rest (<[queue := task_list]> tasks)
      end
  end.

Definition QueueMultiQuery (queues : list string) (token : option ACLToken)
  : M (gmap string (list rdf_flows.GrrMessage)) :=
  let prefix := QUEUE_TASK_PREDICATE_PREFIX in
  rows ← MultiResolvePrefix queues prefix ALL_TIMESTAMPS None token;
  tasks ← QueueMultiQuery_rows rows ∅;
  mret (sort_by_priority <$> tasks).

Definition QueueQueryTasks (queue : string) (limit : Z)
  (token : option ACLToken) : M (list rdf_flows.GrrMessage) :=
  let prefix := QUEUE_TASK_PREDICATE_PREFIX in
  cells ← ResolvePrefix queue prefix ALL_TIMESTAMPS None token;
  all_tasks ← parse_tasks cells [];
  mret (slice_to limit (sort_by_priority all_tasks)).

End DataStore.
End DataStore.

(** ** class MutationPool *)

Module MutationPool.
Section MutationPool.
Context {Store : Type} `{!Backend Store} `{!Codec}.
Local Abbreviation M := (Python Store).

(** [MutationPool(token)] *)
Definition __init__ (token : option ACLToken) : Pool :=
  {| token := token; delete_subject_requests := [];
     set_requests := []; delete_attributes_requests := [];
     new_notifications := [] |}.

Definition DeleteSubjects (subjects : list string) : M unit :=
  self ← get_pool;
  put_pool
    {| token := token self;
       delete_subject_requests := delete_subject_requests self ++ subjects;
       set_requests := set_requests self;
       delete_attributes_requests := delete_attributes_requests self;
       new_notifications := new_notifications self |}.

Definition DeleteSubject (subject : string) : M unit :=
  self ← get_pool;
  put_pool
    {| token := token self;
       delete_subject_requests := delete_subject_requests self ++ [subject];
       set_requests := set_requests self;
       delete_attributes_requests := delete_attributes_requests self;
       new_notifications := new_notifications self |}.

Definition MultiSet (subject : string) (values : attribute_values)
  (timestamp : option Z) (replace : bool) (to_delete : option (gset string))
  : M unit :=
  self ← get_pool;
  put_pool
    {| token := token self;
       delete_subject_requests := delete_subject_requests self;
       set_requests :=
         set_requests self
         ++ [(subject, values, timestamp, replace, to_delete)];
       delete_attributes_requests := delete_attributes_requests self;
       new_notifications := new_notifications self |}.

Definition Set_ (subject : string) (attribute : string) (value : string)
  (timestamp : option Z) (replace : bool) : M unit :=
  MultiSet subject {[attribute := [(value, None)]]} timestamp replace None.

Definition DeleteAttributes (subject : string) (attributes : list string)
  (start end_ : option Z) : M unit :=
  self ← get_pool;
  put_pool
    {| token := token self;
       delete_subject_requests := delete_subject_requests self;
       set_requests := set_requests self;
       delete_attributes_requests :=
         delete_attributes_requests self
         ++ [(subject, attributes, start, end_)];
       new_notifications := new_notifications self |}.

Definition CreateNotifications (queue : string)
  (notifications : list rdf_flows.GrrNotification) : M unit :=
  self ← get_pool;
  put_pool
    {| token := token self;
       delete_subject_requests := delete_subject_requests self;
       set_requests := set_requests self;
       delete_attributes_requests := delete_attributes_requests self;
       new_notifications := new_notifications self ++ [(queue, notifications)]
    |}.

(** The truth value of a list. *)
Definition nonempty {A} (l : list A) : bool :=
  match l with
  | [] => false
  | _ :: _ => true
  end.

(** [Flush]: the pool's fields are only reset by the last four assignments,
    so an exception on the way leaves them as they were. *)
Definition Flush : M unit :=
  self ← get_pool;
  DataStore.DeleteSubjects (delete_subject_requests self) false (token self);;
  for_each (delete_attributes_requests self)
    (λ req,
      let '(subject, attributes, start, end_) := req in
      DataStore.DeleteAttributes subject attributes start end_ false
        (token self));;
  for_each (set_requests self)
    (λ req,
      let '(subject, values, timestamp, replace, to_delete) := req in
      DataStore.MultiSet subject values timestamp replace to_delete false
        (token self));;
  (if nonempty (delete_subject_requests self)
      || nonempty (delete_attributes_requests self)
      || nonempty (set_requests self)
   then DataStore.Flush
   else mret tt);;
  for_each (new_notifications self)
    (λ batch,
      let '(queue, notifications) := batch in
      DataStore.CreateNotifications queue notifications (token self));;
  put_pool (__init__ (token self)).

Definition __exit__ : M unit := Flush.

(** [with pool: body]. [__enter__] returns the pool itself and [__exit__]
    returns [None], so an exception of the body is raised again after
    [__exit__] has run, unless [__exit__] itself raises. *)
Definition with_ {A} (body : M A) : M A := λ w,
  match body w with
  | (Return a, w1) => (__exit__;; mret a) w1
  | (Raise e, w1) => (__exit__;; raise e) w1
  | (OutOfFuel, w1) => (OutOfFuel, w1)
  end.

Definition Size (self : Pool) : Z :=
  Z.of_nat (length (delete_subject_requests self))
  + Z.of_nat (length (set_requests self))
  + Z.of_nat (length (delete_attributes_requests self)).


(** *** Task queues, claim side *)

(** The locals of [_QueueQueryAndOwn] that its loop updates. *)
Record claim_state : Type := {
  tasks : list rdf_flows.GrrMessage;
  delete_attrs : gset string;
  serialized_tasks_dict : attribute_values
}.

(** One turn of the loop of [_QueueQueryAndOwn] on a resolved cell; the
    boolean tells whether the turn ended in [break]. *)
Definition _QueueQueryAndOwn_cell (limit : Z) (user : string) (c : cell)
  (st : claim_state) : M (claim_state * bool) :=
  let '(predicate, task, timestamp) := c in
  task ← DataStore.FromSerializedString task;
  w ← get_world;
  let task := rdf_flows.set_eta timestamp task in
  let task :=
    rdf_flows.set_last_lease
      (user +:+ "@" +:+ hostname w +:+ ":" +:+ format_int 10 0 (pid w)) task in
  (* Decrement the ttl *)
  let task := rdf_flows.set_task_ttl (rdf_flows.task_ttl task - 1) task in
  if rdf_flows.task_ttl task <=? 0 then
    (* Remove the task if ttl is exhausted. *)
    IncrementCounter "grr_task_ttl_expired_count";;
    mret ({| tasks := tasks st;
             delete_attrs := delete_attrs st ∪ {[predicate]};
             serialized_tasks_dict := serialized_tasks_dict st |}, false)
  else
    (if negb (rdf_flows.task_ttl task =? GrrMessage_max_ttl - 1)
     then IncrementCounter "grr_task_retransmission_count"
     else mret tt);;
    let st :=
      {| tasks := tasks st ++ [task];
         delete_attrs := delete_attrs st;
         serialized_tasks_dict :=
           <[predicate :=
               default [] (serialized_tasks_dict st !! predicate)
               ++ [(GrrMessage_SerializeToString task, None)]]>
             (serialized_tasks_dict st) |} in
    mret (st, limit <=? Z.of_nat (length (tasks st))).

Fixpoint _QueueQueryAndOwn_loop (limit : Z) (user : string)
  (cells : list cell) (st : claim_state) : M claim_state :=
  match cells with
  | [] => mret st
  | c :: rest =>
      _QueueQueryAndOwn_cell limit user c st ≫= λ turn : claim_state * bool,
      let '(st, stop) := turn in
      if stop then mret st else _QueueQueryAndOwn_loop limit user rest st
  end.

(** [_QueueQueryAndOwn]; [lease_seconds] is a whole number of seconds and
    [timestamp = None] is Python's [None]. *)
Definition _QueueQueryAndOwn (subject : string) (lease_seconds : Z)
  (limit : Z) (user : string) (timestamp : option Z)
  : M (list rdf_flows.GrrMessage) :=
  self ← get_pool;
  let lease := lease_seconds * 1000000 in
  w ← get_world;
  let upper :=
    match timestamp with
    | Some t => if t =? 0 then now w else t
    | None => now w
    end in
  cells ← DataStore.ResolvePrefix subject DataStore.QUEUE_TASK_PREDICATE_PREFIX
             (TimestampRange 0 upper) None (token self);
  st ← _QueueQueryAndOwn_loop limit user cells
         {| tasks := []; delete_attrs := ∅; serialized_tasks_dict := ∅ |};
  (if negb (bool_decide (delete_attrs st = ∅))
      || negb (bool_decide (serialized_tasks_dict st = ∅))
   then
     w ← get_world;
     MultiSet subject (serialized_tasks_dict st) (Some (now w + lease)) true
       (Some (delete_attrs st))
   else mret tt);;
  (if negb (bool_decide (delete_attrs st = ∅))
   then
     logging INFO
       ("TTL exceeded for " +:+ format_int 10 0 (Z.of_nat (size (delete_attrs st)))
        +:+ " messages on queue " +:+ subject)
   else mret tt);;
  mret (tasks st).

(** [QueueQueryAndOwn]. [LockRetryWrapper] runs with its defaults
    [retrywrap_timeout=1] and [retrywrap_max_timeout=10], so its loop takes
    ten turns at most. *)
Definition QueueQueryAndOwn (queue : string) (lease_seconds : Z) (limit : Z)
  (timestamp : option Z) : M (list rdf_flows.GrrMessage) :=
  self ← get_pool;
  let user :=
    match token self with
    | Some token => username token
    | None => ""%string
    end in
  try_except
    (lock ← DataStore.LockRetryWrapper 10 queue 1 (token self) 10 true
               (Some lease_seconds);
     _QueueQueryAndOwn (lock_subject lock) lease_seconds limit user timestamp)
    (λ e,
      if isinstance_DBSubjectLockError e then mret []
      else if isinstance_Error e then
        logging WARNING ("Datastore exception: " +:+ exn_str e);;
        mret []
      else raise e).

End MutationPool.
End MutationPool.

(** ** More of class DataStore

    The methods below are written in terms of the ones above; the calls
    they make on those are recorded. *)

(** A type of records as the collection methods see it ([rdf_type]): how
    its values are written and read, and [item.age = timestamp]. *)
Record RDFType (I : Type) : Type := {
  item_FromSerializedString : string → option I;
  item_SerializeToString : I → string;
  set_age : Z → I → I
}.
Arguments item_FromSerializedString {I} r s.
Arguments item_SerializeToString {I} r i.
Arguments set_age {I} r age i.

(** The abstract method [ScanAttributes]: the rows scanned, each a subject
    with a dict from attribute to [(timestamp, value)]. *)
Class ScanBackend (Store : Type) : Type := {
  abstract_ScanAttributes :
    string → list string → option string → option Z → option ACLToken →
    bool → Store → (exn + list (string * gmap string (Z * string))) * Store
}.

(** [s[-n:]] *)
Definition string_last (n : nat) (s : string) : string :=
  string_drop (String.length s - n) s.

Module StoreMethods.
Section StoreMethods.
Context {Store : Type} `{!Backend Store} `{!ScanBackend Store} `{!Codec}.
Local Abbreviation M := (Python Store).

Definition COLLECTION_ATTRIBUTE : string := "aff4:sequential_value".
Definition COLLECTION_INDEX_ATTRIBUTE_PREFIX : string := "index:sc_".
Definition QUEUE_LOCK_ATTRIBUTE : string := "aff4:lease".
Definition LABEL_ATTRIBUTE_PREFIX : string := "index:label_".
Definition AFF4_INDEX_DIR_PREFIX : string := "index:dir/".

(** [_INDEX_COLUMN_FORMAT % name] *)
Definition _INDEX_COLUMN_FORMAT (name : string) : string :=
  DataStore._INDEX_PREFIX +:+ name.

(** [QUEUE_TASK_PREDICATE_TEMPLATE % s] *)
Definition QUEUE_TASK_PREDICATE_TEMPLATE (s : string) : string :=
  DataStore.QUEUE_TASK_PREDICATE_PREFIX +:+ s.

Definition QueueTaskIdToColumn (task_id : Z) : string :=
  QUEUE_TASK_PREDICATE_TEMPLATE (format_int 10 8 task_id).

(** [int(s, 16)], which raises [ValueError] on what it cannot read. *)
Definition int_16 (s : string) : M Z :=
  match int16 s with
  | Some n => mret n
  | None => raise (OtherException "ValueError")
  end.

Definition MultiDeleteAttributes (subjects : list string)
  (attributes : list string) (start end_ : option Z) (sync : bool)
  (token : option ACLToken) : M unit :=
  for_each subjects
    (λ subject,
      DataStore.DeleteAttributes subject attributes start end_ sync token).

Definition DeleteNotifications (queue_shards : list string)
  (session_ids : list string) (start end_ : option Z)
  (token : option ACLToken) : M unit :=
  let attributes := map DataStore.NOTIFY_PREDICATE_TEMPLATE session_ids in
  MultiDeleteAttributes queue_shards attributes start end_ true token.

(** [with self.GetMutationPool(token=token) as mutation_pool: body]: the
    block works on a new pool, which is flushed when the block is left;
    the pool of the caller is not touched. *)
Definition with_GetMutationPool {A} (token : option ACLToken) (body : M A)
  : M A := λ w,
  let '(r, w1) :=
    MutationPool.with_ body (set_pool (MutationPool.__init__ token) w) in
  (r, set_pool (pool w) w1).

(** [set(keywords)], in the order the loop goes through it. *)
Definition keyword_set (keywords : list string) : list string :=
  elements (list_to_set keywords : gset string).

Definition IndexAddKeywordsForName (index_urn : string) (name : string)
  (keywords : list string) (token : option ACLToken) : M unit :=
  w ← get_world;
  let timestamp := now w in
  with_GetMutationPool token
    (for_each (keyword_set keywords)
       (λ keyword,
         MutationPool.Set_ (DataStore._KeywordToURN index_urn keyword)
           (_INDEX_COLUMN_FORMAT name) "" (Some timestamp) true)).

Definition IndexRemoveKeywordsForName (index_urn : string) (name : string)
  (keywords : list string) (token : option ACLToken) : M unit :=
  with_GetMutationPool token
    (for_each (keyword_set keywords)
       (λ keyword,
         MutationPool.DeleteAttributes
           (DataStore._KeywordToURN index_urn keyword)
           [_INDEX_COLUMN_FORMAT name] None None)).

Definition AFF4FetchChildren (subject : string) (timestamp : timestamp_spec)
  (limit : option Z) (token : option ACLToken) : M (list (string * Z)) :=
  results ← DataStore.ResolvePrefix subject AFF4_INDEX_DIR_PREFIX timestamp
               limit token;
  mret (map (λ c : cell,
               (string_drop (String.length AFF4_INDEX_DIR_PREFIX) c.1.1, c.2))
          results).

Definition LabelFetchAll (subject : string) (token : option ACLToken)
  : M (list string) :=
  results ← DataStore.ResolvePrefix subject LABEL_ATTRIBUTE_PREFIX
               TimestampNone None token;
  let result :=
    map (λ c : cell,
           string_drop (String.length LABEL_ATTRIBUTE_PREFIX) c.1.1) results in
  mret (sort_by id String.leb result).

(** [for (attr, value, ts) in ...: yield (i, ts, int(value, 16))] *)
Fixpoint CollectionReadIndex_loop (cells : list cell) : M (list (Z * Z * Z)) :=
  match cells with
  | [] => mret []
  | (attr, value, ts) :: rest =>
      i ← int_16 (string_drop
                    (String.length COLLECTION_INDEX_ATTRIBUTE_PREFIX) attr);
      suffix ← int_16 value;
      yielded ← CollectionReadIndex_loop rest;
      mret ((i, ts, suffix) :: yielded)
  end.

Definition CollectionReadIndex (collection_id : string)
  (token : option ACLToken) : M (list (Z * Z * Z)) :=
  cells ← DataStore.ResolvePrefix collection_id
             COLLECTION_INDEX_ATTRIBUTE_PREFIX TimestampNone None token;
  CollectionReadIndex_loop cells.

Definition ScanAttributes (subject_prefix : string) (attributes : list string)
  (after_urn : option string) (max_records : option Z)
  (token : option ACLToken) (relaxed_order : bool)
  : M (list (string * gmap string (Z * string))) :=
  backend (abstract_ScanAttributes subject_prefix attributes after_urn
             max_records token relaxed_order).

(** One turn of the generator [ScanAttribute]:
    [ts, v = r[attribute]; yield (s, ts, v)]. *)
Definition ScanAttribute_next (attribute : string)
  (row : string * gmap string (Z * string)) : M (string * Z * string) :=
  let '(s, r) := row in
  match r !! attribute with
  | None => raise (KeyError attribute)
  | Some (ts, v) => mret (s, ts, v)
  end.

(** What the generator yields when it is run to its end. *)
Fixpoint ScanAttribute_loop (attribute : string)
  (rows : list (string * gmap string (Z * string)))
  : M (list (string * Z * string)) :=
  match rows with
  | [] => mret []
  | row :: rest =>
      triple ← ScanAttribute_next attribute row;
      yielded ← ScanAttribute_loop attribute rest;
      mret (triple :: yielded)
  end.

(** [ScanAttribute], run to its end. The abstract [ScanAttributes] is
    taken to have produced all its rows when the first one is asked for. *)
Definition ScanAttribute (subject_prefix : string) (attribute : string)
  (after_urn : option string) (max_records : option Z)
  (token : option ACLToken) (relaxed_order : bool)
  : M (list (string * Z * string)) :=
  rows ← ScanAttributes subject_prefix [attribute] after_urn max_records token
            relaxed_order;
  ScanAttribute_loop attribute rows.

(** The loop of [CollectionScanItems], run to its end: each turn takes the
    next triple from [ScanAttribute] and yields an item. *)
Fixpoint CollectionScanItems_loop {I} (rdf_type : RDFType I)
  (rows : list (string * gmap string (Z * string))) : M (list (I * Z * Z)) :=
  match rows with
  | [] => mret []
  | row :: rest =>
      ScanAttribute_next COLLECTION_ATTRIBUTE row
      ≫= λ triple : string * Z * string,
      let '(subject, timestamp, serialized_rdf_value) := triple in
      match item_FromSerializedString rdf_type serialized_rdf_value with
      | None => raise (OtherException "FromSerializedString")
      | Some item =>
          let item := set_age rdf_type timestamp item in
          suffix ← int_16 (string_last 6 subject);
          yielded ← CollectionScanItems_loop rdf_type rest;
          mret ((item, timestamp, suffix) :: yielded)
      end
  end.

(** The [after_urn] of [CollectionScanItems]: none unless
    [after_timestamp] is a number other than 0; [after_suffix or
    COLLECTION_MAX_SUFFIX] takes the largest suffix for [None] and 0. *)
Definition CollectionScanItems_after_urn (collection_id : string)
  (after_timestamp after_suffix : option Z) : option string :=
  match after_timestamp with
  | None => None
  | Some t =>
      if t =? 0 then None
      else
        let suffix :=
          match after_suffix with
          | None => DataStore.COLLECTION_MAX_SUFFIX
          | Some s => if s =? 0 then DataStore.COLLECTION_MAX_SUFFIX else s
          end in
        Some (DataStore.CollectionMakeURN 0 collection_id t (Some suffix)
                None).1.1
  end.

Definition CollectionScanItems {I} (collection_id : string)
  (rdf_type : RDFType I) (after_timestamp after_suffix : option Z)
  (limit : option Z) (token : option ACLToken) : M (list (I * Z * Z)) :=
  let after_urn :=
    CollectionScanItems_after_urn collection_id after_timestamp after_suffix in
  rows ← ScanAttributes (DataStore.RDFURN_Add collection_id "Results")
            [COLLECTION_ATTRIBUTE] after_urn limit token false;
  CollectionScanItems_loop rdf_type rows.

End StoreMethods.
End StoreMethods.

(** ** More of class MutationPool *)

(** How an [RDFDatetime], a number of microseconds, is written as the value
    of a cell and read back ([rdfvalue], not part of this file); a
    [FromSerializedString] that yields [None] raises. *)
Class DatetimeCodec : Type := {
  RDFDatetime_FromSerializedString : string → option Z;
  RDFDatetime_SerializeToString : Z → string
}.

(** The named tuple [Record]. *)
Record QueueRecord (I : Type) : Type := {
  record_queue_id : string;
  record_timestamp : Z;
  record_suffix : Z;
  record_subpath : string;
  record_value : I
}.
Arguments record_queue_id {I} _.
Arguments record_timestamp {I} _.
Arguments record_suffix {I} _.
Arguments record_subpath {I} _.
Arguments record_value {I} _.

Module PoolMethods.
Section PoolMethods.
Context {Store : Type} `{!Backend Store} `{!ScanBackend Store} `{!Codec}
  `{!DatetimeCodec}.
Local Abbreviation M := (Python Store).

(** [CollectionAddItem]; [draw] is what [random.randint] takes from the
    generator when no suffix is given. *)
Definition CollectionAddItem {I} (draw : Z) (collection_id : string)
  (rdf_type : RDFType I) (item : I) (timestamp : Z) (suffix : option Z)
  (replace : bool) : M (string * Z * Z) :=
  let '(result_subject, timestamp, suffix) :=
    DataStore.CollectionMakeURN draw collection_id timestamp suffix None in
  MutationPool.Set_ result_subject StoreMethods.COLLECTION_ATTRIBUTE
    (item_SerializeToString rdf_type item) (Some timestamp) replace;;
  mret (result_subject, timestamp, suffix).

Definition CollectionAddIndex (collection_id : string) (index : Z)
  (timestamp : Z) (suffix : Z) : M unit :=
  MutationPool.Set_ collection_id
    (StoreMethods.COLLECTION_INDEX_ATTRIBUTE_PREFIX +:+ format_int 16 8 index)
    (format_int 16 6 suffix) (Some timestamp) true.

(** The loop of [CollectionDelete]: each turn takes the next triple from
    [ScanAttribute]. *)
Fixpoint CollectionDelete_loop
  (rows : list (string * gmap string (Z * string))) : M unit :=
  match rows with
  | [] => mret tt
  | row :: rest =>
      StoreMethods.ScanAttribute_next StoreMethods.COLLECTION_ATTRIBUTE row
      ≫= λ triple : string * Z * string,
      MutationPool.DeleteSubject triple.1.1;;
      self ← get_pool;
      (if 50000 <? MutationPool.Size self then MutationPool.Flush
       else mret tt);;
      CollectionDelete_loop rest
  end.

(** [CollectionDelete]. The rows of the scan are those that the abstract
    [ScanAttributes] finds when the loop starts. *)
Definition CollectionDelete (collection_id : string) : M unit :=
  self ← get_pool;
  rows ← StoreMethods.ScanAttributes
            (DataStore.RDFURN_Add collection_id "Results")
            [StoreMethods.COLLECTION_ATTRIBUTE] None None (token self) false;
  CollectionDelete_loop rows.

Definition QueueAddItem {I} (draw : Z) (queue_id : string)
  (rdf_type : RDFType I) (item : I) (timestamp : Z) : M unit :=
  let '(result_subject, timestamp, _) :=
    DataStore.CollectionMakeURN draw queue_id timestamp None
      (Some "Records"%string) in
  MutationPool.Set_ result_subject StoreMethods.COLLECTION_ATTRIBUTE
    (item_SerializeToString rdf_type item) (Some timestamp) true.

(** The loop of [QueueClaimRecords] over the rows scanned, with its locals
    [results] and [filtered_count]. *)
Fixpoint QueueClaimRecords_loop {I} (queue_id : string)
  (item_rdf_type : RDFType I) (limit : Z) (now expiration : Z)
  (record_filter : I → bool) (max_filtered : Z)
  (rows : list (string * gmap string (Z * string)))
  (results : list (QueueRecord I)) (filtered_count : Z)
  : M (list (QueueRecord I)) :=
  match rows with
  | [] => mret results
  | (subject, values) :: rest =>
      match values !! StoreMethods.COLLECTION_ATTRIBUTE with
      | None =>
          MutationPool.DeleteAttributes subject
            [StoreMethods.QUEUE_LOCK_ATTRIBUTE] None None;;
          QueueClaimRecords_loop queue_id item_rdf_type limit now expiration
            record_filter max_filtered rest results filtered_count
      | Some (value_timestamp, serialized) =>
          (match values !! StoreMethods.QUEUE_LOCK_ATTRIBUTE with
           | None => mret false
           | Some (_, lease) =>
               match RDFDatetime_FromSerializedString lease with
               | None => raise (OtherException "FromSerializedString")
               | Some timestamp => mret (now <? timestamp)
               end
           end) ≫= λ leased : bool,
          if leased then
            QueueClaimRecords_loop queue_id item_rdf_type limit now expiration
              record_filter max_filtered rest results filtered_count
          else
            match item_FromSerializedString item_rdf_type serialized with
            | None => raise (OtherException "FromSerializedString")
            | Some rdf_value =>
                if record_filter rdf_value then
                  let filtered_count := filtered_count + 1 in
                  if negb (max_filtered =? 0)
                     && (max_filtered <=? filtered_count)
                  then mret results
                  else
                    QueueClaimRecords_loop queue_id item_rdf_type limit now
                      expiration record_filter max_filtered rest results
                      filtered_count
                else
                  StoreMethods.int_16 (string_last 6 subject) ≫= λ suffix : Z,
                  let results :=
                    results
                    ++ [{| record_queue_id := queue_id;
                           record_timestamp := value_timestamp;
                           record_suffix := suffix;
                           record_subpath := "Records";
                           record_value := rdf_value |}] in
                  MutationPool.Set_ subject StoreMethods.QUEUE_LOCK_ATTRIBUTE
                    (RDFDatetime_SerializeToString expiration) None true;;
                  if limit <=? Z.of_nat (length results) then mret results
                  else
                    QueueClaimRecords_loop queue_id item_rdf_type limit now
                      expiration record_filter max_filtered rest results 0
            end
      end
  end.

(** [QueueClaimRecords]. [timeout] is [rdfvalue.Duration(timeout)] in
    microseconds, and [start_time = None] is a [start_time] that is [None]
    or false. The two readings of the clock give the same time, and the
    lease handed to [Set] is written in its serialized form. *)
Definition QueueClaimRecords {I} (queue_id : string)
  (item_rdf_type : RDFType I) (limit : Z) (timeout : Z)
  (start_time : option Z) (record_filter : I → bool) (max_filtered : Z)
  : M (list (QueueRecord I)) :=
  self ← get_pool;
  w ← get_world;
  let now := now w in
  let expiration := now + timeout in
  let after_urn :=
    match start_time with
    | None => None
    | Some start_time =>
        Some (DataStore.CollectionMakeURN 0 queue_id start_time (Some 0)
                (Some "Records"%string)).1.1
    end in
  rows ← StoreMethods.ScanAttributes (DataStore.RDFURN_Add queue_id "Records")
            [StoreMethods.COLLECTION_ATTRIBUTE;
             StoreMethods.QUEUE_LOCK_ATTRIBUTE]
            after_urn (Some (4 * limit)) (token self) false;
  QueueClaimRecords_loop queue_id item_rdf_type limit now expiration
    record_filter max_filtered rows [] 0.

(** The subject of a record, as the three methods below compute it. *)
Definition record_subject {I} (record : QueueRecord I) : string :=
  (DataStore.CollectionMakeURN 0 (record_queue_id record)
     (record_timestamp record) (Some (record_suffix record))
     (Some (record_subpath record))).1.1.

Definition QueueRefreshClaims {I} (records : list (QueueRecord I))
  (timeout : Z) : M unit :=
  w ← get_world;
  let expiration := now w + timeout in
  for_each records
    (λ record,
      MutationPool.Set_ (record_subject record)
        StoreMethods.QUEUE_LOCK_ATTRIBUTE
        (RDFDatetime_SerializeToString expiration) None true).

Definition QueueDeleteRecords {I} (records : list (QueueRecord I)) : M unit :=
  for_each records
    (λ record,
      MutationPool.DeleteAttributes (record_subject record)
        [StoreMethods.QUEUE_LOCK_ATTRIBUTE; StoreMethods.COLLECTION_ATTRIBUTE]
        None None).

Definition QueueReleaseRecords {I} (records : list (QueueRecord I)) : M unit :=
  for_each records
    (λ record,
      MutationPool.DeleteAttributes (record_subject record)
        [StoreMethods.QUEUE_LOCK_ATTRIBUTE] None None).

End PoolMethods.
End PoolMethods.

(** ** Reference runs

    The definitions below do not come from the source: they are what the
    operations are compared with. *)

Section Reference.
Context {Store : Type} `{!Backend Store} `{!Codec}.
Local Abbreviation M := (Python Store).

(** What a recorded call does to the backend. The entries of the methods
    that have a body do nothing by themselves: the calls those bodies make
    are recorded after them. *)
Definition exec_call (c : db_call) : M unit :=
  match c with
  | CallDeleteSubject subject sync token =>
      backend (abstract_DeleteSubject subject sync token)
  | CallMultiSet subject values timestamp replace to_delete sync token =>
      backend (abstract_MultiSet subject values timestamp replace to_delete
                 sync token)
  | CallDeleteAttributes subject attributes start end_ sync token =>
      backend (abstract_DeleteAttributes subject attributes start end_ sync
                 token)
  | CallFlush => backend abstract_Flush
  | CallMultiResolvePrefix subjects attribute_prefix timestamp limit token =>
      backend (abstract_MultiResolvePrefix subjects attribute_prefix timestamp
                 limit token);;
      mret tt
  | CallDBSubjectLock subject lease_time token =>
      backend (abstract_DBSubjectLock subject lease_time token);;
      mret tt
  | CallDeleteSubjects _ _ _
  | CallResolvePrefix _ _ _ _ _
  | CallLockRetryWrapper _ _ _ _ _ _
  | CallCreateNotifications _ _ _ => mret tt
  end.

(** Two worlds that the backend cannot tell apart. *)
Definition same_db (w w' : World Store) : Prop :=
  store w = store w' ∧ calls w = calls w'.

(** Make the calls of a list one after the other, each recorded and then
    run; the first one that raises ends the run. *)
Definition perform (cs : list db_call) : M unit :=
  for_each cs (λ c, called c;; exec_call c).

(** The calls of one [MutationPool.Flush], in the order the pool makes
    them. *)
Definition Flush_calls (self : Pool) : list db_call :=
  (CallDeleteSubjects (delete_subject_requests self) false (token self)
   :: map (λ subject, CallDeleteSubject subject false (token self))
        (delete_subject_requests self))
  ++ map (λ req : delete_attributes_request,
            let '(subject, attributes, start, end_) := req in
            CallDeleteAttributes subject attributes start end_ false
              (token self))
       (delete_attributes_requests self)
  ++ map (λ req : set_request,
            let '(subject, values, timestamp, replace, to_delete) := req in
            CallMultiSet subject values timestamp replace to_delete false
              (token self))
       (set_requests self)
  ++ (if MutationPool.nonempty (delete_subject_requests self)
         || MutationPool.nonempty (delete_attributes_requests self)
         || MutationPool.nonempty (set_requests self)
      then [CallFlush] else [])
  ++ flat_map (λ batch : string * list rdf_flows.GrrNotification,
                 let '(queue, notifications) := batch in
                 [CallCreateNotifications queue notifications (token self);
                  CallMultiSet queue
                    (DataStore.notification_values notifications) None false
                    None true (token self)])
       (new_notifications self).

(** [k] attempts on the lock in a row that raise [DBSubjectLockError], each
    followed by what [LockRetryWrapper] does before it tries again: count
    the retry and sleep. [None] when one of the attempts does something
    else. *)
Fixpoint contended (k : nat) (subject : string) (lease_time : option Z)
  (token : option ACLToken) (retrywrap_timeout : Z) (w : World Store)
  : option (World Store) :=
  match k with
  | O => Some w
  | S k' =>
      match DataStore.DBSubjectLock subject lease_time token w with
      | (Raise (DBSubjectLockError _), w1) =>
          contended k' subject lease_time token retrywrap_timeout
            ((IncrementCounter "datastore_retries";;
              DataStore.sleep retrywrap_timeout) w1).2
      | _ => None
      end
  end.

(** The task read from a cell: the parsed value with [eta] set to the
    timestamp of the cell. *)
Definition task_of_cell (c : cell) : option rdf_flows.GrrMessage :=
  rdf_flows.set_eta c.2 <$> GrrMessage_FromSerializedString c.1.2.

(** The tasks of a list of cells, in order; [None] when a cell does not
    parse. *)
Fixpoint tasks_of_cells (cells : list cell)
  : option (list rdf_flows.GrrMessage) :=
  match cells with
  | [] => Some []
  | c :: rest =>
      match task_of_cell c, tasks_of_cells rest with
      | Some task, Some tasks => Some (task :: tasks)
      | _, _ => None
      end
  end.

(** The cells that a list of [(subject, cells)] pairs holds for one
    subject. *)
Definition cells_of (subject : string) (rows : list (string * list cell))
  : list cell :=
  flat_map (λ row : string * list cell,
              if String.eqb row.1 subject then row.2 else []) rows.

(** The values [ResolvePrefix] takes from the answer of
    [MultiResolvePrefix]: those of its first pair. *)
Definition first_values (rows : list (string * list cell)) : list cell :=
  match rows with
  | (_, values) :: _ => values
  | [] => []
  end.

(** The notification read from a cell: the parsed value with [session_id]
    set to the attribute name after its first [len("notify:")] characters
    and [timestamp] to the timestamp of the cell. *)
Definition notification_of_cell (c : cell) : option rdf_flows.GrrNotification :=
  (λ notification,
     rdf_flows.set_timestamp c.2
       (rdf_flows.set_session_id
          (string_drop (String.length DataStore.NOTIFY_PREDICATE_PREFIX) c.1.1)
          notification))
  <$> GrrNotification_FromSerializedString c.1.2.

(** One deletion per cell that does not parse, of that attribute at that
    timestamp only, with [sync=True]. *)
Definition deletes_for (queue_shard : string) (token : option ACLToken)
  (cells : list cell) : list db_call :=
  flat_map (λ c : cell,
              match GrrNotification_FromSerializedString c.1.2 with
              | None =>
                  [CallDeleteAttributes queue_shard [c.1.1] (Some c.2)
                     (Some c.2) true token]
              | Some _ => []
              end) cells.

(** The [(keyword, name, timestamp)] triples of the cells resolved for the
    keyword index, in the order [IndexReadPostingLists] goes through them:
    the keyword is the one whose URN the row carries and the name is the
    attribute after its first [len("kw_index:")] characters. *)
Definition posting_hits (keyword_urns : gmap string string)
  (rows : list (string * list cell)) : list (string * string * Z) :=
  flat_map (λ row : string * list cell,
              match keyword_urns !! row.1 with
              | Some kw =>
                  map (λ c : cell,
                         (kw, string_drop DataStore._INDEX_PREFIX_LEN c.1.1,
                          c.2)) row.2
              | None => []
              end) rows.

(** The names found for a keyword. *)
Definition names_of (kw : string) (hits : list (string * string * Z))
  : list string :=
  flat_map (λ hit : string * string * Z,
              if String.eqb hit.1.1 kw then [hit.1.2] else []) hits.

(** The timestamps found for a keyword and a name, in order. *)
Definition stamps_of (kw name : string) (hits : list (string * string * Z))
  : list Z :=
  flat_map (λ hit : string * string * Z,
              if String.eqb hit.1.1 kw && String.eqb hit.1.2 name
              then [hit.2] else []) hits.

(** The two dicts after the hits of a list, as folds. *)
Definition result_after (hits : list (string * string * Z))
  (result : gmap string (gset string)) : gmap string (gset string) :=
  foldl (λ result hit,
           match result !! hit.1.1 with
           | Some names => <[hit.1.1 := names ∪ {[hit.1.2]}]> result
           | None => result
           end) result hits.

Definition seen_after (hits : list (string * string * Z))
  (m : gmap (string * string) Z) : gmap (string * string) Z :=
  foldl (λ m hit,
           <[(hit.1.1, hit.1.2) :=
               Z.max (default (-1) (m !! (hit.1.1, hit.1.2))) hit.2]> m)
        m hits.

(** Every keyword that a URN stands for has its entry in [result]. *)
Definition covered (keyword_urns : gmap string string)
  (result : gmap string (gset string)) : Prop :=
  ∀ urn kw, keyword_urns !! urn = Some kw → is_Some (result !! kw).

(** The task that a claim makes of a cell: the parsed value with [eta] set
    to the timestamp of the cell, the lease holder recorded and [task_ttl]
    one less. *)
Definition claim_of (user host : string) (pid : Z) (c : cell)
  : option rdf_flows.GrrMessage :=
  (λ task,
     rdf_flows.set_task_ttl (rdf_flows.task_ttl task - 1)
       (rdf_flows.set_last_lease
          (user +:+ "@" +:+ host +:+ ":" +:+ format_int 10 0 pid)
          (rdf_flows.set_eta c.2 task)))
  <$> GrrMessage_FromSerializedString c.1.2.

(** A claimed task is dropped when its decremented [task_ttl] is zero or
    less, and counts as a retransmission when it is kept and its
    decremented [task_ttl] is not [max_ttl - 1]. *)
Definition ttl_expired (task : rdf_flows.GrrMessage) : bool :=
  rdf_flows.task_ttl task <=? 0.

Definition retransmitted (task : rdf_flows.GrrMessage) : bool :=
  negb (ttl_expired task)
  && negb (rdf_flows.task_ttl task =? GrrMessage_max_ttl - 1).

(** How many elements of a list pass a test. *)
Definition count_if {A} (f : A → bool) (l : list A) : Z :=
  Z.of_nat (length (List.filter f l)).

End Reference.

(** ** Reference definitions for the further methods *)

Section MoreReference.
Context {Store : Type} `{!Backend Store} `{!Codec}.
Local Abbreviation M := (Python Store).

(** A call of one of the buffering methods of the pool. *)
Inductive pool_op : Type :=
| OpDeleteSubjects (subjects : list string)
| OpDeleteSubject (subject : string)
| OpMultiSet (subject : string) (values : attribute_values)
    (timestamp : option Z) (replace : bool) (to_delete : option (gset string))
| OpSet (subject attribute value : string) (timestamp : option Z)
    (replace : bool)
| OpDeleteAttributes (subject : string) (attributes : list string)
    (start end_ : option Z)
| OpCreateNotifications (queue : string)
    (notifications : list rdf_flows.GrrNotification).

Definition run_op (op : pool_op) : M unit :=
  match op with
  | OpDeleteSubjects subjects => MutationPool.DeleteSubjects subjects
  | OpDeleteSubject subject => MutationPool.DeleteSubject subject
  | OpMultiSet subject values timestamp replace to_delete =>
      MutationPool.MultiSet subject values timestamp replace to_delete
  | OpSet subject attribute value timestamp replace =>
      MutationPool.Set_ subject attribute value timestamp replace
  | OpDeleteAttributes subject attributes start end_ =>
      MutationPool.DeleteAttributes subject attributes start end_
  | OpCreateNotifications queue notifications =>
      MutationPool.CreateNotifications queue notifications
  end.

(** What a call adds to each of the four buffers. *)
Definition subjects_of (op : pool_op) : list string :=
  match op with
  | OpDeleteSubjects subjects => subjects
  | OpDeleteSubject subject => [subject]
  | _ => []
  end.

Definition sets_of (op : pool_op) : list set_request :=
  match op with
  | OpMultiSet subject values timestamp replace to_delete =>
      [(subject, values, timestamp, replace, to_delete)]
  | OpSet subject attribute value timestamp replace =>
      [(subject, {[attribute := [(value, None)]]}, timestamp, replace, None)]
  | _ => []
  end.

Definition attribute_deletions_of (op : pool_op)
  : list delete_attributes_request :=
  match op with
  | OpDeleteAttributes subject attributes start end_ =>
      [(subject, attributes, start, end_)]
  | _ => []
  end.

Definition notifications_of (op : pool_op)
  : list (string * list rdf_flows.GrrNotification) :=
  match op with
  | OpCreateNotifications queue notifications => [(queue, notifications)]
  | _ => []
  end.

(** The pool after a list of calls. *)
Definition pool_after (ops : list pool_op) (self : Pool) : Pool :=
  {| token := token self;
     delete_subject_requests :=
       delete_subject_requests self ++ flat_map subjects_of ops;
     set_requests := set_requests self ++ flat_map sets_of ops;
     delete_attributes_requests :=
       delete_attributes_requests self ++ flat_map attribute_deletions_of ops;
     new_notifications :=
       new_notifications self ++ flat_map notifications_of ops |}.

(** The last notification of a list for a session. *)
Definition last_for (session_id : string)
  (notifications : list rdf_flows.GrrNotification)
  : option rdf_flows.GrrNotification :=
  last (List.filter (λ n, String.eqb (rdf_flows.session_id n) session_id)
          notifications).

(** Digits read in a base up to 16, most significant first. *)
Fixpoint read_digits (base : Z) (acc : Z) (s : string) : option Z :=
  match s with
  | EmptyString => Some acc
  | String c s' =>
      match hex_value c with
      | Some d =>
          if d <? base then read_digits base (base * acc + d) s' else None
      | None => None
      end
  end.

(** The order of pairs, first component first. *)
Definition compare_pair (a b : Z * Z) : comparison :=
  match a.1 ?= b.1 with
  | Eq => a.2 ?= b.2
  | other => other
  end.

End MoreReference.

(** The cell that holds the index entry [(index, ts, suffix)] of a
    collection: attribute, value and timestamp. *)
Definition index_cell (entry : Z * Z * Z) : cell :=
  let '(index, ts, suffix) := entry in
  (StoreMethods.COLLECTION_INDEX_ATTRIBUTE_PREFIX +:+ format_int 16 8 index,
   format_int 16 6 suffix, ts).

(** The suffix that [after_suffix or COLLECTION_MAX_SUFFIX] stands for. *)
Definition effective_suffix (after_suffix : option Z) : Z :=
  match after_suffix with
  | Some s => if s =? 0 then DataStore.COLLECTION_MAX_SUFFIX else s
  | None => DataStore.COLLECTION_MAX_SUFFIX
  end.

Section RecordReference.
Context {Store : Type} `{!Backend Store} `{!ScanBackend Store} `{!Codec}
  `{!DatetimeCodec}.

(** Whether a row of a queue is under a lease that has not run out at
    [now]; [None] when the lease cannot be read. *)
Definition leased (now : Z) (values : gmap string (Z * string))
  : option bool :=
  match values !! StoreMethods.QUEUE_LOCK_ATTRIBUTE with
  | None => Some false
  | Some (_, lease) =>
      (λ timestamp, now <? timestamp)
      <$> RDFDatetime_FromSerializedString lease
  end.

(** The record that a row of a queue stands for. *)
Definition record_of {I} (queue_id : string) (item_rdf_type : RDFType I)
  (row : string * gmap string (Z * string)) : option (QueueRecord I) :=
  match row.2 !! StoreMethods.COLLECTION_ATTRIBUTE with
  | Some (value_timestamp, serialized) =>
      match item_FromSerializedString item_rdf_type serialized,
            int16 (string_last 6 row.1) with
      | Some rdf_value, Some suffix =>
          Some {| record_queue_id := queue_id;
                  record_timestamp := value_timestamp;
                  record_suffix := suffix;
                  record_subpath := "Records";
                  record_value := rdf_value |}
      | _, _ => None
      end
  | None => None
  end.

(** The subjects that the [DeleteSubjects] calls of a log were given. *)
Definition deleted_in (log : list db_call) : list string :=
  flat_map (λ c, match c with
                 | CallDeleteSubjects subjects _ _ => subjects
                 | _ => []
                 end) log.

(** The pool with more sets and attribute deletions at the end. *)
Definition pool_with (self : Pool) (sets : list set_request)
  (deletions : list delete_attributes_request) : Pool :=
  {| token := token self;
     delete_subject_requests := delete_subject_requests self;
     set_requests := set_requests self ++ sets;
     delete_attributes_requests := delete_attributes_requests self ++ deletions;
     new_notifications := new_notifications self |}.

(** The lease that a claim puts on the row of a record, and the deletion
    of the lease of a row. *)
Definition lease_request {I} (expiration : Z)
  (claim : string * QueueRecord I) : set_request :=
  (claim.1,
   {[StoreMethods.QUEUE_LOCK_ATTRIBUTE :=
       [(RDFDatetime_SerializeToString expiration, None)]]},
   None, true, None).

Definition lease_deletion (subject : string) : delete_attributes_request :=
  (subject, [StoreMethods.QUEUE_LOCK_ATTRIBUTE], None, None).

(** What a run of the loop of [QueueClaimRecords] over [rows] may come to,
    when it starts in [w] with the list [results]: it has claimed the rows
    [claimed], in the order of the rows, each free of a lease, not
    filtered out and with the record it stands for; it has found the rows
    [dangling] without a value; it has changed nothing but the pool, where
    a lease is queued for every row claimed and the deletion of the lease
    for every dangling row; and what it returns is [results] with the
    records claimed after them. *)
Definition claim_outcome {I} (queue_id : string) (item_rdf_type : RDFType I)
  (limit now expiration : Z) (record_filter : I → bool)
  (rows : list (string * gmap string (Z * string)))
  (results : list (QueueRecord I)) (w : World Store)
  (run : result (list (QueueRecord I)) * World Store) : Prop :=
  ∃ (claimed : list (string * QueueRecord I)) (dangling : list string),
    run.2
    = set_pool
        (pool_with (pool w) (map (lease_request expiration) claimed)
           (map lease_deletion dangling)) w ∧
    map fst claimed `sublist_of` map fst rows ∧
    dangling `sublist_of` map fst rows ∧
    Forall (λ claim : string * QueueRecord I,
              ∃ values,
                (claim.1, values) ∈ rows ∧ leased now values = Some false ∧
                record_of queue_id item_rdf_type (claim.1, values)
                = Some claim.2 ∧
                record_filter (record_value claim.2) = false)
      claimed ∧
    Forall (λ subject,
              ∃ values,
                (subject, values) ∈ rows ∧
                values !! StoreMethods.COLLECTION_ATTRIBUTE = None)
      dangling ∧
    run.1 ≠ OutOfFuel ∧
    (∀ out, run.1 = Return out →
       out = results ++ map snd claimed ∧
       (claimed = [] ∨
        Z.of_nat (length out)
        ≤ Z.max limit (Z.of_nat (length results) + 1))).

End RecordReference.

(** ** A small backend and codec to run the operations on *)

Module Toy.

(** A store of rows that serves reads from [toy_rows], refuses the lock
    for the next [toy_contended] attempts, and fails every write with
    [toy_write_error] and every read with [toy_read_error] when these are
    set. Writes are accepted and dropped. *)
Record ToyStore : Type := {
  toy_rows : list (string * list cell);
  toy_contended : nat;
  toy_write_error : option exn;
  toy_read_error : option exn
}.

Definition toy_write (s : ToyStore) : (exn + unit) * ToyStore :=
  match toy_write_error s with
  | Some e => (inl e, s)
  | None => (inr tt, s)
  end.

Definition in_range (timestamp : timestamp_spec) (ts : Z) : bool :=
  match timestamp with
  | TimestampRange start end_ => (start <=? ts) && (ts <=? end_)
  | _ => true
  end.

Definition toy_read (subjects : list string) (attribute_prefix : string)
  (timestamp : timestamp_spec) (s : ToyStore)
  : (exn + list (string * list cell)) * ToyStore :=
  match toy_read_error s with
  | Some e => (inl e, s)
  | None =>
      (inr (omap (λ row : string * list cell,
                    if bool_decide (row.1 ∈ subjects)
                    then Some (row.1,
                               filter (λ c : cell,
                                         String.prefix attribute_prefix c.1.1
                                         && in_range timestamp c.2)
                                      row.2)
                    else None)
                 (toy_rows s)), s)
  end.

Definition toy_lock (subject : string) (lease_time : option Z)
  (s : ToyStore) : (exn + SubjectLock) * ToyStore :=
  match toy_contended s with
  | O =>
      (inr {| lock_subject := subject;
              lock_lease_time := default 0 lease_time;
              lock_expires := None; locked := true |}, s)
  | S n =>
      (inl (DBSubjectLockError "contended"),
       {| toy_rows := toy_rows s; toy_contended := n;
          toy_write_error := toy_write_error s;
          toy_read_error := toy_read_error s |})
  end.

#[export] Instance toy_backend : Backend ToyStore := {
  abstract_DeleteSubject := λ _ _ _, toy_write;
  abstract_MultiSet := λ _ _ _ _ _ _ _, toy_write;
  abstract_DeleteAttributes := λ _ _ _ _ _ _, toy_write;
  abstract_MultiResolvePrefix := λ subjects attribute_prefix timestamp _ _,
    toy_read subjects attribute_prefix timestamp;
  abstract_Flush := toy_write;
  abstract_DBSubjectLock := λ subject lease_time _,
    toy_lock subject lease_time;
  elapse := λ _ s, s
}.

(** A message is written as a priority digit followed by one ["t"] per
    unit of [task_ttl]; a notification is its [notification_args], and one
    that starts with ["!"] does not parse. *)
Definition toy_message (s : string) : option rdf_flows.GrrMessage :=
  match s with
  | EmptyString => None
  | String c rest =>
      Some {| rdf_flows.task_id := 0; rdf_flows.queue := "";
              rdf_flows.priority := Z.of_nat (nat_of_ascii c) - 48;
              rdf_flows.task_ttl := Z.of_nat (String.length rest);
              rdf_flows.eta := 0; rdf_flows.last_lease := "";
              rdf_flows.args := "" |}
  end.

Definition toy_notification (s : string) : option rdf_flows.GrrNotification :=
  match s with
  | String "!" _ => None
  | _ => Some {| rdf_flows.session_id := ""; rdf_flows.timestamp := 0;
                 rdf_flows.notification_args := s |}
  end.

#[export] Instance toy_codec : Codec := {
  GrrMessage_FromSerializedString := toy_message;
  GrrMessage_SerializeToString := λ t,
    String (ascii_of_nat (Z.to_nat (rdf_flows.priority t + 48)))
      (String.concat "" (replicate (Z.to_nat (rdf_flows.task_ttl t)) "t"%string));
  GrrMessage_max_ttl := 5;
  GrrNotification_FromSerializedString := toy_notification;
  GrrNotification_SerializeToString := rdf_flows.notification_args
}.

Definition toy_store (rows : list (string * list cell)) : ToyStore :=
  {| toy_rows := rows; toy_contended := 0;
     toy_write_error := None; toy_read_error := None |}.

Definition toy_world (s : ToyStore) (p : Pool) : World ToyStore :=
  {| store := s; calls := []; counters := ∅; logged := []; slept := [];
     now := 1000; hostname := "host"; pid := 7; pool := p |}.

(** A pool with one request of every kind. *)
Definition toy_pool : Pool :=
  {| token := Some {| username := "user" |};
     delete_subject_requests := ["aff4:/a"; "aff4:/b"]%string;
     set_requests :=
       [("aff4:/c", {["x" := [("1", None)]]}, Some 5, true, None)]%string;
     delete_attributes_requests :=
       [("aff4:/d", ["y"], None, None)]%string;
     new_notifications :=
       [("aff4:/W", [{| rdf_flows.session_id := "aff4:/flows/F:1";
                       rdf_flows.timestamp := 9;
                       rdf_flows.notification_args := "n" |}])]%string |}.

(** A queue that holds one fresh task (priority 5, [task_ttl = max_ttl = 5])
    scheduled at timestamp 10. *)
Definition fresh_queue : World ToyStore :=
  toy_world (toy_store [("aff4:/Q", [("task:00000001", "5ttttt", 10)])]%string)
    (MutationPool.__init__ None).

(** A queue of three tasks of priorities 5, 10 and 1, all scheduled at
    timestamp 10; the last one is on its last life. *)
Definition three_tasks : World ToyStore :=
  toy_world
    (toy_store [("aff4:/Q", [("task:00000001", "5ttttt", 10);
                            ("task:00000002", ":tttt", 10);
                            ("task:00000003", "1t", 10)])]%string)
    (MutationPool.__init__ None).

(** A store whose lock is refused twice, and one whose lock is refused
    for good. *)
Definition contended_twice : World ToyStore :=
  toy_world {| toy_rows := []; toy_contended := 2;
               toy_write_error := None; toy_read_error := None |}
    (MutationPool.__init__ None).

Definition contended_forever : World ToyStore :=
  toy_world {| toy_rows := []; toy_contended := 100;
               toy_write_error := None; toy_read_error := None |}
    (MutationPool.__init__ None).

(** A store that fails every write and one that fails every read. *)
Definition broken_writes : World ToyStore :=
  toy_world {| toy_rows := []; toy_contended := 0;
               toy_write_error := Some (Error "backend unavailable");
               toy_read_error := None |} toy_pool.

Definition broken_reads : World ToyStore :=
  toy_world {| toy_rows := []; toy_contended := 0;
               toy_write_error := None;
               toy_read_error := Some (Error "backend unavailable") |}
    (MutationPool.__init__ None).

(** A shard with one notification that parses and one that does not. *)
Definition two_notifications : World ToyStore :=
  toy_world
    (toy_store [("aff4:/W", [("notify:aff4:/flows/F:2", "!garbled", 6);
                            ("notify:aff4:/flows/F:1", "fine", 5)])]%string)
    (MutationPool.__init__ None).

(** A keyword index where ["alice"] is filed under ["ssh"] and
    ["linux"]. *)
Definition alice_index : World ToyStore :=
  toy_world
    (toy_store [("aff4:/I/ssh", [("kw_index:alice", "", 3)]);
                ("aff4:/I/linux", [("kw_index:alice", "", 4)])]%string)
    (MutationPool.__init__ None).

(** A row whose attributes come back out of order. *)
Definition unsorted_row : World ToyStore :=
  toy_world
    (toy_store [("aff4:/S", [("b", "1", 1); ("a", "2", 2); ("b", "3", 0)])]%string)
    (MutationPool.__init__ None).

(** A block that queues a deletion and then raises. *)
Definition failing_block : Python ToyStore unit :=
  MutationPool.DeleteSubject "aff4:/x";;
  raise (OtherException "ValueError").

End Toy.

(** ** The small backend, with scans, leases and items *)

Module MoreToy.
Import Toy.

(** A scan goes through the rows of the store in their order: those whose
    subject starts with the prefix and comes after [after_urn], each with
    the attributes asked for that it holds, if any. *)
Definition toy_scan (subject_prefix : string) (attributes : list string)
  (after_urn : option string) (max_records : option Z) (s : ToyStore)
  : (exn + list (string * gmap string (Z * string))) * ToyStore :=
  match toy_read_error s with
  | Some e => (inl e, s)
  | None =>
      let found :=
        omap (λ row : string * list cell,
                let wanted :=
                  List.filter (λ c : cell, bool_decide (c.1.1 ∈ attributes))
                    row.2 in
                if String.prefix subject_prefix row.1
                   && match after_urn with
                      | None => true
                      | Some urn => negb (String.leb row.1 urn)
                      end
                   && MutationPool.nonempty wanted
                then
                  Some (row.1,
                        list_to_map
                          (map (λ c : cell, (c.1.1, (c.2, c.1.2))) wanted))
                else None)
          (toy_rows s) in
      (inr match max_records with
           | None => found
           | Some n => take (Z.to_nat n) found
           end, s)
  end.

#[export] Instance toy_scan_backend : ScanBackend ToyStore := {
  abstract_ScanAttributes :=
    λ subject_prefix attributes after_urn max_records _ _,
      toy_scan subject_prefix attributes after_urn max_records
}.

(** A time is written in decimal. *)
#[export] Instance toy_datetime : DatetimeCodec := {
  RDFDatetime_FromSerializedString := λ s,
    match s with
    | EmptyString => None
    | _ => read_digits 10 0 s
    end;
  RDFDatetime_SerializeToString := format_int 10 0
}.

(** Items that are strings, written as they are; one that starts with
    ["!"] does not parse. The age of an item is not kept. *)
Definition toy_items : RDFType string := {|
  item_FromSerializedString := λ s,
    match s with
    | String "!" _ => None
    | _ => Some s
    end;
  item_SerializeToString := id;
  set_age := λ _ item, item
|}.

(** A queue of records at time 1000: a free record, a lease left behind
    with no value, a record leased until 2000 and one whose lease ran out
    at 500. *)
Definition records_queue : World ToyStore :=
  toy_world
    (toy_store
       [("aff4:/Q/Records/0000000000000005.000001",
         [("aff4:sequential_value", "one", 5)]);
        ("aff4:/Q/Records/0000000000000006.000002",
         [("aff4:lease", "2000", 0)]);
        ("aff4:/Q/Records/0000000000000007.000003",
         [("aff4:sequential_value", "two", 7); ("aff4:lease", "2000", 0)]);
        ("aff4:/Q/Records/0000000000000008.000004",
         [("aff4:sequential_value", "three", 8);
          ("aff4:lease", "500", 0)])]%string)
    (MutationPool.__init__ None).

(** A collection of three items. *)
Definition small_collection : World ToyStore :=
  toy_world
    (toy_store
       [("aff4:/C/Results/0000000000000001.00000a",
         [("aff4:sequential_value", "x", 1)]);
        ("aff4:/C/Results/0000000000000002.00000b",
         [("aff4:sequential_value", "y", 2)]);
        ("aff4:/C/Results/0000000000000003.00000c",
         [("aff4:sequential_value", "z", 3)])]%string)
    {| token := None; delete_subject_requests := ["aff4:/old"%string];
       set_requests := []; delete_attributes_requests := [];
       new_notifications := [] |}.

(** A directory with two children and a subject with three labels, one
    of them twice. *)
Definition small_directory : World ToyStore :=
  toy_world
    (toy_store
       [("aff4:/D", [("index:dir/b", "", 2); ("index:dir/a", "", 1);
                     ("index:label_red", "", 3); ("index:label_blue", "", 4);
                     ("index:label_red", "", 5)])]%string)
    (MutationPool.__init__ None).

(** A backend that is down: every method raises [Error]. *)
Inductive DownStore : Type := Down.

Definition down {A} (s : DownStore) : (exn + A) * DownStore :=
  (inl (Error "backend unavailable"), s).

#[export] Instance down_backend : Backend DownStore := {
  abstract_DeleteSubject := λ _ _ _, down;
  abstract_MultiSet := λ _ _ _ _ _ _ _, down;
  abstract_DeleteAttributes := λ _ _ _ _ _ _, down;
  abstract_MultiResolvePrefix := λ _ _ _ _ _, down;
  abstract_Flush := down;
  abstract_DBSubjectLock := λ _ _ _, down;
  elapse := λ _ s, s
}.

Definition down_world : World DownStore :=
  {| store := Down; calls := []; counters := ∅; logged := []; slept := [];
     now := 1000; hostname := "host"; pid := 7;
     pool := MutationPool.__init__ None |}.

(** Three notifications, two of them for one session. *)
Definition three_notifications : list rdf_flows.GrrNotification :=
  [{| rdf_flows.session_id := "aff4:/flows/F:1"; rdf_flows.timestamp := 1;
      rdf_flows.notification_args := "first" |};
   {| rdf_flows.session_id := "aff4:/flows/F:2"; rdf_flows.timestamp := 2;
      rdf_flows.notification_args := "other" |};
   {| rdf_flows.session_id := "aff4:/flows/F:1"; rdf_flows.timestamp := 3;
      rdf_flows.notification_args := "last" |}]%string.

(** A set, the deletion of its subject and a batch of notifications, in
    that order. *)
Definition sample_ops : list pool_op :=
  [OpSet "aff4:/s" "a" "1" None true; OpDeleteSubject "aff4:/s";
   OpCreateNotifications "aff4:/W" three_notifications]%string.

(** A pool that holds notifications only. *)
Definition notifying_pool : Pool :=
  {| token := None; delete_subject_requests := []; set_requests := [];
     delete_attributes_requests := [];
     new_notifications := [("aff4:/W"%string, three_notifications)] |}.

Definition empty_world : World ToyStore :=
  toy_world (toy_store []) (MutationPool.__init__ None).

(** The two records of [records_queue] that are free to claim, with the
    subjects of their rows. *)
Definition free_records : list (string * QueueRecord string) :=
  [("aff4:/Q/Records/0000000000000005.000001",
    {| record_queue_id := "aff4:/Q"; record_timestamp := 5;
       record_suffix := 1; record_subpath := "Records";
       record_value := "one" |});
   ("aff4:/Q/Records/0000000000000008.000004",
    {| record_queue_id := "aff4:/Q"; record_timestamp := 8;
       record_suffix := 4; record_subpath := "Records";
       record_value := "three" |})]%string.

(** What a scan of [records_queue] and of [small_collection] finds. *)
Definition records_rows : list (string * gmap string (Z * string)) :=
  [("aff4:/Q/Records/0000000000000005.000001",
    {["aff4:sequential_value" := (5, "one")]});
   ("aff4:/Q/Records/0000000000000006.000002",
    {["aff4:lease" := (0, "2000")]});
   ("aff4:/Q/Records/0000000000000007.000003",
    {["aff4:sequential_value" := (7, "two"); "aff4:lease" := (0, "2000")]});
   ("aff4:/Q/Records/0000000000000008.000004",
    {["aff4:sequential_value" := (8, "three");
      "aff4:lease" := (0, "500")]})]%string.

Definition collection_rows : list (string * gmap string (Z * string)) :=
  [("aff4:/C/Results/0000000000000001.00000a",
    {["aff4:sequential_value" := (1, "x")]});
   ("aff4:/C/Results/0000000000000002.00000b",
    {["aff4:sequential_value" := (2, "y")]});
   ("aff4:/C/Results/0000000000000003.00000c",
    {["aff4:sequential_value" := (3, "z")]})]%string.

End MoreToy.

Example format_int_examples :
  format_int 16 16 1500000000000000 = "0005543df729c000"%string ∧
  format_int 16 6 1 = "000001"%string ∧
  format_int 16 6 16777215 = "ffffff"%string ∧
  format_int 16 6 16777216 = "1000000"%string ∧
  format_int 16 16 (-1) = "-000000000000001"%string ∧
  format_int 10 8 42 = "00000042"%string ∧
  format_int 10 0 0 = "0"%string ∧
  int16 "0005543df729c000" = Some 1500000000000000.
Proof. vm_compute. repeat split; reflexivity. Qed.

Example sort_by_examples :
  sort_by fst String.leb [("b", 1); ("a", 2); ("b", 0); ("a", 3)]%string
  = [("a", 2); ("a", 3); ("b", 1); ("b", 0)]%string ∧
  sort_by snd (λ a b, b <=? a) [("x", 5); ("y", 10); ("z", 1); ("w", 5)]%string
  = [("y", 10); ("x", 5); ("w", 5); ("z", 1)]%string ∧
  slice_to 2 [1; 2; 3] = [1; 2] ∧ slice_to (-1) [1; 2; 3] = [1; 2] ∧
  slice_to 7 [1; 2; 3] = [1; 2; 3] ∧ slice_to (-7) [1; 2; 3] = [].
Proof. vm_compute. repeat split; reflexivity. Qed.

(** * Properties *)

(** ** Running the monad *)

Section MonadFacts.
Context {Store : Type} `{!Backend Store} `{!Codec}.
Local Abbreviation M := (Python Store).

Lemma bind_run {A B} (c : M A) (k : A → M B) (w : World Store) :
  (c ≫= k) w =
  match c w with
  | (Return a, w1) => k a w1
  | (Raise e, w1) => (Raise e, w1)
  | (OutOfFuel, w1) => (OutOfFuel, w1)
  end.
Proof. reflexivity. Qed.

Lemma bind_ext {A B} (c1 c2 : M A) (k1 k2 : A → M B) (w : World Store) :
  c1 w = c2 w → (∀ a w1, k1 a w1 = k2 a w1) → (c1 ≫= k1) w = (c2 ≫= k2) w.
Proof.
  intros Hc Hk. rewrite !bind_run, Hc.
  destruct (c2 w) as [[a|e|] w1]; auto.
Qed.

Lemma bind_assoc {A B C} (c : M A) (k : A → M B) (h : B → M C) w :
  ((c ≫= k) ≫= h) w = (c ≫= λ a, k a ≫= h) w.
Proof.
  rewrite !bind_run. destruct (c w) as [[a|e|] w1]; reflexivity.
Qed.

Lemma bind_ret_l {A B} (a : A) (k : A → M B) w : (mret a ≫= k) w = k a w.
Proof. reflexivity. Qed.

Lemma bind_ret_r {A} (c : M A) w : (c ≫= mret) w = c w.
Proof. rewrite bind_run. destruct (c w) as [[a|e|] w1]; reflexivity. Qed.

Lemma bind_ret_tt (c : M unit) w : (c;; mret tt) w = c w.
Proof. rewrite bind_run. destruct (c w) as [[[]|e|] w1]; reflexivity. Qed.

Lemma logging_bind {B} level msg (k : unit → M B) (w : World Store) :
  (logging level msg ≫= k) w
  = k tt (set_logged (logged w ++ [(level, msg)]) w).
Proof. reflexivity. Qed.

Lemma for_each_app {A} (l1 l2 : list A) (body : A → M unit) w :
  for_each (l1 ++ l2) body w = (for_each l1 body;; for_each l2 body) w.
Proof.
  revert w. induction l1 as [|x l1 IH]; intros w; simpl.
  - reflexivity.
  - rewrite bind_assoc. apply bind_ext; [reflexivity|]. intros [] w1. apply IH.
Qed.

Lemma perform_app (cs1 cs2 : list db_call) w :
  perform (cs1 ++ cs2) w = (perform cs1;; perform cs2) w.
Proof. apply for_each_app. Qed.

Lemma perform_nil w : perform [] w = (Return tt, w).
Proof. reflexivity. Qed.

Lemma perform_cons c cs w :
  perform (c :: cs) w = ((called c;; exec_call c);; perform cs) w.
Proof. reflexivity. Qed.

(** A loop whose body makes a fixed list of calls makes the calls of all
    its turns. *)
Lemma for_each_perform {A} (f : A → list db_call) (body : A → M unit) l w :
  (∀ x w1, body x w1 = perform (f x) w1) →
  for_each l body w = perform (flat_map f l) w.
Proof.
  intros Hbody. revert w. induction l as [|x l IH]; intros w; simpl.
  - reflexivity.
  - rewrite perform_app. apply bind_ext; [apply Hbody|]. intros [] w1. apply IH.
Qed.

Lemma flat_map_singleton {A B} (f : A → B) (l : list A) :
  flat_map (λ x, [f x]) l = map f l.
Proof. induction l as [|x l IH]; simpl; congruence. Qed.

(** [perform] never runs out of fuel, leaves everything but the store and
    the record of calls alone, and records a prefix of its list: the whole
    list when it returns. *)
Lemma perform_spec (cs : list db_call) (w : World Store) :
  ∃ issued,
    issued `prefix_of` cs ∧
    calls (perform cs w).2 = calls w ++ issued ∧
    ((perform cs w).1 = Return tt → issued = cs) ∧
    (perform cs w).1 ≠ OutOfFuel ∧
    pool (perform cs w).2 = pool w ∧
    counters (perform cs w).2 = counters w ∧
    logged (perform cs w).2 = logged w ∧
    slept (perform cs w).2 = slept w.
Proof.
  revert w. induction cs as [|c cs IH]; intros w.
  - exists []. simpl. rewrite app_nil_r. repeat split; done.
  - rewrite perform_cons, bind_run.
    assert (Hstep : ∃ r s,
      (called c;; exec_call c) w =
        (r, set_store s (set_calls (calls w ++ [c]) w)) ∧ r ≠ OutOfFuel).
    { destruct c; simpl; unfold called, modify_world, backend;
        rewrite bind_run; simpl;
        try (eexists (Return tt), (store w); split; [reflexivity|done]).
      - destruct (abstract_DeleteSubject _ _ _ _) as [[e|[]] s];
          eexists _, s; (split; [reflexivity|done]).
      - destruct (abstract_MultiSet _ _ _ _ _ _ _ _) as [[e|[]] s];
          eexists _, s; (split; [reflexivity|done]).
      - destruct (abstract_DeleteAttributes _ _ _ _ _ _ _) as [[e|[]] s];
          eexists _, s; (split; [reflexivity|done]).
      - rewrite bind_run; unfold backend; simpl.
        destruct (abstract_MultiResolvePrefix _ _ _ _ _ _) as [[e|a] s];
          eexists _, s; (split; [reflexivity|done]).
      - destruct (abstract_Flush _) as [[e|[]] s];
          eexists _, s; (split; [reflexivity|done]).
      - rewrite bind_run; unfold backend; simpl.
        destruct (abstract_DBSubjectLock _ _ _ _) as [[e|a] s];
          eexists _, s; (split; [reflexivity|done]). }
    destruct Hstep as (r & s & -> & Hr).
    destruct r as [[]|e|]; [| |done].
    + destruct (IH (set_store s (set_calls (calls w ++ [c]) w)))
        as (issued & Hpre & Hcalls & Hall & Hfuel & Hpool & Hcnt & Hlog & Hsl).
      exists (c :: issued). simpl in *.
      rewrite Hcalls, <- app_assoc. simpl.
      repeat split; auto.
      * by apply prefix_cons.
      * intros Hret. by rewrite Hall.
    + exists [c]. simpl. repeat split; auto; try done.
      apply prefix_cons, prefix_nil.
Qed.

End MonadFacts.

(** ** The mutation pool *)

Section FlushFacts.
Context {Store : Type} `{!Backend Store} `{!Codec}.
Local Abbreviation M := (Python Store).

Lemma DeleteSubject_performs subject sync token (w : World Store) :
  DataStore.DeleteSubject subject sync token w
  = perform [CallDeleteSubject subject sync token] w.
Proof.
  unfold perform, for_each. symmetry. apply bind_ret_tt.
Qed.

Lemma DeleteSubjects_performs subjects sync token (w : World Store) :
  DataStore.DeleteSubjects subjects sync token w
  = perform (CallDeleteSubjects subjects sync token
             :: map (λ subject, CallDeleteSubject subject sync token) subjects)
      w.
Proof.
  unfold DataStore.DeleteSubjects. rewrite perform_cons.
  apply bind_ext.
  - symmetry. apply bind_ret_tt.
  - intros [] w1. rewrite <- flat_map_singleton.
    apply for_each_perform. intros x w2. apply DeleteSubject_performs.
Qed.

Lemma DeleteAttributes_performs subject attributes start end_ sync token
  (w : World Store) :
  DataStore.DeleteAttributes subject attributes start end_ sync token w
  = perform [CallDeleteAttributes subject attributes start end_ sync token] w.
Proof.
  unfold perform, for_each. symmetry. apply bind_ret_tt.
Qed.

Lemma MultiSet_performs subject values timestamp replace to_delete sync token
  (w : World Store) :
  DataStore.MultiSet subject values timestamp replace to_delete sync token w
  = perform
      [CallMultiSet subject values timestamp replace to_delete sync token] w.
Proof.
  unfold perform, for_each. symmetry. apply bind_ret_tt.
Qed.

Lemma Flush_performs (w : World Store) :
  DataStore.Flush w = perform [CallFlush] w.
Proof.
  unfold perform, for_each. symmetry. apply bind_ret_tt.
Qed.

Lemma CreateNotifications_performs queue_shard notifications token
  (w : World Store) :
  DataStore.CreateNotifications queue_shard notifications token w
  = perform
      [CallCreateNotifications queue_shard notifications token;
       CallMultiSet queue_shard (DataStore.notification_values notifications)
         None false None true token] w.
Proof.
  unfold DataStore.CreateNotifications. rewrite perform_cons.
  apply bind_ext.
  - symmetry. apply bind_ret_tt.
  - intros [] w1. apply MultiSet_performs.
Qed.

(** The calls of [Flush_calls], made in order, are the five steps of
    [MutationPool.Flush]. *)
Lemma Flush_calls_performs (self : Pool) (w : World Store) :
  perform (Flush_calls self) w
  = (DataStore.DeleteSubjects (delete_subject_requests self) false
       (token self);;
     for_each (delete_attributes_requests self)
       (λ req,
         let '(subject, attributes, start, end_) := req in
         DataStore.DeleteAttributes subject attributes start end_ false
           (token self));;
     for_each (set_requests self)
       (λ req,
         let '(subject, values, timestamp, replace, to_delete) := req in
         DataStore.MultiSet subject values timestamp replace to_delete false
           (token self));;
     (if MutationPool.nonempty (delete_subject_requests self)
         || MutationPool.nonempty (delete_attributes_requests self)
         || MutationPool.nonempty (set_requests self)
      then DataStore.Flush
      else mret tt);;
     for_each (new_notifications self)
       (λ batch,
         let '(queue, notifications) := batch in
         DataStore.CreateNotifications queue notifications (token self))) w.
Proof.
  unfold Flush_calls. rewrite perform_app.
  apply bind_ext; [symmetry; apply DeleteSubjects_performs|]. intros [] w1.
  rewrite perform_app. apply bind_ext.
  { rewrite <- flat_map_singleton. symmetry.
    apply for_each_perform. intros [[[subject attributes] start] end_] w2.
    apply DeleteAttributes_performs. }
  intros [] w2. rewrite perform_app. apply bind_ext.
  { rewrite <- flat_map_singleton. symmetry.
    apply for_each_perform.
    intros [[[[subject values] timestamp] replace] to_delete] w3.
    apply MultiSet_performs. }
  intros [] w3. rewrite perform_app. apply bind_ext.
  { destruct (_ || _ || _); [symmetry; apply Flush_performs|reflexivity]. }
  intros [] w4. symmetry.
  apply for_each_perform. intros [queue notifications] w5.
  apply CreateNotifications_performs.
Qed.

(** [MutationPool.Flush] makes the calls of [Flush_calls] and then resets
    the pool. *)
Lemma pool_Flush_performs (w : World Store) :
  MutationPool.Flush w
  = (perform (Flush_calls (pool w));;
     put_pool (MutationPool.__init__ (token (pool w)))) w.
Proof.
  unfold MutationPool.Flush.
  rewrite bind_run. unfold get_pool at 1. cbv beta iota.
  symmetry. etransitivity.
  { apply bind_ext; [apply Flush_calls_performs|reflexivity]. }
  repeat (rewrite bind_assoc; apply bind_ext; [reflexivity|intros [] ?]).
  reflexivity.
Qed.

End FlushFacts.

Section PoolTheorems.
Context {Store : Type} `{!Backend Store} `{!Codec}.
Local Abbreviation M := (Python Store).

Lemma pool_Flush_run (w : World Store) :
  MutationPool.Flush w =
  match perform (Flush_calls (pool w)) w with
  | (Return _, w1) =>
      (Return tt, set_pool (MutationPool.__init__ (token (pool w))) w1)
  | (Raise e, w1) => (Raise e, w1)
  | (OutOfFuel, w1) => (OutOfFuel, w1)
  end.
Proof. rewrite pool_Flush_performs, bind_run. reflexivity. Qed.

(** C2. [MutationPool.Flush] calls the data store in the order of
    [Flush_calls]: one [DeleteSubjects] with [sync=False] for all subject
    deletions, then every attribute deletion, then every [MultiSet], then
    one [Flush] exactly when one of the three lists was not empty, then one
    [CreateNotifications] per notification batch, each of which writes with
    [sync=True]. The calls recorded are a prefix of that list, the whole
    list when [Flush] returns, and [Flush] returns when no call raises. *)
Theorem pool_Flush_order (w : World Store) :
  ∃ issued,
    calls (MutationPool.Flush w).2 = calls w ++ issued ∧
    issued `prefix_of` Flush_calls (pool w) ∧
    ((MutationPool.Flush w).1 = Return tt → issued = Flush_calls (pool w)) ∧
    ((perform (Flush_calls (pool w)) w).1 = Return tt →
     (MutationPool.Flush w).1 = Return tt) ∧
    (MutationPool.Flush w).1 ≠ OutOfFuel.
Proof.
  destruct (perform_spec (Flush_calls (pool w)) w)
    as (issued & Hpre & Hcalls & Hall & Hfuel & _).
  exists issued. rewrite pool_Flush_run.
  destruct (perform (Flush_calls (pool w)) w) as [[[]|e|] w1]; simpl in *;
    repeat split; auto; try done.
Qed.

(** [Flush] leaves the pool alone when it raises and empties it when it
    returns. *)
Lemma pool_Flush_pool (w : World Store) :
  pool (MutationPool.Flush w).2 =
  match (MutationPool.Flush w).1 with
  | Return _ => MutationPool.__init__ (token (pool w))
  | _ => pool w
  end.
Proof.
  destruct (perform_spec (Flush_calls (pool w)) w)
    as (issued & _ & _ & _ & _ & Hpool & _).
  rewrite pool_Flush_run.
  destruct (perform (Flush_calls (pool w)) w) as [[[]|e|] w1]; simpl in *;
    auto.
Qed.

(** C5. A pool used in a [with] statement is flushed exactly once when the
    block is left, also when the block raises: the world after the
    statement is the world after the block followed by one [Flush], and the
    exception of the block is raised again unless [Flush] raises itself.
    After a [Flush] that returned the four buffers are empty and [Size()]
    is 0. *)
Theorem with_pool_flushes_once {A} (body : M A) (w : World Store) :
  (body w).1 ≠ OutOfFuel →
  (MutationPool.with_ body w).2 = (MutationPool.Flush (body w).2).2 ∧
  (MutationPool.with_ body w).1 =
    match (MutationPool.Flush (body w).2).1 with
    | Return _ => (body w).1
    | Raise e => Raise e
    | OutOfFuel => OutOfFuel
    end ∧
  ∀ w1 : World Store,
    (MutationPool.Flush w1).1 = Return tt →
    let self := pool (MutationPool.Flush w1).2 in
    MutationPool.Size self = 0 ∧
    delete_subject_requests self = [] ∧
    set_requests self = [] ∧
    delete_attributes_requests self = [] ∧
    new_notifications self = [].
Proof.
  intros Hbody. split; [|split].
  - unfold MutationPool.with_, MutationPool.__exit__.
    destruct (body w) as [[a|e|] w1]; simpl in *; [| |done];
      rewrite bind_run;
      destruct (MutationPool.Flush w1) as [[[]|e'|] w2]; reflexivity.
  - unfold MutationPool.with_, MutationPool.__exit__.
    destruct (body w) as [[a|e|] w1]; simpl in *; [| |done];
      rewrite bind_run;
      destruct (MutationPool.Flush w1) as [[[]|e'|] w2]; reflexivity.
  - intros w1 Hret self. subst self.
    rewrite pool_Flush_pool, Hret. repeat split.
Qed.

(** [QueueQueryAndOwn] in terms of the outcome of its [try] block. *)
Lemma QueueQueryAndOwn_run queue lease_seconds limit timestamp
  (w : World Store) :
  let user :=
    match token (pool w) with
    | Some token => username token
    | None => ""%string
    end in
  MutationPool.QueueQueryAndOwn queue lease_seconds limit timestamp w =
  match
    (DataStore.LockRetryWrapper 10 queue 1 (token (pool w)) 10 true
       (Some lease_seconds) ≫= λ lock,
     MutationPool._QueueQueryAndOwn (lock_subject lock) lease_seconds limit
       user timestamp) w
  with
  | (Raise (DBSubjectLockError _), w1) => (Return [], w1)
  | (Raise (Error m), w1) =>
      (Return [],
       set_logged (logged w1 ++ [(WARNING, "Datastore exception: " +:+ m)]) w1)
  | other => other
  end.
Proof.
  intros user. unfold MutationPool.QueueQueryAndOwn.
  rewrite bind_run. unfold get_pool at 1. cbv beta iota.
  unfold try_except. fold user.
  match goal with |- match ?c with _ => _ end = _ => destruct c as [[a|e|] w1] end;
    try reflexivity.
  destruct e; reflexivity.
Qed.

(** C4. [QueueQueryAndOwn] returns the empty list when taking the lock
    raises [DBSubjectLockError], and when the lock or the claim that follows
    raises another [Error], which it logs as a warning first;
    [MutationPool.Flush] raises whatever the first failing call of its run
    raises, and leaves the pool as it was. *)
Theorem QueueQueryAndOwn_swallows_and_Flush_propagates :
  (∀ queue lease_seconds limit timestamp (w : World Store),
     let user :=
       match token (pool w) with
       | Some token => username token
       | None => ""%string
       end in
     let attempt :=
       DataStore.LockRetryWrapper 10 queue 1 (token (pool w)) 10 true
         (Some lease_seconds) w in
     let warned m (w1 : World Store) :=
       set_logged (logged w1 ++ [(WARNING, "Datastore exception: " +:+ m)])
         w1 in
     (∀ m, attempt.1 = Raise (DBSubjectLockError m) →
           MutationPool.QueueQueryAndOwn queue lease_seconds limit timestamp w
           = (Return [], attempt.2)) ∧
     (∀ m, attempt.1 = Raise (Error m) →
           MutationPool.QueueQueryAndOwn queue lease_seconds limit timestamp w
           = (Return [], warned m attempt.2)) ∧
     (∀ lock, attempt.1 = Return lock →
        let claim :=
          MutationPool._QueueQueryAndOwn (lock_subject lock) lease_seconds
            limit user timestamp attempt.2 in
        (∀ m, claim.1 = Raise (DBSubjectLockError m) →
              MutationPool.QueueQueryAndOwn queue lease_seconds limit
                timestamp w = (Return [], claim.2)) ∧
        (∀ m, claim.1 = Raise (Error m) →
              MutationPool.QueueQueryAndOwn queue lease_seconds limit
                timestamp w = (Return [], warned m claim.2)))) ∧
  (∀ (w : World Store) e,
     (perform (Flush_calls (pool w)) w).1 = Raise e →
     (MutationPool.Flush w).1 = Raise e ∧
     pool (MutationPool.Flush w).2 = pool w).
Proof.
  split.
  - intros queue lease_seconds limit timestamp w user attempt warned.
    pose proof (QueueQueryAndOwn_run queue lease_seconds limit timestamp w)
      as Hrun.
    cbv zeta in Hrun. fold user in Hrun. rewrite bind_run in Hrun.
    fold attempt in Hrun.
    destruct attempt as [[lock|e|] w1] eqn:Hattempt; simpl.
    + split; [intros m; discriminate|].
      split; [intros m; discriminate|].
      intros lock' [= <-].
      destruct (MutationPool._QueueQueryAndOwn _ _ _ _ _ w1)
        as [[a|e|] w2]; simpl; split; intros m; try discriminate;
        intros [= ->]; exact Hrun.
    + split; [intros m [= ->]; exact Hrun|].
      split; [intros m [= ->]; exact Hrun|].
      intros lock; discriminate.
    + split; [intros m; discriminate|].
      split; [intros m; discriminate|].
      intros lock; discriminate.
  - intros w e Hraise.
    pose proof (pool_Flush_pool w) as Hpool.
    rewrite pool_Flush_run in *.
    destruct (perform (Flush_calls (pool w)) w) as [[[]|e'|] w1];
      simpl in *; try discriminate.
    split; [congruence|exact Hpool].
Qed.

End PoolTheorems.

(** ** The lock retry wrapper *)

Section LockFacts.
Context {Store : Type} `{!Backend Store} `{!Codec}.
Local Abbreviation M := (Python Store).

Lemma DBSubjectLock_frame subject lease_time token (w : World Store) :
  let w1 := (DataStore.DBSubjectLock subject lease_time token w).2 in
  slept w1 = slept w ∧ counters w1 = counters w ∧ pool w1 = pool w ∧
  logged w1 = logged w ∧
  calls w1 = calls w ++ [CallDBSubjectLock subject lease_time token] ∧
  (DataStore.DBSubjectLock subject lease_time token w).1 ≠ OutOfFuel.
Proof.
  unfold DataStore.DBSubjectLock. rewrite bind_run.
  unfold called, modify_world, backend. simpl.
  destruct (abstract_DBSubjectLock _ _ _ _) as [[e|a] s]; simpl;
    repeat split; done.
Qed.

Lemma retry_frame retrywrap_timeout (w : World Store) :
  let w1 :=
    ((IncrementCounter "datastore_retries";;
      DataStore.sleep retrywrap_timeout) w).2 in
  slept w1 = slept w ++ [retrywrap_timeout] ∧
  GetCounter "datastore_retries" w1 = GetCounter "datastore_retries" w + 1 ∧
  pool w1 = pool w ∧ calls w1 = calls w ∧ logged w1 = logged w.
Proof.
  simpl. repeat split. unfold GetCounter. simpl.
  by rewrite lookup_insert_eq.
Qed.

Lemma contended_frame k subject lease_time token retrywrap_timeout
  (w wk : World Store) :
  contended k subject lease_time token retrywrap_timeout w = Some wk →
  slept wk = slept w ++ replicate k retrywrap_timeout ∧
  GetCounter "datastore_retries" wk
  = GetCounter "datastore_retries" w + Z.of_nat k ∧
  pool wk = pool w ∧
  calls wk
  = calls w ++ replicate k (CallDBSubjectLock subject lease_time token).
Proof.
  revert w. induction k as [|k IH]; intros w; simpl.
  - intros [= ->]. rewrite !app_nil_r. repeat split; lia.
  - destruct (DBSubjectLock_frame subject lease_time token w)
      as (Hs & Hc & Hp & _ & Hcalls & _).
    destruct (DataStore.DBSubjectLock subject lease_time token w)
      as [[a|[m|m|m|m]|] w1]; try discriminate.
    intros Hk. apply IH in Hk as (Hs' & Hc' & Hp' & Hcalls').
    unfold GetCounter in *. simpl in *.
    rewrite lookup_insert_eq in Hc'. simpl in Hc'.
    rewrite Hs', Hc', Hp', Hcalls', Hs, Hc, Hp, Hcalls, <- !app_assoc.
    simpl. repeat split. lia.
Qed.

(** [k] contended attempts take the loop from [timeout] to
    [timeout + k * retrywrap_timeout]. *)
Lemma LockRetryWrapper_loop_contended k fuel subject retrywrap_timeout token
  retrywrap_max_timeout lease_time timeout (w wk : World Store) :
  contended k subject lease_time token retrywrap_timeout w = Some wk →
  (∀ j, (j < k)%nat →
        timeout + Z.of_nat j * retrywrap_timeout < retrywrap_max_timeout) →
  DataStore.LockRetryWrapper_loop (k + fuel) subject retrywrap_timeout token
    retrywrap_max_timeout true lease_time timeout w
  = DataStore.LockRetryWrapper_loop fuel subject retrywrap_timeout token
      retrywrap_max_timeout true lease_time
      (timeout + Z.of_nat k * retrywrap_timeout) wk.
Proof.
  revert timeout w. induction k as [|k IH]; intros timeout w Hk Hlt.
  - simpl in Hk. injection Hk as ->. simpl. by rewrite Z.add_0_r.
  - simpl in Hk. simpl DataStore.LockRetryWrapper_loop.
    pose proof (Hlt O ltac:(lia)) as H0. rewrite Z.mul_0_l, Z.add_0_r in H0.
    apply Z.ltb_lt in H0. rewrite H0.
    unfold try_except.
    destruct (DataStore.DBSubjectLock subject lease_time token w)
      as [[a|[m|m|m|m]|] w1]; try discriminate.
    change (isinstance_DBSubjectLockError (DBSubjectLockError m)) with true.
    cbv iota.
    replace (timeout + Z.of_nat (S k) * retrywrap_timeout)
      with ((timeout + retrywrap_timeout) + Z.of_nat k * retrywrap_timeout)
      by lia.
    rewrite <- (IH (timeout + retrywrap_timeout) _ Hk).
    + reflexivity.
    + intros j Hj. specialize (Hlt (S j) ltac:(lia)). lia.
Qed.

Lemma LockRetryWrapper_loop_exhausted fuel subject retrywrap_timeout token
  retrywrap_max_timeout blocking lease_time timeout (w : World Store) :
  retrywrap_max_timeout ≤ timeout →
  DataStore.LockRetryWrapper_loop fuel subject retrywrap_timeout token
    retrywrap_max_timeout blocking lease_time timeout w
  = (Raise (DBSubjectLockError "Retry number exceeded."),
     (IncrementCounter "grr_commit_failure" w).2).
Proof.
  intros Hle. apply Z.ltb_ge in Hle.
  destruct fuel; simpl; rewrite Hle; reflexivity.
Qed.

(** With a positive increment the loop ends within
    [retrywrap_max_timeout / retrywrap_timeout] turns, rounded up. *)
Lemma LockRetryWrapper_loop_terminates fuel subject retrywrap_timeout token
  retrywrap_max_timeout blocking lease_time timeout (w : World Store) :
  0 < retrywrap_timeout →
  retrywrap_max_timeout - timeout ≤ Z.of_nat fuel * retrywrap_timeout →
  (DataStore.LockRetryWrapper_loop fuel subject retrywrap_timeout token
     retrywrap_max_timeout blocking lease_time timeout w).1 ≠ OutOfFuel.
Proof.
  intros Hpos. revert timeout w.
  induction fuel as [|fuel IH]; intros timeout w Hfuel.
  - rewrite LockRetryWrapper_loop_exhausted by lia. done.
  - simpl DataStore.LockRetryWrapper_loop.
    destruct (timeout <? retrywrap_max_timeout) eqn:Hlt; [|done].
    unfold try_except.
    destruct (DBSubjectLock_frame subject lease_time token w)
      as (_ & _ & _ & _ & _ & Hfu).
    destruct (DataStore.DBSubjectLock subject lease_time token w)
      as [[a|e|] w1]; simpl in *; [done| |done].
    destruct (isinstance_DBSubjectLockError e); [|done].
    destruct blocking; simpl; [|done].
    apply IH. lia.
Qed.

(** C3. [LockRetryWrapper] returns the lock of the first attempt that
    succeeds, after one sleep of [retrywrap_timeout] per failed attempt
    before it; when blocking, it raises [DBSubjectLockError] as soon as the
    sleeps add up to [retrywrap_max_timeout] or more; when not blocking, it
    raises the error of the first failed attempt again at once, with no
    retry counted and no sleep. With a positive [retrywrap_timeout] the
    loop ends. *)
Theorem LockRetryWrapper_spec subject retrywrap_timeout token
  retrywrap_max_timeout lease_time (w : World Store) :
  let entered blocking :=
    (called (CallLockRetryWrapper subject retrywrap_timeout
               retrywrap_max_timeout blocking lease_time token) w).2 in
  (∀ k fuel wk lock w',
     contended k subject lease_time token retrywrap_timeout (entered true)
     = Some wk →
     (∀ j, (j ≤ k)%nat →
           Z.of_nat j * retrywrap_timeout < retrywrap_max_timeout) →
     DataStore.DBSubjectLock subject lease_time token wk = (Return lock, w') →
     (k < fuel)%nat →
     DataStore.LockRetryWrapper fuel subject retrywrap_timeout token
       retrywrap_max_timeout true lease_time w = (Return lock, w') ∧
     slept w' = slept w ++ replicate k retrywrap_timeout) ∧
  (∀ k fuel wk,
     contended k subject lease_time token retrywrap_timeout (entered true)
     = Some wk →
     (∀ j, (j < k)%nat →
           Z.of_nat j * retrywrap_timeout < retrywrap_max_timeout) →
     retrywrap_max_timeout ≤ Z.of_nat k * retrywrap_timeout →
     (k ≤ fuel)%nat →
     DataStore.LockRetryWrapper fuel subject retrywrap_timeout token
       retrywrap_max_timeout true lease_time w
     = (Raise (DBSubjectLockError "Retry number exceeded."),
        (IncrementCounter "grr_commit_failure" wk).2) ∧
     slept wk = slept w ++ replicate k retrywrap_timeout) ∧
  (∀ fuel m w1,
     0 < retrywrap_max_timeout →
     DataStore.DBSubjectLock subject lease_time token (entered false)
     = (Raise (DBSubjectLockError m), w1) →
     (0 < fuel)%nat →
     DataStore.LockRetryWrapper fuel subject retrywrap_timeout token
       retrywrap_max_timeout false lease_time w
     = (Raise (DBSubjectLockError m), w1) ∧
     slept w1 = slept w ∧ counters w1 = counters w) ∧
  (∀ fuel blocking,
     0 < retrywrap_timeout →
     retrywrap_max_timeout ≤ Z.of_nat fuel * retrywrap_timeout →
     (DataStore.LockRetryWrapper fuel subject retrywrap_timeout token
        retrywrap_max_timeout blocking lease_time w).1 ≠ OutOfFuel).
Proof.
  intros entered.
  assert (Hrun : ∀ fuel blocking,
    DataStore.LockRetryWrapper fuel subject retrywrap_timeout token
      retrywrap_max_timeout blocking lease_time w
    = DataStore.LockRetryWrapper_loop fuel subject retrywrap_timeout token
        retrywrap_max_timeout blocking lease_time 0 (entered blocking))
    by reflexivity.
  split; [|split; [|split]].
  - intros k fuel wk lock w' Hk Hlt Hlock Hfuel. split.
    + rewrite Hrun.
      replace fuel with (k + S (fuel - S k))%nat by lia.
      rewrite (LockRetryWrapper_loop_contended _ _ _ _ _ _ _ _ _ _ Hk).
      * simpl DataStore.LockRetryWrapper_loop.
        pose proof (Hlt k ltac:(lia)) as Hlast. apply Z.ltb_lt in Hlast.
        rewrite Z.add_0_l, Hlast. unfold try_except. rewrite Hlock.
        reflexivity.
      * intros j Hj. specialize (Hlt j ltac:(lia)). lia.
    + apply contended_frame in Hk as (Hs & _).
      destruct (DBSubjectLock_frame subject lease_time token wk) as (Hs' & _).
      rewrite Hlock in Hs'. simpl in Hs'. rewrite Hs', Hs. reflexivity.
  - intros k fuel wk Hk Hlt Hmax Hfuel. split.
    + rewrite Hrun.
      replace fuel with (k + (fuel - k))%nat by lia.
      rewrite (LockRetryWrapper_loop_contended _ _ _ _ _ _ _ _ _ _ Hk).
      * apply LockRetryWrapper_loop_exhausted. lia.
      * intros j Hj. specialize (Hlt j Hj). lia.
    + apply contended_frame in Hk as (Hs & _). rewrite Hs. reflexivity.
  - intros fuel m w1 Hmax Hlock Hfuel.
    destruct (DBSubjectLock_frame subject lease_time token (entered false))
      as (Hs & Hc & _).
    rewrite Hlock in Hs, Hc. simpl in Hs, Hc.
    split; [|split; assumption].
    rewrite Hrun. destruct fuel as [|fuel]; [lia|].
    simpl DataStore.LockRetryWrapper_loop.
    apply Z.ltb_lt in Hmax. rewrite Hmax. unfold try_except. rewrite Hlock.
    reflexivity.
  - intros fuel blocking Hpos Hfuel. rewrite Hrun.
    apply LockRetryWrapper_loop_terminates; lia.
Qed.

End LockFacts.

(** ** Sorting *)

Section StableSortFacts.
Context {A K : Type} (key : A → K) (leb : K → K → bool).
Hypothesis leb_total : ∀ a b, leb a b = false → leb b a = true.
Hypothesis leb_trans : ∀ a b c, leb a b = true → leb b c = true → leb a c = true.

Local Abbreviation ordered := (λ x y : A, leb (key x) (key y) = true).

Lemma insert_by_Permutation (x : A) (l : list A) :
  Permutation (insert_by key leb x l) (x :: l).
Proof.
  induction l as [|y l IH]; simpl.
  - reflexivity.
  - destruct (leb (key x) (key y)); [reflexivity|].
    rewrite IH. apply perm_swap.
Qed.

Lemma sort_by_Permutation (l : list A) : Permutation (sort_by key leb l) l.
Proof.
  induction l as [|x l IH]; simpl.
  - reflexivity.
  - rewrite insert_by_Permutation. by constructor.
Qed.

Lemma insert_by_sorted (x : A) (l : list A) :
  StronglySorted ordered l → StronglySorted ordered (insert_by key leb x l).
Proof.
  induction 1 as [|y l Hsorted IH Hy]; simpl.
  - repeat constructor.
  - destruct (leb (key x) (key y)) eqn:Hxy.
    + constructor; [by constructor|].
      constructor; [exact Hxy|].
      eapply Forall_impl; [exact Hy|]. intros z Hz. eapply leb_trans; eauto.
    + constructor; [exact IH|].
      rewrite (Forall_forall (ordered y)). intros z Hz.
      rewrite insert_by_Permutation in Hz.
      apply elem_of_cons in Hz as [->|Hz].
      * by apply leb_total.
      * rewrite Forall_forall in Hy. by apply Hy.
Qed.

Lemma sort_by_sorted (l : list A) : StronglySorted ordered (sort_by key leb l).
Proof.
  induction l as [|x l IH]; simpl.
  - constructor.
  - by apply insert_by_sorted.
Qed.

(** Stability: the elements whose key is equivalent to [k] come out in the
    order they came in. *)
Local Abbreviation same k := (λ x : A, leb k (key x) && leb (key x) k).

Lemma insert_by_stable (k : K) (x : A) (l : list A) :
  List.filter (same k) (insert_by key leb x l) = List.filter (same k) (x :: l).
Proof.
  induction l as [|y l IH]; [reflexivity|].
  cbn [insert_by]. destruct (leb (key x) (key y)) eqn:Hxy; [reflexivity|].
  cbn [List.filter] in *. rewrite IH.
  destruct (same k x) eqn:Hx; [|reflexivity].
  destruct (same k y) eqn:Hy; [|reflexivity].
  apply andb_prop in Hx as [_ Hxk], Hy as [Hky _].
  rewrite (leb_trans _ _ _ Hxk Hky) in Hxy. discriminate.
Qed.

Lemma sort_by_stable (k : K) (l : list A) :
  List.filter (same k) (sort_by key leb l) = List.filter (same k) l.
Proof.
  induction l as [|x l IH]; [reflexivity|].
  cbn [sort_by]. rewrite insert_by_stable. cbn [List.filter].
  by rewrite IH.
Qed.

Lemma sort_by_nil_inv (l : list A) : sort_by key leb l = [] → l = [].
Proof.
  intros Hnil. apply Permutation_nil. rewrite <- Hnil.
  apply sort_by_Permutation.
Qed.

End StableSortFacts.

(** The order of Python 2 on [str] is the lexicographic order on the
    codes of the characters, which is [String.leb]. *)
Lemma ascii_compare_N (a b : ascii) :
  Ascii.compare a b = (N_of_ascii a ?= N_of_ascii b)%N.
Proof. reflexivity. Qed.

Lemma string_leb_total (a b : string) :
  String.leb a b = false → String.leb b a = true.
Proof.
  intros Hab. destruct (String.leb_total a b) as [H|H]; congruence.
Qed.

Lemma string_compare_trans (s1 s2 s3 : string) :
  String.compare s1 s2 ≠ Gt → String.compare s2 s3 ≠ Gt →
  String.compare s1 s3 ≠ Gt.
Proof.
  revert s2 s3.
  induction s1 as [|a s1 IH]; intros [|b s2] [|d s3]; simpl; try done.
  rewrite !ascii_compare_N.
  destruct (N.compare_spec (N_of_ascii a) (N_of_ascii b)) as [Hab|Hab|Hab];
    destruct (N.compare_spec (N_of_ascii b) (N_of_ascii d)) as [Hbd|Hbd|Hbd];
    destruct (N.compare_spec (N_of_ascii a) (N_of_ascii d)) as [Had|Had|Had];
    try done; try lia.
  apply IH.
Qed.

Lemma string_leb_trans (a b c : string) :
  String.leb a b = true → String.leb b c = true → String.leb a c = true.
Proof.
  unfold String.leb. intros Hab Hbc.
  pose proof (string_compare_trans a b c) as Htrans.
  destruct (String.compare a b), (String.compare b c); try discriminate;
    destruct (String.compare a c); try reflexivity;
    exfalso; apply Htrans; done.
Qed.

Lemma Z_geb_total (a b : Z) : (b <=? a) = false → (a <=? b) = true.
Proof. lia. Qed.

Lemma Z_geb_trans (a b c : Z) :
  (b <=? a) = true → (c <=? b) = true → (c <=? a) = true.
Proof. lia. Qed.

Lemma string_leb_refl (a : string) : String.leb a a = true.
Proof. destruct (String.leb_total a a); assumption. Qed.

Lemma string_same_eqb (k a : string) :
  String.leb k a && String.leb a k = String.eqb a k.
Proof.
  destruct (String.eqb_spec a k) as [->|Hne].
  - by rewrite string_leb_refl.
  - destruct (String.leb k a) eqn:Hka, (String.leb a k) eqn:Hak; try done.
    exfalso. apply Hne. by apply String.leb_antisym.
Qed.

(** ** Resolving *)

Section ResolveFacts.
Context {Store : Type} `{!Backend Store} `{!Codec}.
Local Abbreviation M := (Python Store).

Lemma MultiResolvePrefix_frame subjects attribute_prefix timestamp limit token
  (w : World Store) :
  let run :=
    DataStore.MultiResolvePrefix subjects attribute_prefix timestamp limit
      token w in
  calls run.2
  = calls w ++ [CallMultiResolvePrefix subjects attribute_prefix timestamp
                  limit token] ∧
  pool run.2 = pool w ∧ counters run.2 = counters w ∧
  logged run.2 = logged w ∧ slept run.2 = slept w ∧ run.1 ≠ OutOfFuel.
Proof.
  unfold DataStore.MultiResolvePrefix. rewrite bind_run.
  unfold called, modify_world, backend. simpl.
  destruct (abstract_MultiResolvePrefix _ _ _ _ _ _) as [[e|a] s]; simpl;
    repeat split; done.
Qed.

Lemma ResolvePrefix_run subject attribute_prefix timestamp limit token
  (w : World Store) :
  DataStore.ResolvePrefix subject attribute_prefix timestamp limit token w =
  match
    DataStore.MultiResolvePrefix [subject] attribute_prefix timestamp limit
      token
      (called (CallResolvePrefix subject attribute_prefix timestamp limit
                 token) w).2
  with
  | (Return rows, w1) =>
      (Return (sort_by (λ a : cell, a.1.1) String.leb (first_values rows)), w1)
  | (Raise e, w1) => (Raise e, w1)
  | (OutOfFuel, w1) => (OutOfFuel, w1)
  end.
Proof.
  unfold DataStore.ResolvePrefix. rewrite bind_run.
  change (called (CallResolvePrefix subject attribute_prefix timestamp limit
                    token) w)
    with (Return tt,
          (called (CallResolvePrefix subject attribute_prefix timestamp limit
                     token) w).2).
  cbv iota beta. rewrite bind_run.
  destruct (DataStore.MultiResolvePrefix _ _ _ _ _ _) as [[rows|e|] w1];
    try reflexivity.
  destruct rows as [|[s values] rows]; reflexivity.
Qed.

Lemma ResolvePrefix_frame subject attribute_prefix timestamp limit token
  (w : World Store) :
  let run :=
    DataStore.ResolvePrefix subject attribute_prefix timestamp limit token w in
  calls run.2
  = calls w ++ [CallResolvePrefix subject attribute_prefix timestamp limit
                  token;
                CallMultiResolvePrefix [subject] attribute_prefix timestamp
                  limit token] ∧
  pool run.2 = pool w ∧ counters run.2 = counters w ∧
  logged run.2 = logged w ∧ slept run.2 = slept w ∧ run.1 ≠ OutOfFuel.
Proof.
  cbv zeta. rewrite ResolvePrefix_run.
  set (w0 := (called _ w).2).
  destruct (MultiResolvePrefix_frame [subject] attribute_prefix timestamp limit
              token w0) as (Hc & Hp & Hn & Hl & Hs & Hf).
  destruct (DataStore.MultiResolvePrefix _ _ _ _ _ w0) as [[rows|e|] w1];
    simpl in *; rewrite Hc, <- app_assoc; repeat split; auto.
Qed.

(** C10. [ResolvePrefix] returns the cells that [MultiResolvePrefix] gives
    for the subject sorted on the attribute, in ascending order of the
    attribute names, cells of one attribute in the order the backend gave
    them; it returns the empty list when there is no cell. *)
Theorem ResolvePrefix_sorted_by_attribute subject attribute_prefix timestamp
  limit token (w w1 : World Store) (rows : list (string * list cell)) :
  DataStore.MultiResolvePrefix [subject] attribute_prefix timestamp limit token
    (called (CallResolvePrefix subject attribute_prefix timestamp limit token)
       w).2
  = (Return rows, w1) →
  ∃ result,
    DataStore.ResolvePrefix subject attribute_prefix timestamp limit token w
    = (Return result, w1) ∧
    Permutation result (first_values rows) ∧
    StronglySorted (λ a b : cell, String.leb a.1.1 b.1.1 = true) result ∧
    (∀ attribute,
       List.filter (λ c : cell, String.eqb c.1.1 attribute) result
       = List.filter (λ c : cell, String.eqb c.1.1 attribute)
           (first_values rows)) ∧
    (first_values rows = [] → result = []).
Proof.
  intros Hrows.
  exists (sort_by (λ a : cell, a.1.1) String.leb (first_values rows)).
  split; [by rewrite ResolvePrefix_run, Hrows|].
  split; [apply sort_by_Permutation|].
  split; [apply sort_by_sorted; [apply string_leb_total|apply string_leb_trans]|].
  split; [|by intros ->].
  intros attribute.
  rewrite <- (List.filter_ext _ _
    (λ c : cell, string_same_eqb attribute c.1.1)).
  rewrite <- (List.filter_ext _ _
    (λ c : cell, string_same_eqb attribute c.1.1)).
  apply (sort_by_stable (λ a : cell, a.1.1) String.leb string_leb_trans).
Qed.

End ResolveFacts.

(** ** Reading a queue *)

Section QueueReadFacts.
Context {Store : Type} `{!Backend Store} `{!Codec}.
Local Abbreviation M := (Python Store).

Lemma StronglySorted_impl {A} (R1 R2 : A → A → Prop) (l : list A) :
  (∀ x y, R1 x y → R2 x y) → StronglySorted R1 l → StronglySorted R2 l.
Proof.
  intros Himpl. induction 1 as [|x l _ IH Hx]; constructor; auto.
  eapply Forall_impl; eauto.
Qed.

Lemma sort_by_priority_Permutation tasks :
  Permutation (DataStore.sort_by_priority tasks) tasks.
Proof. apply sort_by_Permutation. Qed.

Lemma sort_by_priority_sorted tasks :
  StronglySorted (λ a b, rdf_flows.priority b ≤ rdf_flows.priority a)
    (DataStore.sort_by_priority tasks).
Proof.
  eapply StronglySorted_impl;
    [|apply (sort_by_sorted rdf_flows.priority (λ a b, b <=? a));
      [apply Z_geb_total|apply Z_geb_trans]].
  intros x y. simpl. lia.
Qed.

Lemma tasks_of_cells_app cells1 cells2 :
  tasks_of_cells (cells1 ++ cells2)
  = match tasks_of_cells cells1, tasks_of_cells cells2 with
    | Some l1, Some l2 => Some (l1 ++ l2)
    | _, _ => None
    end.
Proof.
  induction cells1 as [|c cells1 IH]; simpl.
  - by destruct (tasks_of_cells cells2).
  - rewrite IH. destruct (task_of_cell c); [|done].
    destruct (tasks_of_cells cells1), (tasks_of_cells cells2); done.
Qed.

Lemma tasks_of_cells_eta cells parsed :
  tasks_of_cells cells = Some parsed →
  Forall2 (λ (c : cell) t, rdf_flows.eta t = c.2) cells parsed.
Proof.
  revert parsed. induction cells as [|c cells IH]; intros parsed; simpl.
  - intros [= <-]. constructor.
  - unfold task_of_cell at 1.
    destruct (GrrMessage_FromSerializedString c.1.2) as [t|]; [|done]. simpl.
    destruct (tasks_of_cells cells) as [l|]; [|done].
    intros [= <-]. constructor; [reflexivity|by apply IH].
Qed.

Lemma parse_tasks_run cells all_tasks (w : World Store) :
  DataStore.parse_tasks cells all_tasks w =
  match tasks_of_cells cells with
  | Some parsed => (Return (all_tasks ++ parsed), w)
  | None => (Raise (OtherException "GrrMessage.FromSerializedString"), w)
  end.
Proof.
  revert all_tasks. induction cells as [|[[attribute serialized] ts] cells IH];
    intros all_tasks; simpl.
  - by rewrite app_nil_r.
  - rewrite bind_run. unfold DataStore.FromSerializedString, task_of_cell.
    simpl. destruct (GrrMessage_FromSerializedString serialized) as [t|];
      simpl; [|reflexivity].
    rewrite IH. destruct (tasks_of_cells cells) as [l|]; [|reflexivity].
    by rewrite <- app_assoc.
Qed.

Lemma cells_of_is_Some queue rows :
  Forall (λ row : string * list cell, is_Some (tasks_of_cells row.2)) rows →
  is_Some (tasks_of_cells (cells_of queue rows)).
Proof.
  induction 1 as [|[q raw] rows [l Hl] _ [l' IH]]; simpl.
  - by eexists.
  - unfold cells_of in *. simpl. rewrite tasks_of_cells_app, IH.
    destruct (String.eqb q queue); simpl in *.
    + rewrite Hl. by eexists.
    + by eexists.
Qed.

(** The dict that the loop of [QueueMultiQuery] builds: per queue, the
    tasks of all the cells given for it, after those it held before. *)
Lemma QueueMultiQuery_rows_run rows tasks (w : World Store) :
  Forall (λ row : string * list cell, is_Some (tasks_of_cells row.2)) rows →
  ∃ tasks',
    DataStore.QueueMultiQuery_rows rows tasks w = (Return tasks', w) ∧
    ∀ queue,
      tasks' !! queue =
      match cells_of queue rows with
      | [] => tasks !! queue
      | cells =>
          (λ parsed, default [] (tasks !! queue) ++ parsed)
          <$> tasks_of_cells cells
      end.
Proof.
  intros Hrows. revert tasks.
  induction Hrows as [|[q raw] rows [l Hl] Hrows IH]; intros tasks.
  - exists tasks. split; [reflexivity|]. intros queue. reflexivity.
  - simpl in Hl. simpl DataStore.QueueMultiQuery_rows.
    destruct raw as [|c raw].
    + destruct (IH tasks) as (tasks' & Hrun & Hlookup).
      exists tasks'. split; [exact Hrun|]. intros queue.
      rewrite Hlookup. unfold cells_of. simpl.
      by destruct (String.eqb q queue).
    + rewrite bind_run, parse_tasks_run, Hl.
      destruct (IH (<[q := default [] (tasks !! q) ++ l]> tasks))
        as (tasks' & Hrun & Hlookup).
      exists tasks'. split; [exact Hrun|]. intros queue.
      rewrite Hlookup. unfold cells_of. cbn [flat_map fst snd].
      fold (cells_of queue rows).
      destruct (cells_of_is_Some queue rows Hrows) as [l' Hl'].
      destruct (String.eqb_spec q queue) as [->|Hne].
      * rewrite lookup_insert_eq. cbn [default].
        change ((c :: raw) ++ cells_of queue rows)
          with (c :: (raw ++ cells_of queue rows)).
        cbv iota.
        change (c :: (raw ++ cells_of queue rows))
          with ((c :: raw) ++ cells_of queue rows).
        rewrite tasks_of_cells_app, Hl, Hl'. cbn [fmap option_fmap option_map].
        destruct (cells_of queue rows) as [|c' cells'] eqn:Hcells.
        -- simpl in Hl'. injection Hl' as <-. by rewrite app_nil_r.
        -- rewrite Hl'. simpl. by rewrite <- app_assoc.
      * rewrite lookup_insert_ne by done. reflexivity.
Qed.

(** C6. [QueueQueryTasks] and [QueueMultiQuery] only read: they make one
    resolve call for the [task:] cells with [ALL_TIMESTAMPS], take no lock,
    write nothing and leave the pool alone. The tasks they return are the
    parsed cells, each with [eta] set to the timestamp of its cell, in
    descending order of priority; [QueueQueryTasks] cuts the sorted list
    down to its first [limit] tasks. *)
Theorem queue_reads_sorted_by_priority :
  (∀ queue limit token (w w1 : World Store) cells parsed,
     DataStore.ResolvePrefix queue "task:" ALL_TIMESTAMPS None token w
     = (Return cells, w1) →
     tasks_of_cells cells = Some parsed →
     0 ≤ limit →
     let sorted := DataStore.sort_by_priority parsed in
     DataStore.QueueQueryTasks queue limit token w
     = (Return (take (Z.to_nat limit) sorted), w1) ∧
     Z.of_nat (length (take (Z.to_nat limit) sorted)) ≤ limit ∧
     Permutation sorted parsed ∧
     StronglySorted (λ a b, rdf_flows.priority b ≤ rdf_flows.priority a)
       sorted ∧
     Forall2 (λ (c : cell) t, rdf_flows.eta t = c.2) cells parsed ∧
     calls w1
     = calls w ++ [CallResolvePrefix queue "task:" ALL_TIMESTAMPS None token;
                   CallMultiResolvePrefix [queue] "task:" ALL_TIMESTAMPS None
                     token] ∧
     pool w1 = pool w) ∧
  (∀ queues token (w w1 : World Store) rows,
     DataStore.MultiResolvePrefix queues "task:" ALL_TIMESTAMPS None token w
     = (Return rows, w1) →
     Forall (λ row : string * list cell, is_Some (tasks_of_cells row.2))
       rows →
     ∃ tasks,
       DataStore.QueueMultiQuery queues token w = (Return tasks, w1) ∧
       calls w1
       = calls w ++ [CallMultiResolvePrefix queues "task:" ALL_TIMESTAMPS
                       None token] ∧
       pool w1 = pool w ∧
       ∀ queue,
         match cells_of queue rows with
         | [] => tasks !! queue = None
         | cells =>
             ∃ parsed,
               tasks_of_cells cells = Some parsed ∧
               tasks !! queue = Some (DataStore.sort_by_priority parsed) ∧
               Permutation (DataStore.sort_by_priority parsed) parsed ∧
               StronglySorted
                 (λ a b, rdf_flows.priority b ≤ rdf_flows.priority a)
                 (DataStore.sort_by_priority parsed) ∧
               Forall2 (λ (c : cell) t, rdf_flows.eta t = c.2) cells parsed
         end).
Proof.
  split.
  - intros queue limit token w w1 cells parsed Hcells Hparsed Hlimit sorted.
    split.
    { unfold DataStore.QueueQueryTasks. rewrite bind_run.
      unfold DataStore.QUEUE_TASK_PREDICATE_PREFIX. rewrite Hcells.
      rewrite bind_run, parse_tasks_run, Hparsed. simpl.
      unfold slice_to. destruct (limit <? 0) eqn:Hneg; [lia|reflexivity]. }
    split; [rewrite length_take; lia|].
    split; [apply sort_by_priority_Permutation|].
    split; [apply sort_by_priority_sorted|].
    split; [by apply tasks_of_cells_eta|].
    pose proof (ResolvePrefix_frame queue "task:" ALL_TIMESTAMPS None token w)
      as (Hc & Hp & _).
    rewrite Hcells in Hc, Hp. by split.
  - intros queues token w w1 rows Hrows Hparse.
    destruct (QueueMultiQuery_rows_run rows ∅ w1 Hparse)
      as (tasks & Hrun & Hlookup).
    exists (DataStore.sort_by_priority <$> tasks).
    split.
    { unfold DataStore.QueueMultiQuery. rewrite bind_run.
      unfold DataStore.QUEUE_TASK_PREDICATE_PREFIX. rewrite Hrows.
      by rewrite bind_run, Hrun. }
    pose proof (MultiResolvePrefix_frame queues "task:" ALL_TIMESTAMPS None
                  token w) as (Hc & Hp & _).
    rewrite Hrows in Hc, Hp. do 2 (split; [assumption|]).
    intros queue. rewrite lookup_fmap, Hlookup.
    destruct (cells_of_is_Some queue rows Hparse) as [parsed Hparsed].
    destruct (cells_of queue rows) as [|c cells] eqn:Hcells.
    + by rewrite lookup_empty.
    + exists parsed. rewrite Hparsed, lookup_empty. simpl.
      split; [reflexivity|]. split; [reflexivity|].
      split; [apply sort_by_priority_Permutation|].
      split; [apply sort_by_priority_sorted|].
      by apply tasks_of_cells_eta.
Qed.

End QueueReadFacts.

(** ** Notifications *)

Section NotificationFacts.
Context {Store : Type} `{!Backend Store} `{!Codec}.
Local Abbreviation M := (Python Store).

Lemma step_same_db (c : db_call) (w w' : World Store) :
  same_db w w' →
  ((called c;; exec_call c) w).1 = ((called c;; exec_call c) w').1 ∧
  same_db ((called c;; exec_call c) w).2 ((called c;; exec_call c) w').2.
Proof.
  intros [Hstore Hcalls]. unfold same_db.
  destruct c; rewrite !bind_run; unfold called, modify_world; simpl;
    try rewrite !bind_run; unfold backend; simpl;
    rewrite <- ?Hstore, <- ?Hcalls;
    try match goal with
        | |- context [match ?f (store w) with _ => _ end] =>
            destruct (f (store w)) as [[e|a] s]
        end; simpl; auto.
Qed.

Lemma perform_same_db (cs : list db_call) (w w' : World Store) :
  same_db w w' →
  (perform cs w).1 = (perform cs w').1 ∧
  same_db (perform cs w).2 (perform cs w').2.
Proof.
  revert w w'. induction cs as [|c cs IH]; intros w w' Hsame.
  - by split.
  - rewrite !perform_cons.
    destruct (step_same_db c w w' Hsame) as [Hr Hw].
    remember (called c;; exec_call c) as step eqn:Hstep.
    rewrite !bind_run.
    destruct (step w) as [[[]|e|] w1], (step w') as [[[]|e'|] w1'];
      simpl in *; try discriminate.
    + by apply IH.
    + split; [congruence|assumption].
    + split; [reflexivity|assumption].
Qed.

Lemma GetNotifications_loop_run queue_shard token cells (w w' : World Store) :
  same_db w w' →
  let run := DataStore.GetNotifications_loop queue_shard token cells w in
  let deletion := perform (deletes_for queue_shard token cells) w' in
  run.1 =
    match deletion.1 with
    | Return _ => Return (omap notification_of_cell cells)
    | Raise e => Raise e
    | OutOfFuel => OutOfFuel
    end ∧
  same_db run.2 deletion.2 ∧
  pool run.2 = pool w ∧ counters run.2 = counters w ∧ slept run.2 = slept w.
Proof.
  revert w w'.
  induction cells as [|[[predicate serialized] ts] cells IH];
    intros w w' Hsame.
  { simpl. tauto. }
  cbv zeta. unfold deletes_for. cbn [flat_map fst snd].
  fold (deletes_for queue_shard token cells).
  cbn [DataStore.GetNotifications_loop].
  change (omap notification_of_cell ((predicate, serialized, ts) :: cells))
    with (match notification_of_cell (predicate, serialized, ts) with
          | Some y => y :: omap notification_of_cell cells
          | None => omap notification_of_cell cells
          end).
  unfold notification_of_cell at 1. cbn [fst snd].
  destruct (GrrNotification_FromSerializedString serialized) as [n|] eqn:Hn.
  - cbn [app fmap option_fmap option_map]. rewrite bind_run.
    destruct (IH w w' Hsame) as (Hr & Hw & Hp & Hc & Hs).
    destruct (DataStore.GetNotifications_loop queue_shard token cells w)
      as [[yielded|e|] w1];
      destruct (perform (deletes_for queue_shard token cells) w')
        as [[[]|e'|] w1']; cbn [fst snd] in *; try discriminate.
    + injection Hr as ->. split; [reflexivity|tauto].
    + split; [assumption|tauto].
    + split; [reflexivity|tauto].
  - cbn [app]. rewrite perform_cons.
    rewrite logging_bind.
    set (wl := set_logged _ w).
    assert (Hsame' : same_db wl w') by exact Hsame.
    set (c := CallDeleteAttributes queue_shard [predicate] (Some ts) (Some ts)
                true token).
    assert (Hstep : ∀ w0,
      DataStore.DeleteAttributes queue_shard [predicate] (Some ts) (Some ts)
        true token w0 = (called c;; exec_call c) w0).
    { intros w0. rewrite DeleteAttributes_performs.
      unfold perform, for_each. apply bind_ret_tt. }
    rewrite (bind_ext _ (called c;; exec_call c) _ _ _ (Hstep wl)
               (λ _ _, eq_refl)).
    destruct (step_same_db c wl w' Hsame') as [Hr1 Hw1].
    assert (Hframe :
      pool ((called c;; exec_call c) wl).2 = pool w ∧
      counters ((called c;; exec_call c) wl).2 = counters w ∧
      slept ((called c;; exec_call c) wl).2 = slept w).
    { rewrite bind_run. unfold called, modify_world, exec_call, backend. simpl.
      destruct (abstract_DeleteAttributes _ _ _ _ _ _ _) as [[e|[]] s];
        repeat split. }
    remember (called c;; exec_call c) as step eqn:Hstepdef.
    rewrite !bind_run.
    destruct (step wl) as [[[]|e|] w1], (step w') as [[[]|e'|] w1'];
      simpl in *; try discriminate.
    + destruct (IH w1 w1' Hw1) as (Hr & Hw & Hp & Hc & Hs).
      split; [exact Hr|]. split; [exact Hw|].
      rewrite Hp, Hc, Hs. exact Hframe.
    + split; [congruence|]. split; [assumption|]. exact Hframe.
    + split; [reflexivity|]. split; [assumption|]. exact Hframe.
Qed.

Lemma same_db_refl (w : World Store) : same_db w w.
Proof. by split. Qed.

(** C7. [GetNotifications] resolves the [notify:] cells of the shard over
    [(0, end)] with the limit given. Over the cells resolved it deletes
    every cell that does not parse, that attribute at that timestamp alone
    and with [sync=True], in the order of the cells and going on to the next
    cell after each deletion; it yields every cell that parses, with
    [session_id] the attribute name without its ["notify:"] prefix and
    [timestamp] the timestamp of the cell. An exception of a deletion ends
    the run. *)
Theorem GetNotifications_spec queue_shard end_ limit token
  (w w1 : World Store) (cells : list cell) :
  DataStore.ResolvePrefix queue_shard "notify:" (TimestampRange 0 end_)
    (Some limit) token w = (Return cells, w1) →
  let run := DataStore.GetNotifications queue_shard end_ limit token w in
  let deletion := perform (deletes_for queue_shard token cells) w1 in
  run.1 =
    match deletion.1 with
    | Return _ => Return (omap notification_of_cell cells)
    | Raise e => Raise e
    | OutOfFuel => OutOfFuel
    end ∧
  store run.2 = store deletion.2 ∧
  calls run.2 = calls deletion.2 ∧
  (∃ issued,
     issued `prefix_of` deletes_for queue_shard token cells ∧
     calls run.2 = calls w1 ++ issued ∧
     (∀ yielded, run.1 = Return yielded →
                 issued = deletes_for queue_shard token cells)) ∧
  run.1 ≠ OutOfFuel ∧
  calls w1
  = calls w ++ [CallResolvePrefix queue_shard "notify:"
                  (TimestampRange 0 end_) (Some limit) token;
                CallMultiResolvePrefix [queue_shard] "notify:"
                  (TimestampRange 0 end_) (Some limit) token] ∧
  (∀ session_id serialized ts notification,
     GrrNotification_FromSerializedString serialized = Some notification →
     notification_of_cell ("notify:" +:+ session_id, serialized, ts)
     = Some (rdf_flows.set_timestamp ts
               (rdf_flows.set_session_id session_id notification))).
Proof.
  intros Hcells run deletion.
  assert (Hrun : run =
    DataStore.GetNotifications_loop queue_shard token cells w1).
  { unfold run, DataStore.GetNotifications. rewrite bind_run.
    unfold DataStore.NOTIFY_PREDICATE_PREFIX. by rewrite Hcells. }
  destruct (GetNotifications_loop_run queue_shard token cells w1 w1
              (same_db_refl w1)) as (Hr & [Hstore Hcalls] & _).
  rewrite <- Hrun in Hr, Hstore, Hcalls. fold deletion in Hr, Hstore, Hcalls.
  destruct (perform_spec (deletes_for queue_shard token cells) w1)
    as (issued & Hpre & Hissued & Hall & Hfuel & _).
  fold deletion in Hissued, Hall, Hfuel.
  split; [exact Hr|]. split; [exact Hstore|]. split; [exact Hcalls|].
  split; [|split; [|split]].
  - exists issued. split; [exact Hpre|]. split; [congruence|].
    intros yielded Hy. apply Hall. rewrite Hy in Hr.
    destruct deletion.1 as [[]|e|]; done.
  - rewrite Hr. destruct deletion.1 as [[]|e|]; done.
  - pose proof (ResolvePrefix_frame queue_shard "notify:"
                  (TimestampRange 0 end_) (Some limit) token w) as (Hc & _).
    by rewrite Hcells in Hc.
  - intros session_id serialized ts notification Hn.
    unfold notification_of_cell. simpl. by rewrite Hn.
Qed.

End NotificationFacts.

(** ** The keyword index *)

Section IndexFacts.
Context {Store : Type} `{!Backend Store} `{!Codec}.
Local Abbreviation M := (Python Store).

Lemma result_after_lookup hits result kw :
  result_after hits result !! kw
  = (λ names, names ∪ list_to_set (names_of kw hits)) <$> result !! kw.
Proof.
  revert result. induction hits as [|[[kw' name] ts] hits IH]; intros result.
  - simpl. destruct (result !! kw) as [names|]; simpl; [|done].
    f_equal. set_solver.
  - unfold result_after, names_of in *. cbn [foldl flat_map fst snd].
    rewrite IH. clear IH.
    destruct (String.eqb_spec kw' kw) as [->|Hne].
    + destruct (result !! kw) as [names|] eqn:Hkw.
      * rewrite lookup_insert_eq. simpl. f_equal. set_solver.
      * by rewrite Hkw.
    + destruct (result !! kw') as [names'|]; [|done].
      by rewrite lookup_insert_ne.
Qed.

Lemma seen_after_lookup hits m kw name :
  seen_after hits m !! (kw, name)
  = match stamps_of kw name hits with
    | [] => m !! (kw, name)
    | stamps => Some (foldl Z.max (default (-1) (m !! (kw, name))) stamps)
    end.
Proof.
  revert m. induction hits as [|[[kw' name'] ts] hits IH]; intros m.
  - reflexivity.
  - unfold seen_after, stamps_of in *. cbn [foldl flat_map fst snd].
    rewrite IH. clear IH.
    destruct (String.eqb_spec kw' kw) as [->|Hne];
      [destruct (String.eqb_spec name' name) as [->|Hne]|]; cbn [andb app].
    + rewrite lookup_insert_eq. cbn [default foldl].
      by destruct (flat_map _ hits).
    + rewrite lookup_insert_ne by congruence. reflexivity.
    + rewrite lookup_insert_ne by congruence. reflexivity.
Qed.

Lemma covered_insert keyword_urns result kw names :
  covered keyword_urns result →
  covered keyword_urns (<[kw := names]> result).
Proof.
  intros Hcov urn kw' Hurn. destruct (decide (kw = kw')) as [->|Hne].
  - rewrite lookup_insert_eq. by eexists.
  - rewrite lookup_insert_ne by done. eauto.
Qed.

Lemma result_after_covered keyword_urns hits result :
  covered keyword_urns result →
  covered keyword_urns (result_after hits result).
Proof.
  intros Hcov urn kw Hurn. rewrite result_after_lookup.
  destruct (Hcov urn kw Hurn) as [names ->]. by eexists.
Qed.

Lemma posting_cells_run keyword_urns keyword_urn kw value result last_seen_map
  (w : World Store) :
  keyword_urns !! keyword_urn = Some kw →
  covered keyword_urns result →
  let hits :=
    map (λ c : cell, (kw, string_drop DataStore._INDEX_PREFIX_LEN c.1.1, c.2))
      value in
  DataStore.IndexReadPostingLists_cells keyword_urns keyword_urn value
    (result, last_seen_map) w
  = (Return (result_after hits result, seen_after hits <$> last_seen_map), w).
Proof.
  intros Hurn. revert result last_seen_map.
  induction value as [|[[column v] ts] value IH];
    intros result last_seen_map Hcov.
  - simpl. by destruct last_seen_map.
  - cbv zeta. cbn [DataStore.IndexReadPostingLists_cells map fst snd].
    rewrite Hurn. destruct (Hcov _ _ Hurn) as [names Hnames].
    rewrite Hnames. rewrite IH by by apply covered_insert.
    unfold result_after, seen_after. cbn [foldl fst snd]. rewrite Hnames.
    by destruct last_seen_map.
Qed.

Lemma result_after_app hits1 hits2 result :
  result_after (hits1 ++ hits2) result
  = result_after hits2 (result_after hits1 result).
Proof. apply foldl_app. Qed.

Lemma seen_after_app hits1 hits2 m :
  seen_after (hits1 ++ hits2) m = seen_after hits2 (seen_after hits1 m).
Proof. apply foldl_app. Qed.

Lemma posting_rows_run keyword_urns rows result last_seen_map
  (w : World Store) :
  Forall (λ row : string * list cell,
            row.2 = [] ∨ is_Some (keyword_urns !! row.1)) rows →
  covered keyword_urns result →
  let hits := posting_hits keyword_urns rows in
  DataStore.IndexReadPostingLists_rows keyword_urns rows
    (result, last_seen_map) w
  = (Return (result_after hits result, seen_after hits <$> last_seen_map), w).
Proof.
  intros Hrows. revert result last_seen_map.
  induction Hrows as [|[urn value] rows Hrow _ IH];
    intros result last_seen_map Hcov.
  - simpl. by destruct last_seen_map.
  - cbv zeta. unfold posting_hits. cbn [flat_map fst snd].
    fold (posting_hits keyword_urns rows).
    cbn [DataStore.IndexReadPostingLists_rows]. rewrite bind_run.
    simpl in Hrow. destruct (keyword_urns !! urn) as [kw|] eqn:Hurn.
    + rewrite (posting_cells_run _ _ kw) by done.
      rewrite IH by by apply result_after_covered.
      rewrite result_after_app.
      destruct last_seen_map as [m|]; simpl; [|done].
      by rewrite seen_after_app.
    + destruct Hrow as [->|[? ?]]; [|done]. simpl.
      by rewrite IH.
Qed.

Lemma string_app_inj (p a b : string) : p +:+ a = p +:+ b → a = b.
Proof. induction p as [|c p IH]; simpl; [done|]. intros [= ?]. auto. Qed.

Lemma string_drop_app (p s : string) :
  string_drop (String.length p) (p +:+ s) = s.
Proof. induction p as [|c p IH]; simpl; auto. Qed.

(** The dict from URN to keyword sends the URN of every keyword asked for
    back to it, and holds the URNs of these keywords only. *)
Lemma keyword_urns_of_lookup index_urn keywords urn kw :
  DataStore.keyword_urns_of index_urn keywords !! urn = Some kw
  ↔ kw ∈ keywords ∧ urn = DataStore._KeywordToURN index_urn kw.
Proof.
  unfold DataStore.keyword_urns_of.
  assert (Hgen : ∀ d : gmap string string,
    foldl (λ d k, <[DataStore._KeywordToURN index_urn k := k]> d) d keywords
      !! urn = Some kw
    ↔ (kw ∈ keywords ∧ urn = DataStore._KeywordToURN index_urn kw)
      ∨ (d !! urn = Some kw ∧
         ∀ k, k ∈ keywords → urn ≠ DataStore._KeywordToURN index_urn k)).
  { induction keywords as [|k keywords IH]; intros d; simpl.
    - split; [intros ?; right; split; [done|]; intros k Hk; by inversion Hk|].
      intros [[Hin _]|[? _]]; [by inversion Hin|done].
    - rewrite IH. clear IH. split.
      + intros [[Hin ->]|[Hd Hother]].
        * left. split; [by right|done].
        * destruct (decide (DataStore._KeywordToURN index_urn k = urn))
            as [<-|Hne].
          -- rewrite lookup_insert_eq in Hd. injection Hd as ->.
             left. split; [by left|done].
          -- rewrite lookup_insert_ne in Hd by done. right. split; [done|].
             intros k' [->|Hk']%elem_of_cons; [done|by apply Hother].
      + intros [[[->|Hin]%elem_of_cons ->]|[Hd Hother]].
        * destruct (decide (k ∈ keywords)) as [Hin|Hnin]; [by left|].
          right. split; [by rewrite lookup_insert_eq|].
          intros k' Hk' Heq.
          apply string_app_inj, string_app_inj in Heq. by subst.
        * by left.
        * right. split.
          -- rewrite lookup_insert_ne; [done|].
             intros <-. eapply Hother; [by left|done].
          -- intros k' Hk'. apply Hother. by right. }
  rewrite Hgen. split; [|by left].
  intros [?|[Hempty _]]; [done|by rewrite lookup_empty in Hempty].
Qed.

Lemma initial_result_lookup (keywords : list string) kw :
  foldl (λ (result : gmap string (gset string)) kw, <[kw := ∅]> result) ∅
    keywords !! kw
  = if bool_decide (kw ∈ keywords) then Some ∅ else None.
Proof.
  assert (Hgen : ∀ d : gmap string (gset string),
    foldl (λ (result : gmap string (gset string)) kw, <[kw := ∅]> result) d
      keywords !! kw
    = if bool_decide (kw ∈ keywords) then Some ∅ else d !! kw).
  { induction keywords as [|k keywords IH]; intros d; simpl; [done|].
    rewrite IH. destruct (decide (kw ∈ keywords)) as [Hin|Hnin].
    - rewrite !bool_decide_eq_true_2; [done|by right|done].
    - rewrite (bool_decide_eq_false_2 _ Hnin).
      destruct (decide (k = kw)) as [->|Hne].
      + rewrite lookup_insert_eq, bool_decide_eq_true_2; [done|by left].
      + rewrite lookup_insert_ne by done.
        rewrite bool_decide_eq_false_2; [done|].
        intros [->|?]%elem_of_cons; done. }
  rewrite Hgen. by rewrite lookup_empty.
Qed.

(** C8. [IndexReadPostingLists] resolves the [kw_index:] cells of the
    keyword subjects over [(start_time, end_time + 1)]. The dict it returns
    has an entry for every keyword asked for and for no other: the set of
    the names, attribute minus the ["kw_index:"] prefix, of the cells
    resolved for the keyword, which is empty when there is none. A
    [last_seen_map] that was passed ends up with, for every keyword and
    name with a cell, the maximum of the value it held, or -1 if it held
    none, and the timestamps of these cells; its other entries are
    untouched. *)
Theorem IndexReadPostingLists_spec index_urn keywords start_time end_time
  last_seen_map token (w w1 : World Store) (rows : list (string * list cell)) :
  let keyword_urns := DataStore.keyword_urns_of index_urn keywords in
  DataStore.MultiResolvePrefix (map_to_list keyword_urns).*1 "kw_index:"
    (TimestampRange start_time (end_time + 1)) None token w
  = (Return rows, w1) →
  Forall (λ row : string * list cell,
            row.2 = [] ∨ is_Some (keyword_urns !! row.1)) rows →
  let hits := posting_hits keyword_urns rows in
  ∃ result last_seen_map',
    DataStore.IndexReadPostingLists index_urn keywords start_time end_time
      last_seen_map token w = (Return (result, last_seen_map'), w1) ∧
    (∀ kw, kw ∈ keywords →
           result !! kw = Some (list_to_set (names_of kw hits))) ∧
    (∀ kw, kw ∉ keywords → result !! kw = None) ∧
    (∀ kw, kw ∈ keywords →
           keyword_urns !! DataStore._KeywordToURN index_urn kw = Some kw) ∧
    (∀ name,
       string_drop DataStore._INDEX_PREFIX_LEN ("kw_index:" +:+ name) = name) ∧
    calls w1
    = calls w ++ [CallMultiResolvePrefix (map_to_list keyword_urns).*1
                    "kw_index:" (TimestampRange start_time (end_time + 1))
                    None token] ∧
    pool w1 = pool w ∧
    match last_seen_map with
    | None => last_seen_map' = None
    | Some m =>
        ∃ m',
          last_seen_map' = Some m' ∧
          ∀ kw name,
            m' !! (kw, name) =
            match stamps_of kw name hits with
            | [] => m !! (kw, name)
            | stamps =>
                Some (foldl Z.max (default (-1) (m !! (kw, name))) stamps)
            end
    end.
Proof.
  intros keyword_urns Hrows Hknown hits.
  set (result0 :=
    foldl (λ (result : gmap string (gset string)) kw, <[kw := ∅]> result) ∅
      keywords).
  assert (Hcov : covered keyword_urns result0).
  { intros urn kw Hurn. apply keyword_urns_of_lookup in Hurn as [Hin _].
    unfold result0. rewrite initial_result_lookup.
    rewrite bool_decide_eq_true_2 by done. by eexists. }
  exists (result_after hits result0), (seen_after hits <$> last_seen_map).
  split.
  { unfold DataStore.IndexReadPostingLists. cbv zeta. rewrite bind_run.
    fold keyword_urns. unfold DataStore._INDEX_PREFIX. rewrite Hrows.
    fold result0. by apply posting_rows_run. }
  split.
  { intros kw Hin. rewrite result_after_lookup. unfold result0.
    rewrite initial_result_lookup, bool_decide_eq_true_2 by done.
    simpl. f_equal. apply union_empty_l_L. }
  split.
  { intros kw Hnin. rewrite result_after_lookup. unfold result0.
    by rewrite initial_result_lookup, bool_decide_eq_false_2. }
  split.
  { intros kw Hin. by apply keyword_urns_of_lookup. }
  split.
  { intros name. apply (string_drop_app "kw_index:"). }
  pose proof (MultiResolvePrefix_frame (map_to_list keyword_urns).*1
                "kw_index:" (TimestampRange start_time (end_time + 1)) None
                token w) as (Hc & Hp & _).
  rewrite Hrows in Hc, Hp. do 2 (split; [assumption|]).
  destruct last_seen_map as [m|]; [|reflexivity].
  exists (seen_after hits m). split; [reflexivity|].
  intros kw name. apply seen_after_lookup.
Qed.

End IndexFacts.

(** ** Collection URNs *)

Lemma string_length_app (s1 s2 : string) :
  String.length (s1 +:+ s2) = (String.length s1 + String.length s2)%nat.
Proof. induction s1 as [|c s1 IH]; simpl; auto. Qed.

Lemma zeros_length (k : nat) : String.length (zeros k) = k.
Proof. induction k as [|k IH]; simpl; auto. Qed.

Lemma zero_pad_length (width : nat) (s : string) :
  (String.length s ≤ width)%nat → String.length (zero_pad width s) = width.
Proof.
  intros Hle. unfold zero_pad. rewrite string_length_app, zeros_length. lia.
Qed.

Lemma hex_value_digit_char (d : Z) :
  0 ≤ d < 16 → hex_value (digit_char d) = Some d.
Proof.
  intros Hd.
  assert (Hcases : d = 0 ∨ d = 1 ∨ d = 2 ∨ d = 3 ∨ d = 4 ∨ d = 5 ∨ d = 6 ∨
                   d = 7 ∨ d = 8 ∨ d = 9 ∨ d = 10 ∨ d = 11 ∨ d = 12 ∨
                   d = 13 ∨ d = 14 ∨ d = 15) by lia.
  repeat destruct Hcases as [->|Hcases]; try reflexivity.
  by subst.
Qed.

(** A number below [base ^ width] has [width] digits at most. *)
Lemma digits_onto_length (base : Z) (fuel : nat) (n : Z) (acc : string)
  (width : nat) :
  1 < base → 0 ≤ n < base ^ Z.of_nat width → (1 ≤ width)%nat →
  (String.length (digits_onto base fuel n acc)
   ≤ String.length acc + width)%nat.
Proof.
  intros Hbase. revert n acc width.
  induction fuel as [|fuel IH]; intros n acc width Hn Hwidth; simpl; [lia|].
  destruct (n / base =? 0) eqn:Hq; simpl; [lia|].
  apply Z.eqb_neq in Hq.
  destruct width as [|[|width]]; [lia| |].
  - exfalso. apply Hq. apply Z.div_small. lia.
  - specialize (IH (n / base) (String (digit_char (n mod base)) acc) (S width)).
    simpl in IH. etransitivity; [apply IH|]; [|lia|lia].
    split; [apply Z.div_pos; lia|].
    apply Z.div_lt_upper_bound; [lia|].
    replace (Z.of_nat (S (S width))) with (Z.succ (Z.of_nat (S width))) in Hn
      by lia.
    rewrite Z.pow_succ_r in Hn by lia. lia.
Qed.

(** The digits in base 16 read back as the number. *)
Lemma digits_onto_int16 (fuel : nat) (n : Z) (acc : string) :
  0 ≤ n < 2 ^ Z.of_nat fuel →
  int16_from 0 (digits_onto 16 fuel n acc) = int16_from n acc.
Proof.
  revert n acc. induction fuel as [|fuel IH]; intros n acc Hn.
  - simpl in *. f_equal. lia.
  - cbn [digits_onto].
    assert (Hd : 0 ≤ n mod 16 < 16) by (apply Z.mod_pos_bound; lia).
    destruct (n / 16 =? 0) eqn:Hq.
    + apply Z.eqb_eq in Hq. cbn [int16_from].
      rewrite hex_value_digit_char by done. f_equal.
      pose proof (Z.div_mod n 16 ltac:(lia)). lia.
    + rewrite IH.
      * cbn [int16_from]. rewrite hex_value_digit_char by done. f_equal.
        pose proof (Z.div_mod n 16 ltac:(lia)). lia.
      * split; [apply Z.div_pos; lia|].
        apply Z.div_lt_upper_bound; [lia|].
        replace (Z.of_nat (S fuel)) with (Z.succ (Z.of_nat fuel)) in Hn by lia.
        rewrite Z.pow_succ_r in Hn by lia. lia.
Qed.

Lemma number_digits_int16 (n : Z) :
  0 ≤ n → int16_from 0 (number_digits 16 n) = Some n.
Proof.
  intros Hn. unfold number_digits. rewrite digits_onto_int16; [reflexivity|].
  split; [done|].
  destruct (decide (n = 0)) as [->|Hne]; [done|].
  replace (Z.of_nat (S (Z.to_nat (Z.log2 n)))) with (Z.succ (Z.log2 n)).
  - apply Z.log2_spec. lia.
  - pose proof (Z.log2_nonneg n). lia.
Qed.

Lemma zeros_int16_from (k : nat) (s : string) :
  int16_from 0 (zeros k +:+ s) = int16_from 0 s.
Proof. induction k as [|k IH]; simpl; auto. Qed.

(** ["%0<width>x" % n] for [0 <= n < 16 ^ width] is [width] hexadecimal
    digits that read back as [n]. *)
Lemma format_int_hex (width : nat) (n : Z) :
  (1 ≤ width)%nat → 0 ≤ n < 16 ^ Z.of_nat width →
  String.length (format_int 16 width n) = width ∧
  int16 (format_int 16 width n) = Some n.
Proof.
  intros Hwidth Hn. unfold format_int.
  destruct (n <? 0) eqn:Hneg; [lia|].
  assert (Hlen : String.length (zero_pad width (number_digits 16 n)) = width).
  { apply zero_pad_length.
    apply (digits_onto_length 16 _ n EmptyString width); [lia|done|done]. }
  split; [exact Hlen|].
  unfold int16.
  destruct (zero_pad width (number_digits 16 n)) as [|c s] eqn:Hpad.
  - simpl in Hlen. lia.
  - rewrite <- Hpad. unfold zero_pad. rewrite zeros_int16_from.
    apply number_digits_int16. lia.
Qed.

Lemma randint_range (a b draw : Z) : a ≤ b → a ≤ DataStore.randint a b draw ≤ b.
Proof.
  intros Hab. unfold DataStore.randint.
  pose proof (Z.mod_pos_bound draw (b - a + 1) ltac:(lia)). lia.
Qed.

(** C9. For a 64-bit timestamp, and a suffix of 24 bits when the caller
    gives one, [CollectionMakeURN] returns the URN
    [<base>/<subpath>/<hex-ts>.<hex-suffix>]: the timestamp as 16
    hexadecimal digits exactly, the suffix as 6 exactly. A suffix that the
    function draws itself lies in [1, 0xFFFFFF]. The subpath is
    ["Results"] when the caller gives none. *)
Theorem CollectionMakeURN_format (draw : Z) (urn : string) (timestamp : Z)
  (suffix : option Z) (subpath : option string) :
  0 ≤ timestamp < 2 ^ 64 →
  (∀ s, suffix = Some s → 0 ≤ s ≤ 0xffffff) →
  ∃ hex_ts hex_suffix chosen,
    DataStore.CollectionMakeURN draw urn timestamp suffix subpath
    = ((urn +:+ "/" +:+ default "Results"%string subpath)
       +:+ "/" +:+ (hex_ts +:+ "." +:+ hex_suffix), timestamp, chosen) ∧
    String.length hex_ts = 16%nat ∧ int16 hex_ts = Some timestamp ∧
    String.length hex_suffix = 6%nat ∧ int16 hex_suffix = Some chosen ∧
    (suffix = None → 1 ≤ chosen ≤ 0xffffff) ∧
    (∀ s, suffix = Some s → chosen = s).
Proof.
  intros Hts Hsuffix.
  set (chosen :=
    match suffix with
    | None => DataStore.randint 1 DataStore.COLLECTION_MAX_SUFFIX draw
    | Some s => s
    end).
  assert (Hchosen : 0 ≤ chosen ≤ 0xffffff ∧
                    (suffix = None → 1 ≤ chosen ≤ 0xffffff)).
  { unfold chosen. destruct suffix as [s|].
    - split; [by apply Hsuffix|done].
    - pose proof (randint_range 1 DataStore.COLLECTION_MAX_SUFFIX draw
                    ltac:(done)) as Hr.
      unfold DataStore.COLLECTION_MAX_SUFFIX in *. split; [lia|done]. }
  destruct (format_int_hex 16 timestamp ltac:(lia) ltac:(simpl; lia))
    as [Hlen_ts Hval_ts].
  destruct (format_int_hex 6 chosen ltac:(lia) ltac:(simpl; lia))
    as [Hlen_s Hval_s].
  exists (format_int 16 16 timestamp), (format_int 16 6 chosen), chosen.
  split; [reflexivity|].
  split; [exact Hlen_ts|]. split; [exact Hval_ts|].
  split; [exact Hlen_s|]. split; [exact Hval_s|].
  split; [apply Hchosen|].
  intros s ->. reflexivity.
Qed.

(** ** Claiming tasks *)

Section ClaimFacts.
Context {Store : Type} `{!Backend Store} `{!Codec}.
Local Abbreviation M := (Python Store).

Lemma GetCounter_IncrementCounter name name' (w : World Store) :
  GetCounter name' (IncrementCounter name w).2
  = if String.eqb name name' then GetCounter name' w + 1
    else GetCounter name' w.
Proof.
  unfold GetCounter. simpl. destruct (String.eqb_spec name name') as [->|Hne].
  - by rewrite lookup_insert_eq.
  - by rewrite lookup_insert_ne.
Qed.

Lemma IncrementCounter_frame name (w : World Store) :
  let w1 := (IncrementCounter name w).2 in
  store w1 = store w ∧ calls w1 = calls w ∧ pool w1 = pool w ∧
  hostname w1 = hostname w ∧ pid w1 = pid w ∧ now w1 = now w ∧
  logged w1 = logged w ∧ slept w1 = slept w.
Proof. by repeat split. Qed.

(** One turn of the loop, on a cell that parses. *)
Lemma _QueueQueryAndOwn_cell_run limit user (c : cell) st (w : World Store)
  task :
  claim_of user (hostname w) (pid w) c = Some task →
  MutationPool._QueueQueryAndOwn_cell limit user c st w =
  if ttl_expired task then
    (Return ({| MutationPool.tasks := MutationPool.tasks st;
                MutationPool.delete_attrs :=
                  MutationPool.delete_attrs st ∪ {[c.1.1]};
                MutationPool.serialized_tasks_dict :=
                  MutationPool.serialized_tasks_dict st |}, false),
     (IncrementCounter "grr_task_ttl_expired_count" w).2)
  else
    (Return ({| MutationPool.tasks := MutationPool.tasks st ++ [task];
                MutationPool.delete_attrs := MutationPool.delete_attrs st;
                MutationPool.serialized_tasks_dict :=
                  <[c.1.1 :=
                      default [] (MutationPool.serialized_tasks_dict st
                                    !! c.1.1)
                      ++ [(GrrMessage_SerializeToString task, None)]]>
                    (MutationPool.serialized_tasks_dict st) |},
             limit <=? Z.of_nat (length (MutationPool.tasks st ++ [task]))),
     if retransmitted task
     then (IncrementCounter "grr_task_retransmission_count" w).2
     else w).
Proof.
  destruct c as [[predicate serialized] ts]. unfold claim_of. cbn [fst snd].
  unfold MutationPool._QueueQueryAndOwn_cell, retransmitted.
  rewrite bind_run. unfold DataStore.FromSerializedString.
  destruct (GrrMessage_FromSerializedString serialized) as [task0|];
    [|discriminate].
  cbn [fmap option_fmap option_map]. intros [= <-].
  unfold ttl_expired. cbn.
  destruct (rdf_flows.task_ttl task0 - 1 <=? 0); [reflexivity|].
  cbn. destruct (rdf_flows.task_ttl task0 - 1 =? GrrMessage_max_ttl - 1);
    reflexivity.
Qed.

Lemma count_if_cons {A} (f : A → bool) (x : A) (l : list A) :
  count_if f (x :: l) = (if f x then 1 else 0) + count_if f l.
Proof. unfold count_if. simpl. destruct (f x); simpl; lia. Qed.

Lemma claim_of_ttl user host pid (c : cell) task0 :
  GrrMessage_FromSerializedString c.1.2 = Some task0 →
  ∃ task,
    claim_of user host pid c = Some task ∧
    rdf_flows.task_ttl task = rdf_flows.task_ttl task0 - 1 ∧
    rdf_flows.eta task = c.2 ∧
    rdf_flows.last_lease task
    = (user +:+ "@" +:+ host +:+ ":" +:+ format_int 10 0 pid)%string.
Proof.
  intros Hparse. unfold claim_of. rewrite Hparse. simpl.
  eexists. split; [reflexivity|]. by repeat split.
Qed.

(** The loop of [_QueueQueryAndOwn] over cells that parse: it visits a
    prefix of the cells, all of them unless it stopped on the limit. *)
Lemma _QueueQueryAndOwn_loop_run limit user cells st (w : World Store) :
  Forall (λ c : cell, is_Some (GrrMessage_FromSerializedString c.1.2)) cells →
  ∃ visited rest claims st' w',
    cells = visited ++ rest ∧
    (rest = [] ∨ limit ≤ Z.of_nat (length (MutationPool.tasks st'))) ∧
    Forall2 (λ c task, claim_of user (hostname w) (pid w) c = Some task)
      visited claims ∧
    MutationPool._QueueQueryAndOwn_loop limit user cells st w
    = (Return st', w') ∧
    MutationPool.tasks st'
    = MutationPool.tasks st ++ List.filter (λ task, negb (ttl_expired task))
                                 claims ∧
    MutationPool.delete_attrs st'
    = MutationPool.delete_attrs st
      ∪ list_to_set
          (map (λ ct : cell * rdf_flows.GrrMessage, ct.1.1.1)
             (List.filter (λ ct : cell * rdf_flows.GrrMessage,
                             ttl_expired ct.2) (zip visited claims))) ∧
    GetCounter "grr_task_ttl_expired_count" w'
    = GetCounter "grr_task_ttl_expired_count" w + count_if ttl_expired claims ∧
    GetCounter "grr_task_retransmission_count" w'
    = GetCounter "grr_task_retransmission_count" w
      + count_if retransmitted claims ∧
    store w' = store w ∧ calls w' = calls w ∧ pool w' = pool w ∧
    hostname w' = hostname w ∧ pid w' = pid w ∧ now w' = now w ∧
    logged w' = logged w.
Proof.
  intros Hparse. revert st w.
  induction Hparse as [|c cells [task0 Hc] _ IH]; intros st w.
  - exists [], [], [], st, w. simpl. rewrite app_nil_r.
    unfold count_if. simpl. repeat split; try done; try lia; [by left|].
    set_solver.
  - destruct (claim_of_ttl user (hostname w) (pid w) c task0 Hc)
      as (task & Hclaim & _).
    cbn [MutationPool._QueueQueryAndOwn_loop]. rewrite bind_run.
    rewrite (_QueueQueryAndOwn_cell_run limit user c st w task Hclaim).
    destruct (ttl_expired task) eqn:Hexpired.
    + set (st1 := {| MutationPool.tasks := _ |}).
      set (w1 := (IncrementCounter "grr_task_ttl_expired_count" w).2).
      destruct (IH st1 w1)
        as (visited & rest & claims & st' & w' & Hcells & Hrest & Hclaims
            & Hrun & Htasks & Hdel & Hexp & Hret & Hframe).
      exists (c :: visited), rest, (task :: claims), st', w'.
      split; [by rewrite Hcells|]. split; [exact Hrest|].
      split; [by constructor|]. split; [exact Hrun|].
      split; [by cbn; rewrite Hexpired|].
      split.
      { rewrite Hdel. cbn. rewrite Hexpired. cbn. set_solver. }
      rewrite !count_if_cons. unfold retransmitted at 1. rewrite Hexpired.
      cbn [negb andb].
      split.
      { rewrite Hexp. unfold w1. rewrite GetCounter_IncrementCounter.
        simpl. lia. }
      split.
      { rewrite Hret. unfold w1. rewrite GetCounter_IncrementCounter.
        simpl. lia. }
      exact Hframe.
    + set (st1 := {| MutationPool.tasks := _ |}).
      set (w1 := if retransmitted task then _ else w).
      assert (Hw1 :
        GetCounter "grr_task_ttl_expired_count" w1
        = GetCounter "grr_task_ttl_expired_count" w ∧
        GetCounter "grr_task_retransmission_count" w1
        = GetCounter "grr_task_retransmission_count" w
          + (if retransmitted task then 1 else 0) ∧
        store w1 = store w ∧ calls w1 = calls w ∧ pool w1 = pool w ∧
        hostname w1 = hostname w ∧ pid w1 = pid w ∧ now w1 = now w ∧
        logged w1 = logged w).
      { unfold w1. destruct (retransmitted task).
        - rewrite !GetCounter_IncrementCounter. simpl. by repeat split.
        - repeat split; lia. }
      destruct Hw1 as (Hexp1 & Hret1 & Hframe1).
      destruct (limit <=? Z.of_nat (length (MutationPool.tasks st ++ [task])))
        eqn:Hstop.
      * exists [c], cells, [task], st1, w1.
        split; [reflexivity|].
        split; [right; unfold st1; simpl; lia|].
        split; [by repeat constructor|]. split; [reflexivity|].
        split; [by cbn; rewrite Hexpired|].
        split; [cbn; rewrite Hexpired; cbn; set_solver|].
        rewrite !count_if_cons, Hexpired. unfold count_if. simpl.
        split; [lia|]. split; [lia|]. exact Hframe1.
      * destruct (IH st1 w1)
          as (visited & rest & claims & st' & w' & Hcells & Hrest & Hclaims
              & Hrun & Htasks & Hdel & Hexp & Hret & Hframe).
        destruct Hframe1 as (Hs1 & Hc1 & Hp1 & Hh1 & Hpid1 & Hn1 & Hl1).
        rewrite Hh1, Hpid1 in Hclaims.
        exists (c :: visited), rest, (task :: claims), st', w'.
        split; [by rewrite Hcells|]. split; [exact Hrest|].
        split; [by constructor|]. split; [exact Hrun|].
        split.
        { rewrite Htasks. cbn. rewrite Hexpired. cbn.
          by rewrite <- app_assoc. }
        split.
        { rewrite Hdel. cbn. by rewrite Hexpired. }
        rewrite !count_if_cons, Hexpired.
        split; [lia|]. split; [lia|].
        destruct Hframe as (? & ? & ? & ? & ? & ? & ?).
        repeat split; congruence.
Qed.

(** C1 (as the code has it). Every cell that the claim loop visits has its
    [task_ttl] decremented by one. When the decremented value is zero or
    less the attribute joins the set to delete, [grr_task_ttl_expired_count]
    is incremented and the task is not returned; otherwise the task is
    returned, and [grr_task_retransmission_count] is incremented exactly
    when the decremented value differs from [max_ttl - 1]. The loop visits
    the resolved cells in order and stops once [limit] tasks are kept;
    [_QueueQueryAndOwn] returns the tasks kept and queues one [MultiSet] that
    carries the set to delete. *)
Theorem QueueQueryAndOwn_decrements_ttl :
  (∀ limit user (c : cell) st (w : World Store) task0,
     GrrMessage_FromSerializedString c.1.2 = Some task0 →
     ∃ task st' stop w',
       MutationPool._QueueQueryAndOwn_cell limit user c st w
       = (Return (st', stop), w') ∧
       rdf_flows.task_ttl task = rdf_flows.task_ttl task0 - 1 ∧
       rdf_flows.eta task = c.2 ∧
       if rdf_flows.task_ttl task0 - 1 <=? 0 then
         MutationPool.delete_attrs st'
         = MutationPool.delete_attrs st ∪ {[c.1.1]} ∧
         MutationPool.tasks st' = MutationPool.tasks st ∧
         stop = false ∧
         GetCounter "grr_task_ttl_expired_count" w'
         = GetCounter "grr_task_ttl_expired_count" w + 1 ∧
         GetCounter "grr_task_retransmission_count" w'
         = GetCounter "grr_task_retransmission_count" w
       else
         MutationPool.delete_attrs st' = MutationPool.delete_attrs st ∧
         MutationPool.tasks st' = MutationPool.tasks st ++ [task] ∧
         GetCounter "grr_task_ttl_expired_count" w'
         = GetCounter "grr_task_ttl_expired_count" w ∧
         GetCounter "grr_task_retransmission_count" w'
         = GetCounter "grr_task_retransmission_count" w
           + (if rdf_flows.task_ttl task0 - 1 =? GrrMessage_max_ttl - 1
              then 0 else 1)) ∧
  (∀ subject lease_seconds limit user timestamp (w w1 : World Store) cells,
     let upper :=
       match timestamp with
       | Some t => if t =? 0 then now w else t
       | None => now w
       end in
     DataStore.ResolvePrefix subject "task:" (TimestampRange 0 upper) None
       (token (pool w)) w = (Return cells, w1) →
     Forall (λ c : cell, is_Some (GrrMessage_FromSerializedString c.1.2))
       cells →
     ∃ visited rest claims values w',
       cells = visited ++ rest ∧
       Forall2 (λ c task, claim_of user (hostname w) (pid w) c = Some task)
         visited claims ∧
       let kept := List.filter (λ task, negb (ttl_expired task)) claims in
       let to_delete : gset string :=
         list_to_set
           (map (λ ct : cell * rdf_flows.GrrMessage, ct.1.1.1)
              (List.filter (λ ct : cell * rdf_flows.GrrMessage,
                              ttl_expired ct.2) (zip visited claims))) in
       (rest = [] ∨ limit ≤ Z.of_nat (length kept)) ∧
       MutationPool._QueueQueryAndOwn subject lease_seconds limit user
         timestamp w = (Return kept, w') ∧
       GetCounter "grr_task_ttl_expired_count" w'
       = GetCounter "grr_task_ttl_expired_count" w
         + count_if ttl_expired claims ∧
       GetCounter "grr_task_retransmission_count" w'
       = GetCounter "grr_task_retransmission_count" w
         + count_if retransmitted claims ∧
       set_requests (pool w')
       = set_requests (pool w)
         ++ (if bool_decide (to_delete = ∅) && bool_decide (values = ∅)
             then []
             else [(subject, values, Some (now w + lease_seconds * 1000000),
                    true, Some to_delete)])).
Proof.
  split.
  - intros limit user c st w task0 Hparse.
    destruct (claim_of_ttl user (hostname w) (pid w) c task0 Hparse)
      as (task & Hclaim & Httl & Heta & _).
    pose proof (_QueueQueryAndOwn_cell_run limit user c st w task Hclaim)
      as Hrun.
    unfold ttl_expired, retransmitted, ttl_expired in Hrun.
    rewrite Httl in Hrun.
    destruct (rdf_flows.task_ttl task0 - 1 <=? 0) eqn:Hexpired.
    + eexists task, _, _, _. split; [exact Hrun|].
      split; [exact Httl|]. split; [exact Heta|]. cbn [MutationPool.tasks
        MutationPool.delete_attrs].
      rewrite !GetCounter_IncrementCounter. by repeat split.
    + cbn [negb andb] in Hrun.
      eexists task, _, _, _. split; [exact Hrun|].
      split; [exact Httl|]. split; [exact Heta|]. cbn [MutationPool.tasks
        MutationPool.delete_attrs].
      destruct (rdf_flows.task_ttl task0 - 1 =? GrrMessage_max_ttl - 1);
        cbn [negb]; rewrite ?GetCounter_IncrementCounter; simpl;
        repeat split; lia.
  - intros subject lease_seconds limit user timestamp w w1 cells upper
      Hcells Hparse.
    pose proof (ResolvePrefix_frame subject "task:" (TimestampRange 0 upper)
                  None (token (pool w)) w) as Hframe0.
    rewrite Hcells in Hframe0. cbv zeta in Hframe0. cbn [fst snd] in Hframe0.
    destruct Hframe0 as (_ & Hpool1 & Hcounters1 & _).
    assert (Henv : hostname w1 = hostname w ∧ pid w1 = pid w ∧ now w1 = now w).
    { rewrite ResolvePrefix_run in Hcells.
      unfold DataStore.MultiResolvePrefix in Hcells.
      rewrite bind_run in Hcells. unfold called, modify_world, backend in Hcells.
      simpl in Hcells.
      destruct (abstract_MultiResolvePrefix _ _ _ _ _ _) as [[e|a] s];
        simpl in Hcells; [discriminate|].
      injection Hcells as _ <-. by repeat split. }
    destruct Henv as (Hhost1 & Hpid1 & Hnow1).
    destruct (_QueueQueryAndOwn_loop_run limit user cells
                {| MutationPool.tasks := []; MutationPool.delete_attrs := ∅;
                   MutationPool.serialized_tasks_dict := ∅ |} w1 Hparse)
      as (visited & rest & claims & st' & w2 & Hsplit & Hrest & Hclaims
          & Hrun & Htasks & Hdel & Hexp & Hret & Hstore2 & Hcalls2 & Hpool2
          & Hhost2 & Hpid2 & Hnow2 & Hlogged2).
    cbn [MutationPool.tasks MutationPool.delete_attrs] in Htasks, Hdel.
    rewrite app_nil_l in Htasks. rewrite union_empty_l_L in Hdel.
    rewrite Hhost1, Hpid1 in Hclaims.
    exists visited, rest, claims, (MutationPool.serialized_tasks_dict st').
    exists (MutationPool._QueueQueryAndOwn subject lease_seconds limit user
              timestamp w).2.
    split; [exact Hsplit|]. split; [exact Hclaims|].
    cbv zeta. rewrite <- Htasks, <- Hdel.
    split; [exact Hrest|].
    unfold GetCounter in Hexp, Hret. rewrite Hcounters1 in Hexp, Hret.
    fold (GetCounter "grr_task_ttl_expired_count" w) in Hexp.
    fold (GetCounter "grr_task_retransmission_count" w) in Hret.
    assert (Hfinal :
      MutationPool._QueueQueryAndOwn subject lease_seconds limit user
        timestamp w
      = ((if negb (bool_decide (MutationPool.delete_attrs st' = ∅))
             || negb (bool_decide
                        (MutationPool.serialized_tasks_dict st' = ∅))
          then
            w ← get_world;
            MutationPool.MultiSet subject
              (MutationPool.serialized_tasks_dict st')
              (Some (now w + lease_seconds * 1000000)) true
              (Some (MutationPool.delete_attrs st'))
          else mret tt);;
         (if negb (bool_decide (MutationPool.delete_attrs st' = ∅))
          then
            logging INFO
              ("TTL exceeded for "
               +:+ format_int 10 0
                     (Z.of_nat (size (MutationPool.delete_attrs st')))
               +:+ " messages on queue " +:+ subject)
          else mret tt);;
         mret (MutationPool.tasks st')) w2).
    { unfold MutationPool._QueueQueryAndOwn.
      rewrite bind_run. unfold get_pool at 1. cbv iota beta.
      rewrite bind_run. unfold get_world at 1. cbv iota beta.
      fold upper. unfold DataStore.QUEUE_TASK_PREDICATE_PREFIX.
      rewrite bind_run, Hcells. rewrite bind_run, Hrun.
      reflexivity. }
    rewrite Hfinal.
    destruct (bool_decide (MutationPool.delete_attrs st' = ∅)) eqn:Hd,
             (bool_decide (MutationPool.serialized_tasks_dict st' = ∅)) eqn:Hv;
      cbn [negb orb andb]; (split; [reflexivity|]);
      unfold GetCounter in *; simpl;
      rewrite ?Hpool2, ?Hpool1, ?Hnow2, ?Hnow1, ?app_nil_r;
      repeat split; assumption.
Qed.

End ClaimFacts.

(** ** Buffering in the pool *)

Section PoolExtras.
Context {Store : Type} `{!Backend Store} `{!Codec}.
Local Abbreviation M := (Python Store).

Lemma run_op_run (op : pool_op) (w : World Store) :
  run_op op w = (Return tt, set_pool (pool_after [op] (pool w)) w).
Proof.
  destruct op; cbn; unfold pool_after; cbn; rewrite ?app_nil_r; reflexivity.
Qed.

Lemma pool_after_cons op ops self :
  pool_after (op :: ops) self = pool_after ops (pool_after [op] self).
Proof.
  unfold pool_after. cbn. rewrite ?app_nil_r, <- !app_assoc. reflexivity.
Qed.

Lemma run_ops_run (ops : list pool_op) (w : World Store) :
  for_each ops run_op w = (Return tt, set_pool (pool_after ops (pool w)) w).
Proof.
  revert w. induction ops as [|op ops IH]; intros w.
  - cbn. unfold pool_after. cbn. rewrite !app_nil_r.
    by destruct w as [? ? ? ? ? ? ? ? []].
  - cbn [for_each]. rewrite bind_run, run_op_run, IH.
    f_equal. cbn. by rewrite <- pool_after_cons.
Qed.

(** A loop of buffering calls is the list of the calls. *)
Lemma for_each_run_op {A} (f : A → pool_op) (l : list A) (w : World Store) :
  for_each l (λ x, run_op (f x)) w
  = (Return tt, set_pool (pool_after (map f l) (pool w)) w).
Proof.
  rewrite <- run_ops_run. revert w.
  induction l as [|x l IH]; intros w; [reflexivity|].
  cbn [for_each map]. apply bind_ext; [reflexivity|]. intros [] w1. apply IH.
Qed.

Lemma flat_map_map {A B C} (f : A → B) (g : B → list C) (l : list A) :
  flat_map g (map f l) = flat_map (λ x, g (f x)) l.
Proof. induction l as [|x l IH]; simpl; congruence. Qed.

Lemma Size_pool_after ops self :
  MutationPool.Size (pool_after ops self)
  = MutationPool.Size self
    + Z.of_nat (length (flat_map subjects_of ops))
    + Z.of_nat (length (flat_map sets_of ops))
    + Z.of_nat (length (flat_map attribute_deletions_of ops)).
Proof. unfold MutationPool.Size, pool_after. cbn. rewrite !length_app. lia. Qed.

(** X1. Whatever buffering methods are called on a pool, in whatever
    order, they return, make no call on the data store and leave its state
    alone; each request joins the end of the buffer of its kind, and
    [Size()] grows by the number of subject deletions, sets and attribute
    deletions queued: notifications do not count. *)
Theorem pool_buffers_until_Flush (ops : list pool_op) (w : World Store) :
  let run := for_each ops run_op w in
  run.1 = Return tt ∧
  store run.2 = store w ∧ calls run.2 = calls w ∧
  counters run.2 = counters w ∧
  pool run.2 = pool_after ops (pool w) ∧
  MutationPool.Size (pool run.2)
  = MutationPool.Size (pool w)
    + Z.of_nat (length (flat_map subjects_of ops))
    + Z.of_nat (length (flat_map sets_of ops))
    + Z.of_nat (length (flat_map attribute_deletions_of ops)).
Proof.
  cbv zeta. rewrite run_ops_run. cbn. repeat split. apply Size_pool_after.
Qed.

(** X2. A pool that starts empty and is flushed after a list of buffering
    calls sends all the subject deletions first, then the attribute
    deletions, then the sets, each kind in the order of the calls: a set
    queued before the deletion of its subject is written after the
    deletion. *)
Theorem Flush_after_buffering (token : option ACLToken) (ops : list pool_op)
  (w : World Store) :
  pool w = MutationPool.__init__ token →
  let run := (for_each ops run_op;; MutationPool.Flush) w in
  let expected :=
    (CallDeleteSubjects (flat_map subjects_of ops) false token
     :: map (λ subject, CallDeleteSubject subject false token)
          (flat_map subjects_of ops))
    ++ map (λ req : delete_attributes_request,
              let '(subject, attributes, start, end_) := req in
              CallDeleteAttributes subject attributes start end_ false token)
         (flat_map attribute_deletions_of ops)
    ++ map (λ req : set_request,
              let '(subject, values, timestamp, replace, to_delete) := req in
              CallMultiSet subject values timestamp replace to_delete false
                token)
         (flat_map sets_of ops)
    ++ (if MutationPool.nonempty (flat_map subjects_of ops)
           || MutationPool.nonempty (flat_map attribute_deletions_of ops)
           || MutationPool.nonempty (flat_map sets_of ops)
        then [CallFlush] else [])
    ++ flat_map (λ batch : string * list rdf_flows.GrrNotification,
                   let '(queue, notifications) := batch in
                   [CallCreateNotifications queue notifications token;
                    CallMultiSet queue
                      (DataStore.notification_values notifications) None false
                      None true token])
         (flat_map notifications_of ops) in
  ∃ issued,
    calls run.2 = calls w ++ issued ∧
    issued `prefix_of` expected ∧
    (run.1 = Return tt → issued = expected ∧
                         pool run.2 = MutationPool.__init__ token) ∧
    ((perform expected w).1 = Return tt → run.1 = Return tt) ∧
    run.1 ≠ OutOfFuel.
Proof.
  intros Hpool run expected.
  set (w1 := set_pool (pool_after ops (pool w)) w).
  assert (Hrun : run = MutationPool.Flush w1).
  { unfold run. by rewrite bind_run, run_ops_run. }
  assert (Hcalls : Flush_calls (pool w1) = expected).
  { unfold w1. cbn [pool set_pool]. rewrite Hpool.
    unfold Flush_calls, pool_after, MutationPool.__init__. cbn. reflexivity. }
  assert (Hsame : same_db w1 w) by by split.
  destruct (perform_same_db expected w1 w Hsame) as [Hresult _].
  destruct (perform_spec expected w1)
    as (issued & Hpre & Hissued & Hall & Hfuel & _).
  exists issued. rewrite Hrun, pool_Flush_run, Hcalls.
  rewrite <- Hresult.
  destruct (perform expected w1) as [[[]|e|] w2]; cbn in *.
  - split; [exact Hissued|]. split; [exact Hpre|].
    split; [|done]. intros _. split; [by apply Hall|].
    by rewrite Hpool.
  - split; [exact Hissued|]. split; [exact Hpre|]. by repeat split.
  - done.
Qed.

(** X3. A pool whose [Size()] is 0 may still hold notifications: flushing
    it writes every notification batch with [sync=True], calls
    [DeleteSubjects] on an empty list, which reaches no subject, and never
    calls the data store's [Flush]; with no notification queued either, the
    flush returns and the store is as it was. *)
Theorem Flush_of_Size_zero (w : World Store) :
  MutationPool.Size (pool w) = 0 →
  let run := MutationPool.Flush w in
  let expected :=
    CallDeleteSubjects [] false (token (pool w))
    :: flat_map (λ batch : string * list rdf_flows.GrrNotification,
                   let '(queue, notifications) := batch in
                   [CallCreateNotifications queue notifications
                      (token (pool w));
                    CallMultiSet queue
                      (DataStore.notification_values notifications) None false
                      None true (token (pool w))])
         (new_notifications (pool w)) in
  (∃ issued,
     calls run.2 = calls w ++ issued ∧ issued `prefix_of` expected ∧
     (run.1 = Return tt → issued = expected) ∧ CallFlush ∉ issued) ∧
  (new_notifications (pool w) = [] →
   run.1 = Return tt ∧ store run.2 = store w ∧
   calls run.2 = calls w ++ [CallDeleteSubjects [] false (token (pool w))]).
Proof.
  intros Hsize run expected.
  assert (Hempty : delete_subject_requests (pool w) = [] ∧
                   set_requests (pool w) = [] ∧
                   delete_attributes_requests (pool w) = []).
  { unfold MutationPool.Size in Hsize.
    destruct (delete_subject_requests (pool w)),
             (set_requests (pool w)),
             (delete_attributes_requests (pool w)); cbn in Hsize;
      try lia. done. }
  destruct Hempty as (Hd & Hs & Ha).
  assert (Hcalls : Flush_calls (pool w) = expected).
  { unfold Flush_calls, expected. rewrite Hd, Hs, Ha. reflexivity. }
  split.
  - destruct (perform_spec expected w)
      as (issued & Hpre & Hissued & Hall & Hfuel & _).
    exists issued. unfold run. rewrite pool_Flush_run, Hcalls.
    assert (Hno : CallFlush ∉ issued).
    { intros Hin. destruct Hpre as [tail Htail].
      assert (Hin' : CallFlush ∈ expected)
        by (rewrite Htail, elem_of_app; by left).
      unfold expected in Hin'. apply elem_of_cons in Hin' as [?|Hin'];
        [discriminate|].
      apply list_elem_of_In, in_flat_map in Hin'
        as ([queue notifications] & _ & Hin').
      cbn in Hin'. intuition discriminate. }
    destruct (perform expected w) as [[[]|e|] w2]; cbn in *;
      repeat split; auto; done.
  - intros Hn. unfold run. rewrite pool_Flush_run, Hcalls.
    unfold expected. rewrite Hn. cbn. by repeat split.
Qed.

End PoolExtras.

(** ** Numbers in column names and URNs *)

Lemma hex_value_inv (c : ascii) (d : Z) :
  hex_value c = Some d → 0 ≤ d < 16 ∧ c = digit_char d.
Proof.
  unfold hex_value, digit_chars. cbn [place_of].
  repeat match goal with
         | |- context [Ascii.eqb c ?x] =>
             destruct (Ascii.eqb_spec c x) as [->|_];
             [intros [= <-]; split; [lia|reflexivity]|]
         end.
  discriminate.
Qed.

Lemma digit_char_compare (x y : Z) :
  0 ≤ x < 16 → 0 ≤ y < 16 →
  Ascii.compare (digit_char x) (digit_char y) = (x ?= y).
Proof.
  intros Hx Hy.
  assert (Hcx : x = 0 ∨ x = 1 ∨ x = 2 ∨ x = 3 ∨ x = 4 ∨ x = 5 ∨ x = 6 ∨
                x = 7 ∨ x = 8 ∨ x = 9 ∨ x = 10 ∨ x = 11 ∨ x = 12 ∨
                x = 13 ∨ x = 14 ∨ x = 15) by lia.
  assert (Hcy : y = 0 ∨ y = 1 ∨ y = 2 ∨ y = 3 ∨ y = 4 ∨ y = 5 ∨ y = 6 ∨
                y = 7 ∨ y = 8 ∨ y = 9 ∨ y = 10 ∨ y = 11 ∨ y = 12 ∨
                y = 13 ∨ y = 14 ∨ y = 15) by lia.
  clear Hx Hy.
  repeat destruct Hcx as [->|Hcx]; try subst x;
    repeat destruct Hcy as [->|Hcy]; try subst y; reflexivity.
Qed.

Lemma int16_from_read_digits (acc : Z) (s : string) :
  int16_from acc s = read_digits 16 acc s.
Proof.
  revert acc. induction s as [|c s IH]; intros acc; [reflexivity|].
  cbn [int16_from read_digits].
  destruct (hex_value c) as [d|] eqn:Hc; [|reflexivity].
  apply hex_value_inv in Hc as [Hd _].
  destruct (d <? 16) eqn:Hlt; [apply IH|lia].
Qed.

(** The digits of a number in a base read back as the number. *)
Lemma digits_onto_read (base : Z) (fuel : nat) (n : Z) (acc : string) :
  2 ≤ base ≤ 16 → 0 ≤ n < 2 ^ Z.of_nat fuel →
  read_digits base 0 (digits_onto base fuel n acc) = read_digits base n acc.
Proof.
  intros Hbase. revert n acc. induction fuel as [|fuel IH]; intros n acc Hn.
  - simpl in *. f_equal. lia.
  - cbn [digits_onto].
    assert (Hd : 0 ≤ n mod base < base) by (apply Z.mod_pos_bound; lia).
    assert (Hstep :
      read_digits base (n / base) (String (digit_char (n mod base)) acc)
      = read_digits base n acc).
    { cbn [read_digits]. rewrite hex_value_digit_char by lia.
      destruct (n mod base <? base) eqn:Hlt; [|lia].
      f_equal. pose proof (Z.div_mod n base ltac:(lia)). lia. }
    destruct (n / base =? 0) eqn:Hq.
    + apply Z.eqb_eq in Hq. rewrite <- Hstep, Hq. reflexivity.
    + rewrite IH; [exact Hstep|].
      split; [apply Z.div_pos; lia|].
      apply Z.div_lt_upper_bound; [lia|].
      replace (Z.of_nat (S fuel)) with (Z.succ (Z.of_nat fuel)) in Hn by lia.
      rewrite Z.pow_succ_r in Hn by lia. nia.
Qed.

Lemma zeros_read_digits (base : Z) (k : nat) (s : string) :
  0 < base → read_digits base 0 (zeros k +:+ s) = read_digits base 0 s.
Proof.
  intros Hbase. induction k as [|k IH]; [reflexivity|].
  change (zeros (S k) +:+ s) with (String "0" (zeros k +:+ s)).
  cbn [read_digits]. change (hex_value "0") with (Some 0). cbn beta iota.
  destruct (0 <? base) eqn:Hlt; [|lia].
  replace (base * 0 + 0) with 0 by lia. exact IH.
Qed.

Lemma format_int_read (base : Z) (width : nat) (n : Z) :
  2 ≤ base ≤ 16 → 0 ≤ n →
  read_digits base 0 (format_int base width n) = Some n.
Proof.
  intros Hbase Hn. unfold format_int.
  destruct (n <? 0) eqn:Hneg; [lia|].
  unfold zero_pad. rewrite zeros_read_digits by lia.
  unfold number_digits. rewrite digits_onto_read; [reflexivity|lia|].
  split; [done|].
  destruct (decide (n = 0)) as [->|Hne]; [done|].
  replace (Z.of_nat (S (Z.to_nat (Z.log2 n)))) with (Z.succ (Z.log2 n)).
  - apply Z.log2_spec. lia.
  - pose proof (Z.log2_nonneg n). lia.
Qed.

Lemma digits_onto_grows (base : Z) (fuel : nat) (n : Z) (acc : string) :
  (String.length acc ≤ String.length (digits_onto base fuel n acc))%nat.
Proof.
  revert n acc. induction fuel as [|fuel IH]; intros n acc; simpl; [lia|].
  destruct (n / base =? 0); simpl; [lia|].
  etransitivity; [|apply IH]. simpl. lia.
Qed.

Lemma format_int_nonempty (base : Z) (width : nat) (n : Z) :
  (1 ≤ String.length (format_int base width n))%nat.
Proof.
  unfold format_int. destruct (n <? 0); [simpl; lia|].
  unfold zero_pad. rewrite string_length_app.
  unfold number_digits. cbn [digits_onto].
  destruct (n / base =? 0); simpl; [lia|].
  match goal with
  | |- (_ ≤ _ + String.length (digits_onto ?b ?f ?q ?acc))%nat =>
      pose proof (digits_onto_grows b f q acc) as Hgrow
  end.
  simpl in Hgrow. lia.
Qed.

(** ["%0<width>x" % n] reads back as [n] whatever the width. *)
Lemma format_int_int16 (width : nat) (n : Z) :
  0 ≤ n → int16 (format_int 16 width n) = Some n.
Proof.
  intros Hn. unfold int16.
  pose proof (format_int_nonempty 16 width n) as Hlen.
  pose proof (format_int_read 16 width n ltac:(lia) Hn) as Hread.
  destruct (format_int 16 width n) as [|c s]; [simpl in Hlen; lia|].
  by rewrite int16_from_read_digits.
Qed.

Lemma read_digits_None (base : Z) (s : string) (a b : Z) :
  read_digits base a s = None → read_digits base b s = None.
Proof.
  revert a b. induction s as [|c s IH]; intros a b; cbn [read_digits].
  - discriminate.
  - destruct (hex_value c) as [d|]; [|done].
    destruct (d <? base); [apply IH|done].
Qed.

(** What a string of digits reads as lies below the power of the base for
    its length, and a start value shifts it by that power. *)
Lemma read_digits_bound (base : Z) (s : string) (acc r : Z) :
  2 ≤ base → read_digits base acc s = Some r →
  ∃ v, read_digits base 0 s = Some v ∧
       0 ≤ v < base ^ Z.of_nat (String.length s) ∧
       r = acc * base ^ Z.of_nat (String.length s) + v.
Proof.
  intros Hbase. revert acc r.
  induction s as [|c s IH]; intros acc r Hread.
  - cbn in *. injection Hread as <-. exists 0. split; [done|]. lia.
  - cbn [read_digits] in *.
    destruct (hex_value c) as [d|] eqn:Hc; [|discriminate].
    apply hex_value_inv in Hc as [Hd _].
    destruct (d <? base) eqn:Hlt; [|discriminate].
    apply Z.ltb_lt in Hlt.
    destruct (IH _ _ Hread) as (v & Hv & Hbound & ->).
    destruct (read_digits base (base * 0 + d) s) as [r0|] eqn:Hr0.
    + destruct (IH _ _ Hr0) as (v0 & Hv0 & _ & ->).
      assert (v0 = v) as -> by congruence.
      exists ((base * 0 + d) * base ^ Z.of_nat (String.length s) + v).
      split; [done|].
      cbn [String.length].
      replace (Z.of_nat (S (String.length s)))
        with (Z.succ (Z.of_nat (String.length s))) by lia.
      rewrite Z.pow_succ_r by lia.
      set (P := base ^ Z.of_nat (String.length s)) in *.
      split; [nia|]. ring.
    + rewrite (read_digits_None _ _ _ 0 Hr0) in Hv. discriminate.
Qed.

(** Strings of digits of one length compare as the numbers they stand
    for. *)
Lemma digits_compare (base : Z) (s t : string) (a b : Z) :
  2 ≤ base → String.length s = String.length t →
  read_digits base 0 s = Some a → read_digits base 0 t = Some b →
  String.compare s t = (a ?= b).
Proof.
  intros Hbase. revert t a b.
  induction s as [|c s IH]; intros [|c' t] a b Hlen Ha Hb;
    try discriminate Hlen.
  - cbn in *. injection Ha as <-. injection Hb as <-. reflexivity.
  - injection Hlen as Hlen. cbn [read_digits] in Ha, Hb.
    destruct (hex_value c) as [x|] eqn:Hc; [|discriminate].
    destruct (hex_value c') as [y|] eqn:Hc'; [|discriminate].
    apply hex_value_inv in Hc as [Hx ->].
    apply hex_value_inv in Hc' as [Hy ->].
    destruct (x <? base); [|discriminate].
    destruct (y <? base); [|discriminate].
    destruct (read_digits_bound _ _ _ _ Hbase Ha) as (v & Hv & Hvb & ->).
    destruct (read_digits_bound _ _ _ _ Hbase Hb) as (v' & Hv' & Hvb' & ->).
    cbn [String.compare]. rewrite digit_char_compare by done.
    rewrite <- Hlen in *.
    set (P := base ^ Z.of_nat (String.length s)) in *.
    destruct (Z.compare_spec x y) as [->|Hxy|Hxy].
    + rewrite (IH t v v' Hlen Hv Hv').
      symmetry. destruct (Z.compare_spec v v') as [->|?|?].
      * apply Z.compare_eq_iff. lia.
      * apply Z.compare_lt_iff. lia.
      * apply Z.compare_gt_iff. lia.
    + symmetry. apply Z.compare_lt_iff. nia.
    + symmetry. apply Z.compare_gt_iff. nia.
Qed.

Lemma append_cons (c : ascii) (p a : string) :
  String c p +:+ a = String c (p +:+ a).
Proof. reflexivity. Qed.

Lemma compare_app_prefix (p a b : string) :
  String.compare (p +:+ a) (p +:+ b) = String.compare a b.
Proof.
  induction p as [|c p IH]; [reflexivity|].
  rewrite !append_cons. cbn [String.compare].
  rewrite ascii_compare_N, N.compare_refl. exact IH.
Qed.

Lemma compare_app_same_length (a1 a2 r1 r2 : string) :
  String.length a1 = String.length a2 →
  String.compare (a1 +:+ r1) (a2 +:+ r2)
  = match String.compare a1 a2 with
    | Eq => String.compare r1 r2
    | other => other
    end.
Proof.
  revert a2. induction a1 as [|c a1 IH]; intros [|c' a2] Hlen;
    try discriminate Hlen; [reflexivity|].
  injection Hlen as Hlen. rewrite !append_cons. cbn [String.compare].
  destruct (Ascii.compare c c'); auto.
Qed.

Lemma string_last_app (n : nat) (a b : string) :
  String.length b = n → string_last n (a +:+ b) = b.
Proof.
  intros <-. unfold string_last. rewrite string_length_app.
  replace (String.length a + String.length b - String.length b)%nat
    with (String.length a) by lia.
  apply string_drop_app.
Qed.

Lemma string_app_assoc (a b c : string) : (a +:+ b) +:+ c = a +:+ (b +:+ c).
Proof.
  induction a as [|x a IH]; [reflexivity|]. rewrite !append_cons. by f_equal.
Qed.

Section UrnExtras.
Context {Store : Type} `{!Backend Store} `{!ScanBackend Store} `{!Codec}
  `{!DatetimeCodec}.
Local Abbreviation M := (Python Store).

(** X4. Task ids that are not negative have different column names:
    [QueueTaskIdToColumn] writes the id in decimal after ["task:"], in eight
    digits or more, and the id can be read back from the column. *)
Theorem QueueTaskIdToColumn_injective (a b : Z) :
  0 ≤ a → 0 ≤ b →
  StoreMethods.QueueTaskIdToColumn a = StoreMethods.QueueTaskIdToColumn b →
  a = b.
Proof.
  intros Ha Hb Heq.
  unfold StoreMethods.QueueTaskIdToColumn,
    StoreMethods.QUEUE_TASK_PREDICATE_TEMPLATE in Heq.
  apply string_app_inj in Heq.
  pose proof (format_int_read 10 8 a ltac:(lia) Ha) as Hra.
  pose proof (format_int_read 10 8 b ltac:(lia) Hb) as Hrb.
  rewrite Heq in Hra. congruence.
Qed.

(** The last segment of a collection URN, ["%016x.%06x" % (timestamp,
    suffix)], compares as the pair does. *)
Lemma urn_segment_compare (ts1 ts2 s1 s2 : Z) :
  0 ≤ ts1 < 2 ^ 64 → 0 ≤ ts2 < 2 ^ 64 →
  0 ≤ s1 ≤ 0xffffff → 0 ≤ s2 ≤ 0xffffff →
  String.compare
    (format_int 16 16 ts1 +:+ "." +:+ format_int 16 6 s1)
    (format_int 16 16 ts2 +:+ "." +:+ format_int 16 6 s2)
  = compare_pair (ts1, s1) (ts2, s2).
Proof.
  intros Hts1 Hts2 Hs1 Hs2.
  destruct (format_int_hex 16 ts1 ltac:(lia) ltac:(simpl; lia)) as [Hl1 _].
  destruct (format_int_hex 16 ts2 ltac:(lia) ltac:(simpl; lia)) as [Hl2 _].
  destruct (format_int_hex 6 s1 ltac:(lia) ltac:(simpl; lia)) as [Hl3 _].
  destruct (format_int_hex 6 s2 ltac:(lia) ltac:(simpl; lia)) as [Hl4 _].
  rewrite compare_app_same_length by congruence.
  rewrite (compare_app_prefix "." _ _).
  rewrite (digits_compare 16 _ _ ts1 ts2); try lia; try congruence;
    try (apply format_int_read; lia).
  rewrite (digits_compare 16 _ _ s1 s2); try lia; try congruence;
    try (apply format_int_read; lia).
  reflexivity.
Qed.

(** X5. The URNs that [CollectionMakeURN] makes for one collection and
    subpath are ordered, as strings, like the pairs (timestamp, suffix): a
    scan in the order of the subjects goes through the items by time, and
    two different pairs never share a URN. *)
Theorem CollectionMakeURN_order_preserving (draw1 draw2 : Z) (urn : string)
  (subpath : option string) (ts1 ts2 s1 s2 : Z) :
  0 ≤ ts1 < 2 ^ 64 → 0 ≤ ts2 < 2 ^ 64 →
  0 ≤ s1 ≤ 0xffffff → 0 ≤ s2 ≤ 0xffffff →
  String.compare
    (DataStore.CollectionMakeURN draw1 urn ts1 (Some s1) subpath).1.1
    (DataStore.CollectionMakeURN draw2 urn ts2 (Some s2) subpath).1.1
  = compare_pair (ts1, s1) (ts2, s2).
Proof.
  intros Hts1 Hts2 Hs1 Hs2.
  unfold DataStore.CollectionMakeURN, DataStore.RDFURN_Add. cbn [fst].
  rewrite !compare_app_prefix.
  by apply urn_segment_compare.
Qed.

Lemma CollectionMakeURN_suffix_read (draw : Z) (urn : string) (timestamp : Z)
  (suffix : option Z) (subpath : option string) :
  (∀ s, suffix = Some s → 0 ≤ s ≤ 0xffffff) →
  int16 (string_last 6
           (DataStore.CollectionMakeURN draw urn timestamp suffix subpath).1.1)
  = Some (DataStore.CollectionMakeURN draw urn timestamp suffix subpath).2.
Proof.
  intros Hsuffix.
  unfold DataStore.CollectionMakeURN, DataStore.RDFURN_Add. cbn [fst snd].
  set (chosen :=
    match suffix with
    | None => DataStore.randint 1 DataStore.COLLECTION_MAX_SUFFIX draw
    | Some s => s
    end).
  assert (Hchosen : 0 ≤ chosen ≤ 0xffffff).
  { unfold chosen. destruct suffix as [s|]; [by apply Hsuffix|].
    pose proof (randint_range 1 DataStore.COLLECTION_MAX_SUFFIX draw
                  ltac:(done)) as Hr.
    unfold DataStore.COLLECTION_MAX_SUFFIX in *. lia. }
  destruct (format_int_hex 6 chosen ltac:(lia) ltac:(simpl; lia))
    as [Hlen Hval].
  rewrite <- !string_app_assoc.
  rewrite string_last_app by exact Hlen. exact Hval.
Qed.

(** X6. Items written with [CollectionAddItem] come back from
    [CollectionScanItems]: when the rows scanned hold, under the URN that
    [CollectionAddItem] returned, the serialized item at its timestamp,
    and the items can be read back from their serialized form, the loop
    yields each item with its age set to the timestamp, the timestamp and
    the suffix that [CollectionAddItem] returned, the suffix read from the
    last six characters of the URN. *)
Theorem CollectionScanItems_reads_added_items {I} (rdf_type : RDFType I)
  (collection_id : string)
  (added : list (Z * I * Z * option Z)) (w : World Store) :
  Forall (λ a : Z * I * Z * option Z,
            item_FromSerializedString rdf_type
              (item_SerializeToString rdf_type a.1.1.2) = Some a.1.1.2 ∧
            ∀ s, a.2 = Some s → 0 ≤ s ≤ 0xffffff) added →
  let made (a : Z * I * Z * option Z) :=
    DataStore.CollectionMakeURN a.1.1.1 collection_id a.1.2 a.2 None in
  (∀ a replace (w0 : World Store),
     (PoolMethods.CollectionAddItem a.1.1.1 collection_id rdf_type a.1.1.2
        a.1.2 a.2 replace w0).1 = Return (made a)) ∧
  StoreMethods.CollectionScanItems_loop rdf_type
    (map (λ a, ((made a).1.1,
                {[StoreMethods.COLLECTION_ATTRIBUTE :=
                    (a.1.2, item_SerializeToString rdf_type a.1.1.2)]} :
                  gmap string (Z * string)))
       added) w
  = (Return (map (λ a, (set_age rdf_type a.1.2 a.1.1.2, (made a).1.2,
                        (made a).2))
               added), w).
Proof.
  intros Hadded made. subst made. split; [reflexivity|].
  induction Hadded as [|[[[draw item] ts] suffix] added [Hround Hs] _ IH];
    [reflexivity|].
  cbn [map StoreMethods.CollectionScanItems_loop]. cbn [fst snd] in *.
  unfold StoreMethods.ScanAttribute_next at 1.
  cbn [fst snd]. rewrite lookup_singleton_eq.
  rewrite bind_run. cbn [M_ret mret fst snd].
  unfold mret, M_ret at 1. cbn beta iota.
  rewrite Hround.
  rewrite bind_run. unfold StoreMethods.int_16.
  rewrite (CollectionMakeURN_suffix_read draw collection_id ts suffix None Hs).
  unfold mret, M_ret at 1. cbn beta iota.
  rewrite bind_run, IH. reflexivity.
Qed.

(** X7. An index entry written with [CollectionAddIndex] comes back from
    [CollectionReadIndex]: the pool queues a replacing [Set] of the cell
    [index_cell] at the timestamp, and the loop of [CollectionReadIndex]
    over such cells yields the entries (index, timestamp, suffix) again,
    for every index and suffix that are not negative. *)
Theorem CollectionReadIndex_reads_added_index (collection_id : string)
  (entries : list (Z * Z * Z)) (w w' : World Store) :
  Forall (λ e : Z * Z * Z, 0 ≤ e.1.1 ∧ 0 ≤ e.2) entries →
  let run :=
    for_each entries
      (λ e, PoolMethods.CollectionAddIndex collection_id e.1.1 e.1.2 e.2) w in
  run.1 = Return tt ∧
  set_requests (pool run.2)
  = set_requests (pool w)
    ++ map (λ e, let c := index_cell e in
                 (collection_id, {[c.1.1 := [(c.1.2, None)]]}, Some c.2, true,
                  None))
         entries ∧
  StoreMethods.CollectionReadIndex_loop (map index_cell entries) w'
  = (Return entries, w').
Proof.
  intros Hentries run.
  assert (Hrun : run =
    (Return tt,
     set_pool
       (pool_after
          (map (λ e : Z * Z * Z,
                  OpSet collection_id (index_cell e).1.1 (index_cell e).1.2
                    (Some (index_cell e).2) true)
             entries)
          (pool w)) w)).
  { subst run. rewrite <- for_each_run_op. revert w. clear.
    induction entries as [|[[index ts] suffix] entries IH]; intros w;
      [reflexivity|].
    cbn [for_each]. apply bind_ext; [reflexivity|]. intros [] w1. apply IH. }
  rewrite Hrun. split; [reflexivity|]. split.
  { cbn [snd pool set_pool pool_after set_requests]. f_equal.
    rewrite flat_map_map. cbn [sets_of]. apply flat_map_singleton. }
  clear Hrun run.
  induction Hentries as [|[[index ts] suffix] entries [Hi Hs] _ IH];
    [reflexivity|].
    cbn [map index_cell StoreMethods.CollectionReadIndex_loop].
    cbn [fst snd] in Hi, Hs.
    rewrite bind_run. unfold StoreMethods.int_16 at 1.
    rewrite string_drop_app, (format_int_int16 8 index Hi).
    unfold mret, M_ret at 1. cbn beta iota.
    rewrite bind_run. unfold StoreMethods.int_16 at 1.
    rewrite (format_int_int16 6 suffix Hs).
    unfold mret, M_ret at 1. cbn beta iota.
    rewrite bind_run, IH. reflexivity.
Qed.

(** X8. Where [CollectionScanItems] starts. Without [after_timestamp], or
    with 0, the scan has no [after_urn] and starts at the first item.
    Otherwise [after_urn] is the URN of ([after_timestamp], suffix), and a
    missing suffix or the suffix 0 stands for the largest one: the items
    whose URN comes after [after_urn] are those of a later timestamp, and
    those of the same timestamp and a larger suffix. After (t, 0) no item
    of timestamp t is left. *)
Theorem CollectionScanItems_after_urn_bounds (collection_id : string)
  (after_timestamp after_suffix : option Z) :
  ((after_timestamp = None ∨ after_timestamp = Some 0) →
   StoreMethods.CollectionScanItems_after_urn collection_id after_timestamp
     after_suffix = None) ∧
  (∀ t, after_timestamp = Some t → 0 < t < 2 ^ 64 →
        0 ≤ effective_suffix after_suffix ≤ 0xffffff →
   ∃ after_urn,
     StoreMethods.CollectionScanItems_after_urn collection_id after_timestamp
       after_suffix = Some after_urn ∧
     ∀ draw ts suffix,
       0 ≤ ts < 2 ^ 64 → 0 ≤ suffix ≤ 0xffffff →
       String.compare after_urn
         (DataStore.CollectionMakeURN draw collection_id ts (Some suffix)
            None).1.1
       = compare_pair (t, effective_suffix after_suffix) (ts, suffix)).
Proof.
  split.
  - intros [->| ->]; reflexivity.
  - intros t -> Ht Hs.
    unfold StoreMethods.CollectionScanItems_after_urn.
    destruct (t =? 0) eqn:Hzero; [lia|].
    eexists. split; [reflexivity|].
    intros draw ts suffix Hts Hsuffix.
    change (match after_suffix with
            | Some s => if s =? 0 then DataStore.COLLECTION_MAX_SUFFIX else s
            | None => DataStore.COLLECTION_MAX_SUFFIX
            end) with (effective_suffix after_suffix).
    unfold DataStore.CollectionMakeURN, DataStore.RDFURN_Add. cbn [fst].
    rewrite !compare_app_prefix.
    apply urn_segment_compare; lia.
Qed.

End UrnExtras.

(** ** Notifications, keyword index and directory listings *)

Lemma StronglySorted_map_in {A B} (R1 : A → A → Prop) (R2 : B → B → Prop)
  (f : A → B) (P : A → Prop) (l : list A) :
  (∀ x y, P x → P y → R1 x y → R2 (f x) (f y)) →
  Forall P l → StronglySorted R1 l → StronglySorted R2 (map f l).
Proof.
  intros Himpl HP Hsorted.
  induction Hsorted as [|x l _ IH Hx]; [constructor|].
  apply Forall_cons in HP as [Hpx HP].
  cbn [map]. constructor; [by apply IH|].
  apply Forall_map. rewrite Forall_forall in Hx, HP |- *.
  intros y Hy. apply Himpl; auto.
Qed.

Lemma flat_map_nil {A B} (l : list A) : flat_map (λ _ : A, @nil B) l = [].
Proof. induction l; auto. Qed.

Lemma string_leb_app_prefix (p a b : string) :
  String.leb (p +:+ a) (p +:+ b) = String.leb a b.
Proof. unfold String.leb. by rewrite compare_app_prefix. Qed.

Section StoreExtras.
Context {Store : Type} `{!Backend Store} `{!ScanBackend Store} `{!Codec}.
Local Abbreviation M := (Python Store).

Lemma set_pool_same (w : World Store) : set_pool (pool w) w = w.
Proof. by destruct w. Qed.

Lemma set_pool_twice (p q : Pool) (w : World Store) :
  set_pool p (set_pool q w) = set_pool p w.
Proof. by destruct w. Qed.

(** The pool plays no part in the calls on the data store. *)
Lemma perform_set_pool (cs : list db_call) (p : Pool) (w : World Store) :
  perform cs (set_pool p w) = ((perform cs w).1, set_pool p (perform cs w).2).
Proof.
  revert w. induction cs as [|c cs IH]; intros w; [reflexivity|].
  rewrite !perform_cons.
  assert (Hstep : (called c;; exec_call c) (set_pool p w)
                  = (((called c;; exec_call c) w).1,
                     set_pool p ((called c;; exec_call c) w).2)).
  { destruct c; rewrite !bind_run; unfold called, modify_world; simpl;
      try rewrite !bind_run; unfold backend; simpl;
      try match goal with
          | |- context [match ?f (store w) with _ => _ end] =>
              destruct (f (store w)) as [[e|a] s]
          end; reflexivity. }
  remember (called c;; exec_call c) as step eqn:Hdef.
  rewrite !bind_run, Hstep.
  destruct (step w) as [[[]|e|] w1]; cbn [fst snd]; [apply IH|done|done].
Qed.

(** A [with] block on a new pool whose body only queues requests makes
    the calls of the flush of these requests, and gives the caller's pool
    back. *)
Lemma with_GetMutationPool_run {A} (token : option ACLToken) (f : A → pool_op)
  (l : list A) (w : World Store) :
  StoreMethods.with_GetMutationPool token (for_each l (λ x, run_op (f x))) w
  = perform
      (Flush_calls (pool_after (map f l) (MutationPool.__init__ token))) w.
Proof.
  unfold StoreMethods.with_GetMutationPool, MutationPool.with_.
  rewrite for_each_run_op. cbn [pool set_pool].
  rewrite set_pool_twice.
  set (queued := pool_after (map f l) (MutationPool.__init__ token)).
  unfold MutationPool.__exit__. rewrite bind_run, pool_Flush_run.
  cbn [pool set_pool]. rewrite perform_set_pool.
  destruct (perform_spec (Flush_calls queued) w)
    as (_ & _ & _ & _ & _ & Hpool & _).
  destruct (perform (Flush_calls queued) w) as [[[]|e|] w1];
    cbn [fst snd] in *.
  - cbn. rewrite !set_pool_twice, <- Hpool. by rewrite set_pool_same.
  - rewrite set_pool_twice, <- Hpool. by rewrite set_pool_same.
  - rewrite set_pool_twice, <- Hpool. by rewrite set_pool_same.
Qed.

Lemma keyword_set_spec (keywords : list string) :
  NoDup (StoreMethods.keyword_set keywords) ∧
  ∀ keyword,
    keyword ∈ StoreMethods.keyword_set keywords ↔ keyword ∈ keywords.
Proof.
  unfold StoreMethods.keyword_set. split; [apply NoDup_elements|].
  intros keyword. by rewrite elem_of_elements, elem_of_list_to_set.
Qed.

(** What [perform] guarantees about a run that is one. *)
Lemma performs_spec (run : result unit * World Store) (expected : list db_call)
  (w : World Store) :
  run = perform expected w →
  ∃ issued,
    calls run.2 = calls w ++ issued ∧ issued `prefix_of` expected ∧
    (run.1 = Return tt → issued = expected) ∧
    pool run.2 = pool w ∧ run.1 ≠ OutOfFuel.
Proof.
  intros ->.
  destruct (perform_spec expected w)
    as (issued & Hpre & Hcalls & Hall & Hfuel & Hpool & _).
  exists issued. repeat split; auto.
Qed.

Lemma notification_values_fold (notifications : list rdf_flows.GrrNotification)
  (acc : attribute_values) (session_id : string) :
  foldl (λ values notification,
           <[DataStore.NOTIFY_PREDICATE_TEMPLATE
               (rdf_flows.session_id notification) :=
               [(GrrNotification_SerializeToString notification,
                 Some (rdf_flows.timestamp notification))]]> values)
    acc notifications !! DataStore.NOTIFY_PREDICATE_TEMPLATE session_id
  = match last_for session_id notifications with
    | Some n =>
        Some [(GrrNotification_SerializeToString n,
               Some (rdf_flows.timestamp n))]
    | None => acc !! DataStore.NOTIFY_PREDICATE_TEMPLATE session_id
    end.
Proof.
  revert acc. induction notifications as [|n ns IH]; intros acc;
    [reflexivity|].
  cbn [foldl]. rewrite IH. unfold last_for. cbn [List.filter].
  destruct (String.eqb_spec (rdf_flows.session_id n) session_id) as [Heq|Hne].
  - rewrite last_cons.
    destruct (last (List.filter _ ns)); [reflexivity|].
    by rewrite Heq, lookup_insert_eq.
  - destruct (last (List.filter _ ns)); [reflexivity|].
    apply lookup_insert_ne. intros Heq. apply Hne.
    by apply string_app_inj in Heq.
Qed.

Lemma notification_values_keys (notifications : list rdf_flows.GrrNotification)
  (acc : attribute_values) (attribute : string) :
  is_Some
    (foldl (λ values notification,
              <[DataStore.NOTIFY_PREDICATE_TEMPLATE
                  (rdf_flows.session_id notification) :=
                  [(GrrNotification_SerializeToString notification,
                    Some (rdf_flows.timestamp notification))]]> values)
       acc notifications !! attribute) →
  is_Some (acc !! attribute) ∨
  ∃ n, n ∈ notifications ∧
       attribute
       = DataStore.NOTIFY_PREDICATE_TEMPLATE (rdf_flows.session_id n).
Proof.
  revert acc. induction notifications as [|n ns IH]; intros acc Hsome;
    [by left|].
  cbn [foldl] in Hsome. apply IH in Hsome as [Hsome|(m & Hm & ->)].
  - destruct (decide (attribute = DataStore.NOTIFY_PREDICATE_TEMPLATE
                                   (rdf_flows.session_id n))) as [->|Hne].
    + right. exists n. split; [apply elem_of_cons; by left|done].
    + left. by rewrite lookup_insert_ne in Hsome.
  - right. exists m. split; [apply elem_of_cons; by right|done].
Qed.

(** X9. The dict that [CreateNotifications] writes for a batch holds one
    attribute per session id of the batch and nothing else, with one value:
    the last notification of the batch for that session, serialized, at its
    own timestamp. Earlier notifications of the batch for the same session
    are not written. *)
Theorem notification_values_last_wins
  (notifications : list rdf_flows.GrrNotification) :
  (∀ session_id,
     DataStore.notification_values notifications
       !! DataStore.NOTIFY_PREDICATE_TEMPLATE session_id
     = (λ n, [(GrrNotification_SerializeToString n,
               Some (rdf_flows.timestamp n))])
       <$> last_for session_id notifications) ∧
  (∀ attribute,
     is_Some (DataStore.notification_values notifications !! attribute) →
     ∃ n, n ∈ notifications ∧
          attribute
          = DataStore.NOTIFY_PREDICATE_TEMPLATE (rdf_flows.session_id n)) ∧
  (size (DataStore.notification_values notifications)
   ≤ length notifications)%nat.
Proof.
  split; [|split].
  - intros session_id. unfold DataStore.notification_values.
    rewrite notification_values_fold.
    destruct (last_for session_id notifications); [reflexivity|].
    apply lookup_empty.
  - intros attribute Hsome. unfold DataStore.notification_values in Hsome.
    apply notification_values_keys in Hsome as [Hsome|Hsome]; [|done].
    rewrite lookup_empty in Hsome. by destruct Hsome.
  - unfold DataStore.notification_values.
    assert (Hgen : ∀ acc : attribute_values,
      (size (foldl (λ values notification,
                      <[DataStore.NOTIFY_PREDICATE_TEMPLATE
                          (rdf_flows.session_id notification) :=
                          [(GrrNotification_SerializeToString notification,
                            Some (rdf_flows.timestamp notification))]]> values)
               acc notifications)
       ≤ size acc + length notifications)%nat).
    { induction notifications as [|n ns IH]; intros acc; cbn [foldl length];
        [lia|].
      etransitivity; [apply IH|].
      match goal with
      | |- (size (<[?k := ?v]> acc) + _ ≤ _)%nat =>
          pose proof (map_size_insert k v acc) as Hsize;
          destruct (acc !! k)
      end; cbn in Hsize; lia. }
    specialize (Hgen ∅). by rewrite map_size_empty in Hgen.
Qed.

(** X10. [DeleteNotifications] makes one [DeleteAttributes] per queue
    shard, in the order of the shards, each with [sync=True], the range
    [start, end] and the attributes of all the session ids; a shard whose
    deletion raises ends it, and the shards after it are left alone. With
    no session id it still calls every shard, with no attribute. *)
Theorem DeleteNotifications_calls (queue_shards session_ids : list string)
  (start end_ : option Z) (token : option ACLToken) (w : World Store) :
  let run :=
    StoreMethods.DeleteNotifications queue_shards session_ids start end_
      token w in
  let expected :=
    map (λ shard,
           CallDeleteAttributes shard
             (map DataStore.NOTIFY_PREDICATE_TEMPLATE session_ids) start end_
             true token)
      queue_shards in
  run = perform expected w ∧
  ∃ issued,
    calls run.2 = calls w ++ issued ∧ issued `prefix_of` expected ∧
    (run.1 = Return tt → issued = expected) ∧
    pool run.2 = pool w ∧ run.1 ≠ OutOfFuel.
Proof.
  intros run expected.
  assert (Hrun : run = perform expected w).
  { subst run expected. unfold StoreMethods.DeleteNotifications,
      StoreMethods.MultiDeleteAttributes.
    rewrite <- flat_map_singleton.
    apply (for_each_perform
             (λ shard, [CallDeleteAttributes shard _ start end_ true token])).
    intros shard w1. apply DeleteAttributes_performs. }
  split; [exact Hrun|]. by apply performs_spec.
Qed.

(** X11. [IndexAddKeywordsForName] writes, for every distinct keyword and
    once only, the column of the name with an empty value at the time of
    the call, through a pool of its own: one [MultiSet] per keyword, not
    synchronous, then one [Flush] of the data store when there is a
    keyword at all. The pool of the caller comes back as it was. *)
Theorem IndexAddKeywordsForName_calls (index_urn name : string)
  (keywords : list string) (token : option ACLToken) (w : World Store) :
  let run :=
    StoreMethods.IndexAddKeywordsForName index_urn name keywords token w in
  let distinct := StoreMethods.keyword_set keywords in
  let expected :=
    CallDeleteSubjects [] false token
    :: map (λ keyword,
              CallMultiSet (DataStore._KeywordToURN index_urn keyword)
                {[StoreMethods._INDEX_COLUMN_FORMAT name := [(""%string, None)]]}
                (Some (now w)) true None false token)
         distinct
    ++ (if MutationPool.nonempty distinct then [CallFlush] else []) in
  NoDup distinct ∧ (∀ keyword, keyword ∈ distinct ↔ keyword ∈ keywords) ∧
  run = perform expected w ∧
  ∃ issued,
    calls run.2 = calls w ++ issued ∧ issued `prefix_of` expected ∧
    (run.1 = Return tt → issued = expected) ∧
    pool run.2 = pool w ∧ run.1 ≠ OutOfFuel.
Proof.
  intros run distinct expected.
  destruct (keyword_set_spec keywords) as [Hnodup Hin].
  split; [exact Hnodup|]. split; [exact Hin|].
  assert (Hrun : run = perform expected w).
  { subst run. unfold StoreMethods.IndexAddKeywordsForName.
    rewrite bind_run. cbn [get_world fst snd].
    rewrite (with_GetMutationPool_run token
               (λ keyword,
                  OpSet (DataStore._KeywordToURN index_urn keyword)
                    (StoreMethods._INDEX_COLUMN_FORMAT name) ""
                    (Some (now w)) true)).
    f_equal. subst expected. fold distinct.
    unfold Flush_calls, pool_after, MutationPool.__init__.
    rewrite !flat_map_map.
    cbn [subjects_of sets_of attribute_deletions_of notifications_of].
    rewrite !flat_map_nil, flat_map_singleton. cbn. rewrite map_map.
    f_equal. f_equal. rewrite app_nil_r. by destruct distinct. }
  split; [exact Hrun|]. by apply performs_spec.
Qed.

(** X12. [IndexRemoveKeywordsForName] deletes, for every distinct keyword
    and once only, the column of the name, all timestamps of it, through
    a pool of its own: one [DeleteAttributes] per keyword, not
    synchronous, then one [Flush] of the data store when there is a
    keyword at all. The pool of the caller comes back as it was. *)
Theorem IndexRemoveKeywordsForName_calls (index_urn name : string)
  (keywords : list string) (token : option ACLToken) (w : World Store) :
  let run :=
    StoreMethods.IndexRemoveKeywordsForName index_urn name keywords token w in
  let distinct := StoreMethods.keyword_set keywords in
  let expected :=
    CallDeleteSubjects [] false token
    :: map (λ keyword,
              CallDeleteAttributes (DataStore._KeywordToURN index_urn keyword)
                [StoreMethods._INDEX_COLUMN_FORMAT name] None None false token)
         distinct
    ++ (if MutationPool.nonempty distinct then [CallFlush] else []) in
  NoDup distinct ∧ (∀ keyword, keyword ∈ distinct ↔ keyword ∈ keywords) ∧
  run = perform expected w ∧
  ∃ issued,
    calls run.2 = calls w ++ issued ∧ issued `prefix_of` expected ∧
    (run.1 = Return tt → issued = expected) ∧
    pool run.2 = pool w ∧ run.1 ≠ OutOfFuel.
Proof.
  intros run distinct expected.
  destruct (keyword_set_spec keywords) as [Hnodup Hin].
  split; [exact Hnodup|]. split; [exact Hin|].
  assert (Hrun : run = perform expected w).
  { subst run. unfold StoreMethods.IndexRemoveKeywordsForName.
    rewrite (with_GetMutationPool_run token
               (λ keyword,
                  OpDeleteAttributes
                    (DataStore._KeywordToURN index_urn keyword)
                    [StoreMethods._INDEX_COLUMN_FORMAT name] None None)).
    f_equal. subst expected. fold distinct.
    unfold Flush_calls, pool_after, MutationPool.__init__.
    rewrite !flat_map_map.
    cbn [subjects_of sets_of attribute_deletions_of notifications_of].
    rewrite !flat_map_nil, flat_map_singleton. cbn. rewrite map_map.
    f_equal. f_equal. rewrite app_nil_r. by destruct distinct. }
  split; [exact Hrun|]. by apply performs_spec.
Qed.

(** X13. [AFF4FetchChildren] yields the children in ascending order of
    their names, each with the timestamp of its cell: when the backend
    answers with cells whose attributes all carry the prefix
    ["index:dir/"], the names, which are the attributes without the
    prefix, come sorted, and every cell gives one child. *)
Theorem AFF4FetchChildren_sorted (subject : string) (timestamp : timestamp_spec)
  (limit : option Z) (token : option ACLToken) (w w1 : World Store)
  (rows : list (string * list cell)) :
  DataStore.MultiResolvePrefix [subject] StoreMethods.AFF4_INDEX_DIR_PREFIX
    timestamp limit token
    (called (CallResolvePrefix subject StoreMethods.AFF4_INDEX_DIR_PREFIX
               timestamp limit token) w).2
  = (Return rows, w1) →
  Forall (λ c : cell,
            ∃ name, c.1.1 = StoreMethods.AFF4_INDEX_DIR_PREFIX +:+ name)
    (first_values rows) →
  ∃ children,
    StoreMethods.AFF4FetchChildren subject timestamp limit token w
    = (Return children, w1) ∧
    StronglySorted (λ a b : string * Z, String.leb a.1 b.1 = true) children ∧
    Permutation
      (map (λ child : string * Z,
              (StoreMethods.AFF4_INDEX_DIR_PREFIX +:+ child.1, child.2))
         children)
      (map (λ c : cell, (c.1.1, c.2)) (first_values rows)).
Proof.
  intros Hrows Hprefix.
  set (sorted := sort_by (λ a : cell, a.1.1) String.leb (first_values rows)).
  set (strip := λ c : cell,
    (string_drop (String.length StoreMethods.AFF4_INDEX_DIR_PREFIX) c.1.1,
     c.2)).
  assert (Hperm : Permutation sorted (first_values rows))
    by apply sort_by_Permutation.
  assert (Hsorted_prefix : Forall (λ c : cell,
            ∃ name, c.1.1 = StoreMethods.AFF4_INDEX_DIR_PREFIX +:+ name)
            sorted).
  { by rewrite Hperm. }
  exists (map strip sorted). split; [|split].
  - unfold StoreMethods.AFF4FetchChildren.
    by rewrite bind_run, ResolvePrefix_run, Hrows.
  - eapply (StronglySorted_map_in
              (λ a b : cell, String.leb a.1.1 b.1.1 = true));
      [|exact Hsorted_prefix|].
    + intros x y [nx Hx] [ny Hy] Hle. unfold strip. cbn [fst].
      rewrite Hx, Hy in *. rewrite !string_drop_app.
      by rewrite string_leb_app_prefix in Hle.
    + apply sort_by_sorted; [apply string_leb_total|apply string_leb_trans].
  - rewrite <- Hperm, map_map.
    clear Hperm. induction Hsorted_prefix as [|c l [name Hc] _ IH];
      [constructor|].
    cbn [map]. unfold strip at 1. cbn [fst snd].
    rewrite Hc at 1. rewrite string_drop_app, <- Hc.
    by constructor.
Qed.

(** X14. [LabelFetchAll] returns the labels of the subject in ascending
    order, one for every cell that [ResolvePrefix] returns, duplicates
    kept; what [ResolvePrefix] raises, it raises. *)
Theorem LabelFetchAll_sorted (subject : string) (token : option ACLToken)
  (w : World Store) :
  let resolved :=
    DataStore.ResolvePrefix subject StoreMethods.LABEL_ATTRIBUTE_PREFIX
      TimestampNone None token w in
  let run := StoreMethods.LabelFetchAll subject token w in
  run.2 = resolved.2 ∧
  match resolved.1 with
  | Return cells =>
      ∃ labels,
        run.1 = Return labels ∧
        StronglySorted (λ a b, String.leb a b = true) labels ∧
        Permutation labels
          (map (λ c : cell,
                  string_drop
                    (String.length StoreMethods.LABEL_ATTRIBUTE_PREFIX) c.1.1)
             cells)
  | Raise e => run.1 = Raise e
  | OutOfFuel => run.1 = OutOfFuel
  end.
Proof.
  intros resolved run. subst run resolved.
  unfold StoreMethods.LabelFetchAll. rewrite bind_run.
  destruct (DataStore.ResolvePrefix subject _ TimestampNone None token w)
    as [[cells|e|] w1]; cbn [fst snd]; [|done|done].
  split; [reflexivity|].
  eexists. split; [reflexivity|]. split.
  - apply (sort_by_sorted id String.leb string_leb_total string_leb_trans).
  - apply sort_by_Permutation.
Qed.

End StoreExtras.

(** ** Bounds on the lock wrapper and on the claim of tasks *)

Section BoundExtras.
Context {Store : Type} `{!Backend Store} `{!Codec}.
Local Abbreviation M := (Python Store).

(** X15. Two ways out of [LockRetryWrapper] that take no second attempt.
    With [retrywrap_max_timeout] at 0 or below it raises
    [DBSubjectLockError] without asking for the lock at all, and counts a
    commit failure. An exception of the first attempt that is not a
    [DBSubjectLockError] is raised again as it is, blocking or not, with
    no sleep and no retry counted. *)
Theorem LockRetryWrapper_gives_up (fuel : nat) (subject : string)
  (retrywrap_timeout : Z) (token : option ACLToken)
  (retrywrap_max_timeout : Z) (blocking : bool) (lease_time : option Z)
  (w : World Store) :
  let entered :=
    (called (CallLockRetryWrapper subject retrywrap_timeout
               retrywrap_max_timeout blocking lease_time token) w).2 in
  let run :=
    DataStore.LockRetryWrapper fuel subject retrywrap_timeout token
      retrywrap_max_timeout blocking lease_time w in
  (retrywrap_max_timeout ≤ 0 →
   run = (Raise (DBSubjectLockError "Retry number exceeded."),
          (IncrementCounter "grr_commit_failure" entered).2) ∧
   calls run.2 = calls entered ∧ store run.2 = store w ∧
   GetCounter "grr_commit_failure" run.2
   = GetCounter "grr_commit_failure" w + 1) ∧
  (∀ e w1,
     0 < retrywrap_max_timeout → (0 < fuel)%nat →
     DataStore.DBSubjectLock subject lease_time token entered
     = (Raise e, w1) →
     isinstance_DBSubjectLockError e = false →
     run = (Raise e, w1) ∧ slept run.2 = slept w ∧
     counters run.2 = counters w).
Proof.
  intros entered run.
  assert (Hrun : run =
    DataStore.LockRetryWrapper_loop fuel subject retrywrap_timeout token
      retrywrap_max_timeout blocking lease_time 0 entered) by reflexivity.
  rewrite Hrun. clear Hrun run. split.
  - intros Hmax. rewrite LockRetryWrapper_loop_exhausted by lia.
    split; [reflexivity|]. cbn [snd]. split; [reflexivity|].
    split; [reflexivity|].
    rewrite GetCounter_IncrementCounter. reflexivity.
  - intros e w1 Hmax Hfuel Hlock Hother.
    destruct fuel as [|fuel]; [lia|].
    cbn [DataStore.LockRetryWrapper_loop].
    destruct (0 <? retrywrap_max_timeout) eqn:Hlt; [|lia].
    unfold try_except. rewrite Hlock, Hother.
    split; [reflexivity|]. cbn [snd].
    destruct (DBSubjectLock_frame subject lease_time token entered)
      as (Hs & Hc & _). rewrite Hlock in Hs, Hc. cbn [snd] in Hs, Hc.
    unfold raise. cbn [snd]. by rewrite Hs, Hc.
Qed.

Lemma raise_DBSubjectLockError_frame {A} (msg : string) (w : World Store) :
  let run := DataStore.raise_DBSubjectLockError (A := A) msg w in
  slept run.2 = slept w ++ replicate 0 0 ∧
  GetCounter "datastore_retries" run.2
  = GetCounter "datastore_retries" w + Z.of_nat 0.
Proof.
  cbv zeta. unfold DataStore.raise_DBSubjectLockError. rewrite bind_run.
  cbn. rewrite app_nil_r. split; [reflexivity|].
  unfold GetCounter. cbn. rewrite lookup_insert_ne by done. lia.
Qed.

Lemma LockRetryWrapper_loop_sleeps (fuel : nat) (subject : string)
  (retrywrap_timeout : Z) (token : option ACLToken)
  (retrywrap_max_timeout : Z) (blocking : bool) (lease_time : option Z)
  (timeout : Z) (w : World Store) :
  let run :=
    DataStore.LockRetryWrapper_loop fuel subject retrywrap_timeout token
      retrywrap_max_timeout blocking lease_time timeout w in
  ∃ k : nat,
    slept run.2 = slept w ++ replicate k retrywrap_timeout ∧
    GetCounter "datastore_retries" run.2
    = GetCounter "datastore_retries" w + Z.of_nat k ∧
    (k = O ∨
     blocking = true ∧
     timeout + (Z.of_nat k - 1) * retrywrap_timeout < retrywrap_max_timeout).
Proof.
  cbv zeta. revert timeout w.
  induction fuel as [|fuel IH]; intros timeout w.
  - exists O. cbn [DataStore.LockRetryWrapper_loop].
    destruct (timeout <? retrywrap_max_timeout).
    + cbn. rewrite app_nil_r. repeat split; try lia; auto.
    + destruct (raise_DBSubjectLockError_frame (A := SubjectLock)
                  "Retry number exceeded." w) as [Hs Hc].
      split; [exact Hs|]. split; [exact Hc|]. by left.
  - cbn [DataStore.LockRetryWrapper_loop].
    destruct (timeout <? retrywrap_max_timeout) eqn:Hlt.
    + unfold try_except.
      destruct (DBSubjectLock_frame subject lease_time token w)
        as (Hs & Hc & _).
      destruct (DataStore.DBSubjectLock subject lease_time token w)
        as [[lock|e|] w1]; cbn [snd] in Hs, Hc.
      * exists O. cbn. unfold GetCounter.
        rewrite Hs, Hc, app_nil_r. repeat split; try lia; auto.
      * destruct (isinstance_DBSubjectLockError e).
        -- destruct blocking; cbn [negb].
           ++ change ((IncrementCounter "datastore_retries";;
                       DataStore.sleep retrywrap_timeout;;
                       DataStore.LockRetryWrapper_loop fuel subject
                         retrywrap_timeout token retrywrap_max_timeout true
                         lease_time (timeout + retrywrap_timeout)) w1)
                with (DataStore.LockRetryWrapper_loop fuel subject
                        retrywrap_timeout token retrywrap_max_timeout true
                        lease_time (timeout + retrywrap_timeout)
                        ((IncrementCounter "datastore_retries";;
                          DataStore.sleep retrywrap_timeout) w1).2).
              destruct (retry_frame retrywrap_timeout w1)
                as (Hs2 & Hc2 & _).
              cbv zeta in Hs2, Hc2.
              set (w2 := ((IncrementCounter "datastore_retries";;
                           DataStore.sleep retrywrap_timeout) w1).2) in *.
              destruct (IH (timeout + retrywrap_timeout) w2)
                as (k & Hk & Hretries & Hbound).
              exists (S k). rewrite Hk, Hretries, Hs2, Hc2, Hs.
              cbn [replicate]. rewrite <- app_assoc.
              split; [reflexivity|].
              split; [unfold GetCounter; rewrite Hc; lia|].
              right. split; [reflexivity|].
              apply Z.ltb_lt in Hlt.
              destruct Hbound as [->|[_ Hbound]]; [cbn; lia|lia].
           ++ exists O. cbn. unfold GetCounter.
              rewrite Hs, Hc, app_nil_r. repeat split; try lia; auto.
        -- exists O. cbn. unfold GetCounter.
           rewrite Hs, Hc, app_nil_r. repeat split; try lia; auto.
      * exists O. cbn. unfold GetCounter.
        rewrite Hs, Hc, app_nil_r. repeat split; try lia; auto.
    + exists O.
      destruct (raise_DBSubjectLockError_frame (A := SubjectLock)
                  "Retry number exceeded." w) as [Hs Hc].
      split; [exact Hs|]. split; [exact Hc|]. by left.
Qed.

(** X16. Whatever the backend does, [LockRetryWrapper] sleeps
    [retrywrap_timeout] a number of times [k], counts [k] retries, and goes
    to sleep only while the sleeps so far add up to less than
    [retrywrap_max_timeout]: with a positive [retrywrap_timeout] the time it
    spends asleep stays below [retrywrap_max_timeout + retrywrap_timeout].
    When it does not block, it never sleeps. *)
Theorem LockRetryWrapper_sleep_bounded (fuel : nat) (subject : string)
  (retrywrap_timeout : Z) (token : option ACLToken)
  (retrywrap_max_timeout : Z) (blocking : bool) (lease_time : option Z)
  (w : World Store) :
  let run :=
    DataStore.LockRetryWrapper fuel subject retrywrap_timeout token
      retrywrap_max_timeout blocking lease_time w in
  ∃ k : nat,
    slept run.2 = slept w ++ replicate k retrywrap_timeout ∧
    GetCounter "datastore_retries" run.2
    = GetCounter "datastore_retries" w + Z.of_nat k ∧
    (k = O ∨
     blocking = true ∧
     (Z.of_nat k - 1) * retrywrap_timeout < retrywrap_max_timeout) ∧
    (0 < retrywrap_timeout → 0 ≤ retrywrap_max_timeout →
     Z.of_nat k * retrywrap_timeout
     < retrywrap_max_timeout + retrywrap_timeout).
Proof.
  intros run.
  set (entered :=
    (called (CallLockRetryWrapper subject retrywrap_timeout
               retrywrap_max_timeout blocking lease_time token) w).2).
  assert (Hrun : run =
    DataStore.LockRetryWrapper_loop fuel subject retrywrap_timeout token
      retrywrap_max_timeout blocking lease_time 0 entered) by reflexivity.
  rewrite Hrun. clear Hrun run.
  destruct (LockRetryWrapper_loop_sleeps fuel subject retrywrap_timeout
              token retrywrap_max_timeout blocking lease_time 0 entered)
    as (k & Hk & Hretries & Hbound).
  exists k. cbv zeta in Hk, Hretries. rewrite Hk, Hretries.
  split; [reflexivity|]. split; [reflexivity|].
  split; [destruct Hbound as [->|[-> Hb]]; [by left|right; split; [done|lia]]|].
  intros Hpos Hmax. destruct Hbound as [->|[_ Hb]]; lia.
Qed.

Lemma _QueueQueryAndOwn_loop_bound (limit : Z) (user : string)
  (cells : list cell) (st : MutationPool.claim_state) (w : World Store) :
  Z.of_nat (length (MutationPool.tasks st)) < Z.max limit 1 →
  match MutationPool._QueueQueryAndOwn_loop limit user cells st w with
  | (Return st', _) =>
      Z.of_nat (length (MutationPool.tasks st')) ≤ Z.max limit 1
  | _ => True
  end.
Proof.
  revert st w. induction cells as [|c cells IH]; intros st w Hlen.
  - cbn. lia.
  - cbn [MutationPool._QueueQueryAndOwn_loop]. rewrite bind_run.
    destruct c as [[predicate serialized] ts].
    unfold MutationPool._QueueQueryAndOwn_cell.
    rewrite bind_run. unfold DataStore.FromSerializedString.
    destruct (GrrMessage_FromSerializedString serialized) as [task0|];
      [|done].
    cbn [mret M_ret fst snd]. rewrite bind_run. cbn [get_world fst snd].
    cbn [rdf_flows.task_ttl rdf_flows.set_task_ttl rdf_flows.set_last_lease
         rdf_flows.set_eta].
    destruct (rdf_flows.task_ttl task0 - 1 <=? 0).
    + rewrite bind_run. cbn [IncrementCounter modify_world fst snd].
      cbn beta iota. apply IH. exact Hlen.
    + rewrite bind_run.
      match goal with
      | |- context [(if ?b then IncrementCounter ?n else mret tt) w] =>
          destruct ((if b then IncrementCounter n else mret tt) w)
            as [[[]|e|] w1] eqn:Hcount; [|destruct b; discriminate..]
      end.
      cbn [mret M_ret MutationPool.tasks]. cbn beta iota.
      rewrite length_app. cbn [length].
      destruct (limit <=? Z.of_nat (length (MutationPool.tasks st) + 1))
        eqn:Hstop.
      * cbn. rewrite length_app. cbn [length]. lia.
      * apply Z.leb_gt in Hstop. apply IH. cbn [MutationPool.tasks].
        rewrite length_app. cbn [length]. lia.
Qed.

(** X17. [QueueQueryAndOwn] never returns more tasks than [limit] asks
    for, except that it still claims one task when [limit] is 0 or
    negative: the loop tests the limit only after it has taken a task. *)
Theorem QueueQueryAndOwn_at_most_limit (queue : string)
  (lease_seconds limit : Z) (timestamp : option Z) (w w' : World Store)
  (claimed : list rdf_flows.GrrMessage) :
  MutationPool.QueueQueryAndOwn queue lease_seconds limit timestamp w
  = (Return claimed, w') →
  Z.of_nat (length claimed) ≤ Z.max limit 1.
Proof.
  rewrite QueueQueryAndOwn_run. cbv zeta. rewrite bind_run.
  destruct (DataStore.LockRetryWrapper 10 queue 1 _ 10 true _ w)
    as [[lock|e|] w1].
  - unfold MutationPool._QueueQueryAndOwn.
    rewrite bind_run. cbn [get_pool fst snd].
    rewrite bind_run. cbn [get_world fst snd]. rewrite bind_run.
    destruct (DataStore.ResolvePrefix _ _ _ _ _ w1) as [[cells|e|] w2].
    + rewrite bind_run.
      pose proof (_QueueQueryAndOwn_loop_bound limit
        match token (pool w) with
        | Some token => username token
        | None => ""%string
        end
        cells
        {| MutationPool.tasks := []; MutationPool.delete_attrs := ∅;
           MutationPool.serialized_tasks_dict := ∅ |} w2 ltac:(cbn; lia))
        as Hbound.
      destruct (MutationPool._QueueQueryAndOwn_loop _ _ cells _ w2)
        as [[st|e|] w3].
      * destruct (negb (bool_decide (MutationPool.delete_attrs st = ∅)));
          destruct (negb (bool_decide
                            (MutationPool.serialized_tasks_dict st = ∅)));
          cbn; intros [= <- _]; exact Hbound.
      * destruct e; intros [= <- _]; cbn; lia.
      * discriminate.
    + destruct e; intros [= <- _]; cbn; lia.
    + discriminate.
  - destruct e; intros [= <- _]; cbn; lia.
  - discriminate.
Qed.

End BoundExtras.

(** ** Queues of records and the deletion of collections *)

Section RecordExtras.
Context {Store : Type} `{!Backend Store} `{!ScanBackend Store} `{!Codec}
  `{!DatetimeCodec}.
Local Abbreviation M := (Python Store).

Lemma pool_with_nil (self : Pool) : pool_with self [] [] = self.
Proof. destruct self. unfold pool_with. cbn. by rewrite !app_nil_r. Qed.

Lemma pool_with_twice (self : Pool) s1 d1 s2 d2 :
  pool_with (pool_with self s1 d1) s2 d2 = pool_with self (s1 ++ s2) (d1 ++ d2).
Proof. unfold pool_with. cbn. by rewrite !app_assoc. Qed.

Lemma Set_run subject attribute value timestamp replace (w : World Store) :
  MutationPool.Set_ subject attribute value timestamp replace w
  = (Return tt,
     set_pool
       (pool_with (pool w)
          [(subject, {[attribute := [(value, None)]]}, timestamp, replace,
            None)] [])
       w).
Proof.
  unfold pool_with. rewrite app_nil_r. reflexivity.
Qed.

Lemma pool_DeleteAttributes_run subject attributes start end_
  (w : World Store) :
  MutationPool.DeleteAttributes subject attributes start end_ w
  = (Return tt,
     set_pool
       (pool_with (pool w) [] [(subject, attributes, start, end_)]) w).
Proof.
  unfold pool_with. rewrite app_nil_r. reflexivity.
Qed.

Section Claim.
Context {I : Type} (queue_id : string) (item_rdf_type : RDFType I)
  (limit now expiration : Z) (record_filter : I → bool).
Local Abbreviation outcome :=
  (claim_outcome queue_id item_rdf_type limit now expiration record_filter).

Lemma claim_outcome_stop rows results (w : World Store)
  (r : result (list (QueueRecord I))) :
  r ≠ OutOfFuel → (∀ out, r = Return out → out = results) →
  outcome rows results w (r, w).
Proof.
  intros Hfuel Hr. exists [], []. cbn [map fst snd].
  rewrite pool_with_nil, set_pool_same.
  split; [reflexivity|]. split; [apply sublist_nil_l|].
  split; [apply sublist_nil_l|]. split; [constructor|].
  split; [constructor|]. split; [exact Hfuel|].
  intros out Hreturn. rewrite app_nil_r. split; [by apply Hr|by left].
Qed.

Lemma claim_outcome_skip row rows results (w : World Store) run :
  outcome rows results w run → outcome (row :: rows) results w run.
Proof.
  intros (claimed & dangling & Hw & Hsub & Hdsub & Hc & Hd & Hfuel & Hout).
  exists claimed, dangling.
  split; [exact Hw|]. split; [by apply sublist_cons|].
  split; [by apply sublist_cons|].
  split.
  { eapply Forall_impl; [exact Hc|].
    intros sr (values0 & Hin & Hrest). exists values0.
    split; [apply elem_of_cons; by right|exact Hrest]. }
  split.
  { eapply Forall_impl; [exact Hd|].
    intros s (values0 & Hin & Hrest). exists values0.
    split; [apply elem_of_cons; by right|exact Hrest]. }
  split; [exact Hfuel|exact Hout].
Qed.

Lemma claim_outcome_dangling subject values rows results (w : World Store)
  run :
  values !! StoreMethods.COLLECTION_ATTRIBUTE = None →
  outcome rows results
    (set_pool (pool_with (pool w) [] [lease_deletion subject]) w) run →
  outcome ((subject, values) :: rows) results w run.
Proof.
  intros Hvalue
    (claimed & dangling & Hw & Hsub & Hdsub & Hc & Hd & Hfuel & Hout).
  exists claimed, (subject :: dangling).
  split.
  { rewrite Hw. cbn [pool set_pool]. rewrite set_pool_twice.
    by rewrite pool_with_twice. }
  split; [by apply sublist_cons|].
  split; [by apply sublist_skip|].
  split.
  { eapply Forall_impl; [exact Hc|].
    intros sr (values0 & Hin & Hrest). exists values0.
    split; [apply elem_of_cons; by right|exact Hrest]. }
  split.
  { constructor.
    - exists values. split; [apply elem_of_cons; by left|exact Hvalue].
    - eapply Forall_impl; [exact Hd|].
      intros s (values0 & Hin & Hrest). exists values0.
      split; [apply elem_of_cons; by right|exact Hrest]. }
  split; [exact Hfuel|exact Hout].
Qed.

Lemma claim_outcome_claim subject values record rows results
  (w : World Store) run :
  leased now values = Some false →
  record_of queue_id item_rdf_type (subject, values) = Some record →
  record_filter (record_value record) = false →
  (Z.of_nat (length results) + 1 < limit ∨
   run.1 = Return (results ++ [record])) →
  outcome rows (results ++ [record])
    (set_pool
       (pool_with (pool w) [lease_request expiration (subject, record)] [])
       w) run →
  outcome ((subject, values) :: rows) results w run.
Proof.
  intros Hleased Hrecord Hfilter Hlimit
    (claimed & dangling & Hw & Hsub & Hdsub & Hc & Hd & Hfuel & Hout).
  exists ((subject, record) :: claimed), dangling.
  split.
  { rewrite Hw. cbn [pool set_pool]. rewrite set_pool_twice.
    by rewrite pool_with_twice. }
  split; [by apply sublist_skip|].
  split; [by apply sublist_cons|].
  split.
  { constructor.
    - exists values. split; [apply elem_of_cons; by left|done].
    - eapply Forall_impl; [exact Hc|].
      intros sr (values0 & Hin & Hrest). exists values0.
      split; [apply elem_of_cons; by right|exact Hrest]. }
  split.
  { eapply Forall_impl; [exact Hd|].
    intros s (values0 & Hin & Hrest). exists values0.
    split; [apply elem_of_cons; by right|exact Hrest]. }
  split; [exact Hfuel|].
  intros out Hreturn. destruct (Hout out Hreturn) as [-> Hbound].
  split; [cbn [map snd]; by rewrite <- app_assoc|].
  right. rewrite !length_app in *. cbn [length] in *.
  destruct Hlimit as [Hlimit|Hstop].
  - destruct Hbound as [->|Hbound]; cbn [map length] in *; lia.
  - rewrite Hreturn in Hstop. injection Hstop as Hstop.
    apply (f_equal (@length _)) in Hstop.
    rewrite !length_app in Hstop. cbn [length] in Hstop. lia.
Qed.

(** The loop of [QueueClaimRecords], whatever the rows hold. *)
Lemma QueueClaimRecords_loop_outcome (max_filtered : Z)
  (rows : list (string * gmap string (Z * string)))
  (results : list (QueueRecord I)) (filtered_count : Z) (w : World Store) :
  outcome rows results w
    (PoolMethods.QueueClaimRecords_loop queue_id item_rdf_type limit now
       expiration record_filter max_filtered rows results filtered_count w).
Proof.
  revert results filtered_count w.
  induction rows as [|[subject values] rows IH];
    intros results filtered_count w.
  - by apply claim_outcome_stop; [|intros out [= <-]].
  - cbn [PoolMethods.QueueClaimRecords_loop].
    destruct (values !! StoreMethods.COLLECTION_ATTRIBUTE)
      as [[value_timestamp serialized]|] eqn:Hvalue.
    + rewrite bind_run.
      assert (Hfree : leased now values = Some false →
        outcome ((subject, values) :: rows) results w
          (match item_FromSerializedString item_rdf_type serialized with
           | None => raise (OtherException "FromSerializedString")
           | Some rdf_value =>
               if record_filter rdf_value then
                 let filtered_count := filtered_count + 1 in
                 if negb (max_filtered =? 0)
                    && (max_filtered <=? filtered_count)
                 then mret results
                 else
                   PoolMethods.QueueClaimRecords_loop queue_id item_rdf_type
                     limit now expiration record_filter max_filtered rows
                     results filtered_count
               else
                 StoreMethods.int_16 (string_last 6 subject)
                 ≫= λ suffix : Z,
                 let results :=
                   results
                   ++ [{| record_queue_id := queue_id;
                          record_timestamp := value_timestamp;
                          record_suffix := suffix;
                          record_subpath := "Records";
                          record_value := rdf_value |}] in
                 MutationPool.Set_ subject StoreMethods.QUEUE_LOCK_ATTRIBUTE
                   (RDFDatetime_SerializeToString expiration) None true;;
                 if limit <=? Z.of_nat (length results) then mret results
                 else
                   PoolMethods.QueueClaimRecords_loop queue_id item_rdf_type
                     limit now expiration record_filter max_filtered rows
                     results 0
           end w)).
      { intros Hleased.
        destruct (item_FromSerializedString item_rdf_type serialized)
          as [rdf_value|] eqn:Hitem;
          [|by apply claim_outcome_stop].
        destruct (record_filter rdf_value) eqn:Hfilter.
        - cbv zeta.
          destruct (negb (max_filtered =? 0)
                    && (max_filtered <=? filtered_count + 1)).
          + by apply claim_outcome_stop; [|intros out [= <-]].
          + apply claim_outcome_skip, IH.
        - rewrite bind_run. unfold StoreMethods.int_16.
          destruct (int16 (string_last 6 subject)) as [suffix|] eqn:Hsuffix;
            [|by apply claim_outcome_stop].
          cbn [mret M_ret]. cbn beta iota zeta.
          rewrite bind_run, Set_run.
          set (record := {| record_queue_id := queue_id;
                            record_timestamp := value_timestamp;
                            record_suffix := suffix;
                            record_subpath := "Records";
                            record_value := rdf_value |}).
          assert (Hrecord : record_of queue_id item_rdf_type (subject, values)
                            = Some record).
          { unfold record_of. cbn [fst snd].
            by rewrite Hvalue, Hitem, Hsuffix. }
          destruct (limit <=? Z.of_nat (length (results ++ [record])))
            eqn:Hstop.
          + apply (claim_outcome_claim subject values record);
              [done|done|done|by right|].
            change (lease_request expiration (subject, record))
              with ((subject,
                     ({[StoreMethods.QUEUE_LOCK_ATTRIBUTE :=
                          [(RDFDatetime_SerializeToString expiration, None)]]}
                        : attribute_values),
                     @None Z, true, @None (gset string)) : set_request).
            by apply claim_outcome_stop; [|intros out [= <-]].
          + apply (claim_outcome_claim subject values record);
              [done|done|done| |apply IH].
            left. apply Z.leb_gt in Hstop. rewrite length_app in Hstop.
            cbn [length] in Hstop. lia. }
      destruct (values !! StoreMethods.QUEUE_LOCK_ATTRIBUTE)
        as [[lease_timestamp lease]|] eqn:Hlease.
      * destruct (RDFDatetime_FromSerializedString lease) as [timestamp|]
          eqn:Hparse; [|by apply claim_outcome_stop].
        cbn [mret M_ret]. cbn beta iota.
        destruct (now <? timestamp) eqn:Hleased.
        -- apply claim_outcome_skip, IH.
        -- apply Hfree. unfold leased. by rewrite Hlease, Hparse, <- Hleased.
      * cbn [mret M_ret]. cbn beta iota.
        apply Hfree. unfold leased. by rewrite Hlease.
    + rewrite bind_run, pool_DeleteAttributes_run.
      apply claim_outcome_dangling; [exact Hvalue|apply IH].
Qed.

End Claim.

(** X18. [QueueClaimRecords] over the rows that the scan returns: it
    claims rows in the order of the scan, each with a value, with no lease
    or a lease that has run out, and not filtered out, and returns their
    records, [limit] of them at most (one when [limit] is below 1). Up to
    an exception or the end, it makes no call on the data store after the
    scan: the pool gets one lease per claimed row, to run out [timeout]
    after now, and the deletion of the lease of every row without a value
    that it has passed. *)
Theorem QueueClaimRecords_claims {I} (queue_id : string)
  (item_rdf_type : RDFType I) (limit timeout : Z) (start_time : option Z)
  (record_filter : I → bool) (max_filtered : Z) (w w1 : World Store)
  (rows : list (string * gmap string (Z * string))) :
  let after_urn :=
    match start_time with
    | None => None
    | Some start_time =>
        Some (DataStore.CollectionMakeURN 0 queue_id start_time (Some 0)
                (Some "Records"%string)).1.1
    end in
  StoreMethods.ScanAttributes (DataStore.RDFURN_Add queue_id "Records")
    [StoreMethods.COLLECTION_ATTRIBUTE; StoreMethods.QUEUE_LOCK_ATTRIBUTE]
    after_urn (Some (4 * limit)) (token (pool w)) false w
  = (Return rows, w1) →
  let run :=
    PoolMethods.QueueClaimRecords queue_id item_rdf_type limit timeout
      start_time record_filter max_filtered w in
  ∃ (claimed : list (string * QueueRecord I)) (dangling : list string),
    run.2
    = set_pool
        (pool_with (pool w)
           (map (lease_request (now w + timeout)) claimed)
           (map lease_deletion dangling)) w1 ∧
    map fst claimed `sublist_of` map fst rows ∧
    dangling `sublist_of` map fst rows ∧
    Forall (λ claim : string * QueueRecord I,
              ∃ values,
                (claim.1, values) ∈ rows ∧
                leased (now w) values = Some false ∧
                record_of queue_id item_rdf_type (claim.1, values)
                = Some claim.2 ∧
                record_filter (record_value claim.2) = false)
      claimed ∧
    Forall (λ subject,
              ∃ values,
                (subject, values) ∈ rows ∧
                values !! StoreMethods.COLLECTION_ATTRIBUTE = None)
      dangling ∧
    run.1 ≠ OutOfFuel ∧
    (∀ out, run.1 = Return out →
       out = map snd claimed ∧ Z.of_nat (length out) ≤ Z.max limit 1).
Proof.
  intros after_urn Hscan run.
  assert (Hw1 : pool w1 = pool w).
  { unfold StoreMethods.ScanAttributes, backend in Hscan.
    destruct (abstract_ScanAttributes _ _ _ _ _ _ _) as [[e|a] s];
      injection Hscan as _ <-; reflexivity. }
  assert (Hrun : run =
    PoolMethods.QueueClaimRecords_loop queue_id item_rdf_type limit (now w)
      (now w + timeout) record_filter max_filtered rows [] 0 w1).
  { subst run. unfold PoolMethods.QueueClaimRecords.
    rewrite bind_run. cbn [get_pool fst snd].
    rewrite bind_run. cbn [get_world fst snd].
    rewrite bind_run. fold after_urn. by rewrite Hscan. }
  destruct (QueueClaimRecords_loop_outcome queue_id item_rdf_type limit
              (now w) (now w + timeout) record_filter max_filtered rows [] 0
              w1)
    as (claimed & dangling & Hw & Hsub & Hdsub & Hc & Hd & Hfuel & Hout).
  rewrite <- Hrun in Hw, Hfuel, Hout. rewrite Hw1 in Hw.
  exists claimed, dangling.
  repeat (split; [assumption|]).
  intros out Hreturn. destruct (Hout out Hreturn) as [-> Hbound].
  split; [reflexivity|].
  destruct Hbound as [->|Hbound]; cbn in *; lia.
Qed.

Lemma record_subject_of_row {I} (queue_id : string)
  (item_rdf_type : RDFType I) (draw ts : Z)
  (values : gmap string (Z * string)) (serialized : string)
  (record : QueueRecord I) :
  let subject :=
    (DataStore.CollectionMakeURN draw queue_id ts None
       (Some "Records"%string)).1.1 in
  values !! StoreMethods.COLLECTION_ATTRIBUTE = Some (ts, serialized) →
  record_of queue_id item_rdf_type (subject, values) = Some record →
  PoolMethods.record_subject record = subject.
Proof.
  intros subject Hvalue Hrecord. unfold record_of in Hrecord.
  cbn [fst snd] in Hrecord. rewrite Hvalue in Hrecord.
  destruct (item_FromSerializedString item_rdf_type serialized);
    [|discriminate].
  unfold subject in Hrecord.
  rewrite CollectionMakeURN_suffix_read in Hrecord by discriminate.
  injection Hrecord as <-. reflexivity.
Qed.

Lemma pool_after_deletions {A} (f : A → delete_attributes_request)
  (l : list A) (self : Pool) :
  pool_after
    (map (λ x, let '(subject, attributes, start, end_) := f x in
               OpDeleteAttributes subject attributes start end_) l) self
  = pool_with self [] (map f l).
Proof.
  unfold pool_after, pool_with. rewrite !flat_map_map.
  assert (Hnil : ∀ B (g : pool_op → list B),
    (∀ subject attributes start end_,
       g (OpDeleteAttributes subject attributes start end_) = []) →
    flat_map (λ x, g (let '(subject, attributes, start, end_) := f x in
                      OpDeleteAttributes subject attributes start end_)) l
    = []).
  { intros B g Hg. induction l as [|x l IH]; [reflexivity|].
    cbn [flat_map]. rewrite IH. destruct (f x) as [[[? ?] ?] ?].
    by rewrite Hg. }
  rewrite (Hnil _ subjects_of), (Hnil _ sets_of), (Hnil _ notifications_of)
    by done.
  rewrite !app_nil_r. f_equal. f_equal. clear Hnil.
  induction l as [|x l IH]; [reflexivity|].
  cbn [flat_map map]. rewrite IH. by destruct (f x) as [[[? ?] ?] ?].
Qed.

Lemma pool_after_sets {A} (f : A → string * string * string) (l : list A)
  (self : Pool) :
  pool_after
    (map (λ x, OpSet (f x).1.1 (f x).1.2 (f x).2 None true) l) self
  = pool_with self
      (map (λ x, ((f x).1.1, {[(f x).1.2 := [((f x).2, None)]]}, None, true,
                  None)) l) [].
Proof.
  unfold pool_after, pool_with. rewrite !flat_map_map.
  cbn [subjects_of sets_of attribute_deletions_of notifications_of].
  rewrite !flat_map_nil, flat_map_singleton, !app_nil_r. reflexivity.
Qed.

(** X19. The records that [QueueClaimRecords] makes of rows written by
    [QueueAddItem] lead back to these rows: for a row under the URN that
    [QueueAddItem] made for the timestamp of its value, the subject that
    [QueueReleaseRecords], [QueueDeleteRecords] and [QueueRefreshClaims]
    compute from the record is the subject of the row. So releasing
    queues the deletion of the lease of each claimed row, deleting the
    deletion of lease and value, and refreshing a new lease, [timeout]
    after now; nothing else changes. *)
Theorem Queue_records_address_their_rows {I} (queue_id : string)
  (item_rdf_type : RDFType I) (claims : list (string * QueueRecord I))
  (timeout : Z) (w : World Store) :
  Forall (λ claim : string * QueueRecord I,
            ∃ draw ts values serialized,
              claim.1
              = (DataStore.CollectionMakeURN draw queue_id ts None
                   (Some "Records"%string)).1.1 ∧
              values !! StoreMethods.COLLECTION_ATTRIBUTE
              = Some (ts, serialized) ∧
              record_of queue_id item_rdf_type (claim.1, values)
              = Some claim.2)
    claims →
  map PoolMethods.record_subject (map snd claims) = map fst claims ∧
  PoolMethods.QueueReleaseRecords (map snd claims) w
  = (Return tt,
     set_pool (pool_with (pool w) [] (map lease_deletion (map fst claims)))
       w) ∧
  PoolMethods.QueueDeleteRecords (map snd claims) w
  = (Return tt,
     set_pool
       (pool_with (pool w) []
          (map (λ subject,
                  (subject,
                   [StoreMethods.QUEUE_LOCK_ATTRIBUTE;
                    StoreMethods.COLLECTION_ATTRIBUTE], None, None))
             (map fst claims)))
       w) ∧
  PoolMethods.QueueRefreshClaims (map snd claims) timeout w
  = (Return tt,
     set_pool
       (pool_with (pool w) (map (lease_request (now w + timeout)) claims) [])
       w).
Proof.
  intros Hclaims.
  assert (Hsubjects :
    map PoolMethods.record_subject (map snd claims) = map fst claims).
  { induction Hclaims
      as [|[subject record] l (draw & ts & values & ser & Hs & Hv & Hr) _ IH];
      [reflexivity|].
    cbn [map fst snd] in *. rewrite IH. f_equal.
    rewrite Hs in Hr |- *.
    by apply (record_subject_of_row queue_id item_rdf_type draw ts values
                ser). }
  split; [exact Hsubjects|]. split; [|split].
  - unfold PoolMethods.QueueReleaseRecords.
    etransitivity;
      [apply (for_each_run_op
                (λ record : QueueRecord I,
                   OpDeleteAttributes (PoolMethods.record_subject record)
                     [StoreMethods.QUEUE_LOCK_ATTRIBUTE] None None))|].
    f_equal. f_equal.
    rewrite (pool_after_deletions
               (λ record : QueueRecord I,
                  lease_deletion (PoolMethods.record_subject record))).
    f_equal. rewrite <- Hsubjects. symmetry. apply List.map_map.
  - unfold PoolMethods.QueueDeleteRecords.
    etransitivity;
      [apply (for_each_run_op
                (λ record : QueueRecord I,
                   OpDeleteAttributes (PoolMethods.record_subject record)
                     [StoreMethods.QUEUE_LOCK_ATTRIBUTE;
                      StoreMethods.COLLECTION_ATTRIBUTE] None None))|].
    f_equal. f_equal.
    rewrite (pool_after_deletions
               (λ record : QueueRecord I,
                  (PoolMethods.record_subject record,
                   [StoreMethods.QUEUE_LOCK_ATTRIBUTE;
                    StoreMethods.COLLECTION_ATTRIBUTE], None, None))).
    f_equal. rewrite <- Hsubjects. symmetry. apply List.map_map.
  - unfold PoolMethods.QueueRefreshClaims.
    rewrite bind_run. cbn [get_world fst snd].
    etransitivity;
      [apply (for_each_run_op
                (λ record : QueueRecord I,
                   OpSet (PoolMethods.record_subject record)
                     StoreMethods.QUEUE_LOCK_ATTRIBUTE
                     (RDFDatetime_SerializeToString (now w + timeout)) None
                     true))|].
    f_equal. f_equal.
    etransitivity;
      [exact (pool_after_sets
                (λ record : QueueRecord I,
                   (PoolMethods.record_subject record,
                    StoreMethods.QUEUE_LOCK_ATTRIBUTE,
                    RDFDatetime_SerializeToString (now w + timeout)))
                (map snd claims) (pool w))|].
    f_equal. cbn [fst snd]. rewrite List.map_map.
    clear Hclaims. revert Hsubjects.
    induction claims as [|[subject record] l IH]; [reflexivity|].
    cbn [map fst snd]. intros [= Hs Hl]. rewrite (IH Hl).
    unfold lease_request at 2. cbn [fst]. by rewrite Hs.
Qed.

Lemma deleted_in_app (l1 l2 : list db_call) :
  deleted_in (l1 ++ l2) = deleted_in l1 ++ deleted_in l2.
Proof. apply flat_map_app. Qed.

Lemma deleted_in_map_none {A} (f : A → db_call) (l : list A) :
  (∀ x, deleted_in [f x] = []) → deleted_in (map f l) = [].
Proof.
  intros Hf. induction l as [|x l IH]; [reflexivity|].
  cbn [map]. change (f x :: map f l) with ([f x] ++ map f l).
  by rewrite deleted_in_app, Hf, IH.
Qed.

Lemma deleted_in_Flush_calls (self : Pool) :
  deleted_in (Flush_calls self) = delete_subject_requests self.
Proof.
  unfold Flush_calls. rewrite !deleted_in_app.
  rewrite (deleted_in_map_none _ (delete_attributes_requests self))
    by (intros [[[? ?] ?] ?]; reflexivity).
  rewrite (deleted_in_map_none _ (set_requests self))
    by (intros [[[[? ?] ?] ?] ?]; reflexivity).
  assert (Hflush : ∀ b : bool,
            deleted_in (if b then [CallFlush] else []) = [])
    by (intros []; reflexivity).
  rewrite Hflush.
  assert (Hnotify :
    deleted_in
      (flat_map (λ batch : string * list rdf_flows.GrrNotification,
                   let '(queue, notifications) := batch in
                   [CallCreateNotifications queue notifications (token self);
                    CallMultiSet queue
                      (DataStore.notification_values notifications) None false
                      None true (token self)])
         (new_notifications self)) = []).
  { induction (new_notifications self) as [|[queue notifications] l IH];
      [reflexivity|].
    cbn [flat_map]. rewrite deleted_in_app, IH. reflexivity. }
  rewrite Hnotify, !app_nil_r.
  change (deleted_in (?c :: ?l)) with (deleted_in ([c] ++ l)).
  rewrite deleted_in_app, deleted_in_map_none by done.
  cbn. by rewrite !app_nil_r.
Qed.

Lemma CollectionDelete_loop_spec
  (rows : list (string * gmap string (Z * string))) (w : World Store) :
  Forall (λ row : string * gmap string (Z * string),
            is_Some (row.2 !! StoreMethods.COLLECTION_ATTRIBUTE)) rows →
  let run := PoolMethods.CollectionDelete_loop rows w in
  run.1 ≠ OutOfFuel ∧
  (run.1 = Return tt →
   (rows ≠ [] → MutationPool.Size (pool run.2) ≤ 50000) ∧
   token (pool run.2) = token (pool w) ∧
   deleted_in (calls run.2) ++ delete_subject_requests (pool run.2)
   = deleted_in (calls w) ++ delete_subject_requests (pool w)
     ++ map fst rows).
Proof.
  cbv zeta. intros Hrows. revert w.
  induction Hrows as [|[subject values] rows [[ts value] Hvalue] _ IH];
    intros w.
  - cbn. split; [done|]. intros _. by rewrite app_nil_r.
  - cbn [PoolMethods.CollectionDelete_loop].
    unfold StoreMethods.ScanAttribute_next. cbn [fst snd] in *.
    rewrite Hvalue, bind_run. cbn [mret M_ret fst snd]. cbn beta iota.
    rewrite bind_run.
    change (MutationPool.DeleteSubject subject w)
      with (run_op (OpDeleteSubject subject) w).
    rewrite run_op_run. rewrite bind_run. cbn [get_pool fst snd pool set_pool].
    set (queued := pool_after [OpDeleteSubject subject] (pool w)).
    set (w1 := set_pool queued w).
    rewrite bind_run.
    assert (Hqueued : delete_subject_requests queued
                      = delete_subject_requests (pool w) ++ [subject])
      by reflexivity.
    assert (Htail : ∀ w2 : World Store,
      MutationPool.Size (pool w2) ≤ 50000 →
      token (pool w2) = token (pool w) →
      deleted_in (calls w2) ++ delete_subject_requests (pool w2)
      = deleted_in (calls w) ++ delete_subject_requests (pool w) ++ [subject] →
      (PoolMethods.CollectionDelete_loop rows w2).1 ≠ OutOfFuel ∧
      ((PoolMethods.CollectionDelete_loop rows w2).1 = Return tt →
       ((subject, values) :: rows ≠ [] →
        MutationPool.Size (pool (PoolMethods.CollectionDelete_loop rows w2).2)
        ≤ 50000) ∧
       token (pool (PoolMethods.CollectionDelete_loop rows w2).2)
       = token (pool w) ∧
       deleted_in (calls (PoolMethods.CollectionDelete_loop rows w2).2)
       ++ delete_subject_requests
            (pool (PoolMethods.CollectionDelete_loop rows w2).2)
       = deleted_in (calls w) ++ delete_subject_requests (pool w)
         ++ map fst ((subject, values) :: rows))).
    { intros w2 Hsize Htoken Hkept.
      destruct (IH w2) as [Hfuel Hreturn].
      split; [exact Hfuel|]. intros Hr.
      destruct (Hreturn Hr) as (Hs & Ht & Hd).
      split.
      { intros _. destruct rows as [|row rows']; [|by apply Hs].
        exact Hsize. }
      split; [congruence|].
      rewrite Hd, app_assoc, Hkept. cbn [map fst]. by rewrite <- !app_assoc. }
    destruct (50000 <? MutationPool.Size queued) eqn:Hfull.
    + rewrite pool_Flush_run. change (pool w1) with queued.
      destruct (perform_spec (Flush_calls queued) w1)
        as (issued & Hpre & Hissued & Hall & Hfuel & _).
      destruct (perform (Flush_calls queued) w1) as [[[]|e|] w2] eqn:Hflush;
        cbn [fst snd] in *; [|by split|done].
      apply Htail.
      * unfold MutationPool.Size, MutationPool.__init__. cbn. lia.
      * reflexivity.
      * cbn [pool set_pool calls MutationPool.__init__
             delete_subject_requests].
        rewrite app_nil_r.
        assert (Hcalls : calls (set_pool (MutationPool.__init__ (token queued))
                                  w2) = calls w2) by by destruct w2.
        rewrite ?Hcalls, Hissued, (Hall eq_refl), deleted_in_app.
        by rewrite deleted_in_Flush_calls, Hqueued.
    + cbn [mret M_ret]. cbn beta iota. apply Htail.
      * apply Z.ltb_ge in Hfull. exact Hfull.
      * reflexivity.
      * change (pool w1) with queued. change (calls w1) with (calls w).
        by rewrite Hqueued.
Qed.

(** X20. [CollectionDelete] loses no subject and keeps the pool small:
    when the scan returns rows that all hold the value of an item and the
    deletion returns, every subject of the scan has been handed to
    [DeleteSubjects] in a flush or is queued in the pool, next to what was
    deleted and queued before, in the order of the scan; and after a scan
    that is not empty the pool holds 50000 requests at most, for it is
    flushed whenever it holds more. *)
Theorem CollectionDelete_conserves (collection_id : string)
  (rows : list (string * gmap string (Z * string))) (w w1 : World Store) :
  StoreMethods.ScanAttributes (DataStore.RDFURN_Add collection_id "Results")
    [StoreMethods.COLLECTION_ATTRIBUTE] None None (token (pool w)) false w
  = (Return rows, w1) →
  Forall (λ row : string * gmap string (Z * string),
            is_Some (row.2 !! StoreMethods.COLLECTION_ATTRIBUTE)) rows →
  let run := PoolMethods.CollectionDelete collection_id w in
  run.1 ≠ OutOfFuel ∧
  (run.1 = Return tt →
   (rows ≠ [] → MutationPool.Size (pool run.2) ≤ 50000) ∧
   token (pool run.2) = token (pool w) ∧
   deleted_in (calls run.2) ++ delete_subject_requests (pool run.2)
   = deleted_in (calls w) ++ delete_subject_requests (pool w)
     ++ map fst rows).
Proof.
  intros Hscan Hrows run.
  assert (Hw1 : pool w1 = pool w ∧ calls w1 = calls w).
  { unfold StoreMethods.ScanAttributes, backend in Hscan.
    destruct (abstract_ScanAttributes _ _ _ _ _ _ _) as [[e|a] s];
      injection Hscan as _ <-; by split. }
  destruct Hw1 as [Hpool Hcalls].
  assert (Hrun : run = PoolMethods.CollectionDelete_loop rows w1).
  { subst run. unfold PoolMethods.CollectionDelete.
    rewrite bind_run. cbn [get_pool fst snd].
    by rewrite bind_run, Hscan. }
  rewrite Hrun, <- Hpool, <- Hcalls.
  apply (CollectionDelete_loop_spec rows w1 Hrows).
Qed.

End RecordExtras.

(** ** The operations at work on the small backend *)

Section Runs.
Import Toy.

Lemma pool_Flush_order_witness :
  (perform (Flush_calls toy_pool) (toy_world (toy_store []) toy_pool)).1
  = Return tt ∧
  (MutationPool.Flush (toy_world (toy_store []) toy_pool)).1 = Return tt ∧
  calls (MutationPool.Flush (toy_world (toy_store []) toy_pool)).2
  = [CallDeleteSubjects ["aff4:/a"; "aff4:/b"] false
       (Some {| username := "user" |});
     CallDeleteSubject "aff4:/a" false (Some {| username := "user" |});
     CallDeleteSubject "aff4:/b" false (Some {| username := "user" |});
     CallDeleteAttributes "aff4:/d" ["y"] None None false
       (Some {| username := "user" |});
     CallMultiSet "aff4:/c" {["x" := [("1", None)]]} (Some 5) true None false
       (Some {| username := "user" |});
     CallFlush;
     CallCreateNotifications "aff4:/W"
       [{| rdf_flows.session_id := "aff4:/flows/F:1";
           rdf_flows.timestamp := 9;
           rdf_flows.notification_args := "n" |}]
       (Some {| username := "user" |});
     CallMultiSet "aff4:/W"
       {["notify:aff4:/flows/F:1" := [("n", Some 9)]]} None false None true
       (Some {| username := "user" |})]%string.
Proof.
  assert (Hperform :
    (perform (Flush_calls toy_pool) (toy_world (toy_store []) toy_pool)).1
    = Return tt) by (vm_compute; reflexivity).
  destruct (pool_Flush_order (toy_world (toy_store []) toy_pool))
    as (issued & Hcalls & _ & Hall & Hreturns & _).
  split; [exact Hperform|]. split; [exact (Hreturns Hperform)|].
  rewrite Hcalls, (Hall (Hreturns Hperform)). vm_compute. reflexivity.
Defined.

Lemma CollectionMakeURN_format_witness :
  0 ≤ 1500000000000000 < 2 ^ 64 ∧
  ∃ hex_ts hex_suffix chosen,
    DataStore.CollectionMakeURN 41 "aff4:/C" 1500000000000000 None None
    = (("aff4:/C" +:+ "/" +:+ "Results")
       +:+ "/" +:+ (hex_ts +:+ "." +:+ hex_suffix),
       1500000000000000, chosen) ∧
    String.length hex_ts = 16%nat ∧ int16 hex_ts = Some 1500000000000000 ∧
    String.length hex_suffix = 6%nat ∧ int16 hex_suffix = Some chosen ∧
    (@None Z = None → 1 ≤ chosen ≤ 0xffffff) ∧
    (∀ s, None = Some s → chosen = s).
Proof.
  split; [lia|].
  apply (CollectionMakeURN_format 41 "aff4:/C" 1500000000000000 None None).
  - lia.
  - intros s Hs. discriminate Hs.
Defined.

Lemma ResolvePrefix_sorted_by_attribute_witness :
  ∃ rows w1,
    DataStore.MultiResolvePrefix ["aff4:/S"%string] "" ALL_TIMESTAMPS None None
      (called (CallResolvePrefix "aff4:/S" "" ALL_TIMESTAMPS None None)
         unsorted_row).2
    = (Return rows, w1) ∧
    ∃ result,
      DataStore.ResolvePrefix "aff4:/S" "" ALL_TIMESTAMPS None None
        unsorted_row = (Return result, w1) ∧
      result = [("a", "2", 2); ("b", "1", 1); ("b", "3", 0)]%string ∧
      Permutation result (first_values rows) ∧
      StronglySorted (λ a b : cell, String.leb a.1.1 b.1.1 = true) result.
Proof.
  run_to Hrows
    (DataStore.MultiResolvePrefix ["aff4:/S"%string] "" ALL_TIMESTAMPS None
       None
       (called (CallResolvePrefix "aff4:/S" "" ALL_TIMESTAMPS None None)
          unsorted_row).2).
  eexists _, _. split; [exact Hrows|].
  destruct (ResolvePrefix_sorted_by_attribute _ _ _ _ _ _ _ _ Hrows)
    as (result & Hrun & Hperm & Hsorted & _).
  exists result. split; [exact Hrun|]. split; [|by split].
  assert (Hresult :
    (DataStore.ResolvePrefix "aff4:/S" "" ALL_TIMESTAMPS None None
       unsorted_row).1
    = Return [("a", "2", 2); ("b", "1", 1); ("b", "3", 0)]%string)
    by (vm_compute; reflexivity).
  rewrite Hrun in Hresult. by injection Hresult.
Defined.

Lemma with_pool_flushes_once_witness :
  (failing_block (toy_world (toy_store []) (MutationPool.__init__ None))).1
  ≠ OutOfFuel ∧
  (MutationPool.with_ failing_block
     (toy_world (toy_store []) (MutationPool.__init__ None))).1
  = Raise (OtherException "ValueError") ∧
  MutationPool.Size
    (pool (MutationPool.with_ failing_block
             (toy_world (toy_store []) (MutationPool.__init__ None))).2) = 0 ∧
  calls (MutationPool.with_ failing_block
           (toy_world (toy_store []) (MutationPool.__init__ None))).2
  = [CallDeleteSubjects ["aff4:/x"] false None;
     CallDeleteSubject "aff4:/x" false None;
     CallFlush]%string.
Proof.
  assert (Hbody :
    (failing_block (toy_world (toy_store []) (MutationPool.__init__ None))).1
    ≠ OutOfFuel) by (vm_compute; discriminate).
  destruct (with_pool_flushes_once failing_block
              (toy_world (toy_store []) (MutationPool.__init__ None)) Hbody)
    as (Hworld & Hresult & Hsize).
  split; [exact Hbody|]. split; [|split].
  - rewrite Hresult. vm_compute. reflexivity.
  - rewrite Hworld. apply Hsize. vm_compute. reflexivity.
  - rewrite Hworld. vm_compute. reflexivity.
Defined.

Lemma LockRetryWrapper_spec_witness :
  (∃ wk lock w',
     contended 2 "aff4:/Q" (Some 30) None 1
       (called (CallLockRetryWrapper "aff4:/Q" 1 10 true (Some 30) None)
          contended_twice).2 = Some wk ∧
     DataStore.DBSubjectLock "aff4:/Q" (Some 30) None wk = (Return lock, w') ∧
     DataStore.LockRetryWrapper 10 "aff4:/Q" 1 None 10 true (Some 30)
       contended_twice = (Return lock, w') ∧
     slept w' = [1; 1]) ∧
  (∃ wk,
     contended 10 "aff4:/Q" (Some 30) None 1
       (called (CallLockRetryWrapper "aff4:/Q" 1 10 true (Some 30) None)
          contended_forever).2 = Some wk ∧
     DataStore.LockRetryWrapper 10 "aff4:/Q" 1 None 10 true (Some 30)
       contended_forever
     = (Raise (DBSubjectLockError "Retry number exceeded."),
        (IncrementCounter "grr_commit_failure" wk).2) ∧
     slept wk = [1; 1; 1; 1; 1; 1; 1; 1; 1; 1]) ∧
  (∃ m w1,
     DataStore.DBSubjectLock "aff4:/Q" (Some 30) None
       (called (CallLockRetryWrapper "aff4:/Q" 1 10 false (Some 30) None)
          contended_forever).2 = (Raise (DBSubjectLockError m), w1) ∧
     DataStore.LockRetryWrapper 10 "aff4:/Q" 1 None 10 false (Some 30)
       contended_forever = (Raise (DBSubjectLockError m), w1) ∧
     slept w1 = []).
Proof.
  destruct (LockRetryWrapper_spec "aff4:/Q" 1 None 10 (Some 30)
              contended_twice) as (Hsuccess & _).
  destruct (LockRetryWrapper_spec "aff4:/Q" 1 None 10 (Some 30)
              contended_forever) as (_ & Hexhausted & Hnonblocking & _).
  split; [|split].
  - run_to Hk
      (contended 2 "aff4:/Q" (Some 30) None 1
         (called (CallLockRetryWrapper "aff4:/Q" 1 10 true (Some 30) None)
            contended_twice).2).
    match type of Hk with
    | _ = Some ?wk =>
        run_to Hlock (DataStore.DBSubjectLock "aff4:/Q" (Some 30) None wk)
    end.
    eexists _, _, _. split; [exact Hk|]. split; [exact Hlock|].
    apply (Hsuccess 2%nat 10%nat _ _ _ Hk); [|exact Hlock|lia].
    intros j Hj. lia.
  - run_to Hk
      (contended 10 "aff4:/Q" (Some 30) None 1
         (called (CallLockRetryWrapper "aff4:/Q" 1 10 true (Some 30) None)
            contended_forever).2).
    eexists. split; [exact Hk|].
    apply (Hexhausted 10%nat 10%nat _ Hk); [|lia|lia].
    intros j Hj. lia.
  - run_to Hlock
      (DataStore.DBSubjectLock "aff4:/Q" (Some 30) None
         (called (CallLockRetryWrapper "aff4:/Q" 1 10 false (Some 30) None)
            contended_forever).2).
    eexists _, _. split; [exact Hlock|].
    destruct (Hnonblocking 10%nat _ _ ltac:(lia) Hlock ltac:(lia))
      as (Hrun & Hslept & _).
    split; [exact Hrun|exact Hslept].
Defined.

Lemma QueueQueryAndOwn_swallows_and_Flush_propagates_witness :
  (∃ m w1,
     DataStore.LockRetryWrapper 10 "aff4:/Q" 1 None 10 true (Some 30)
       contended_forever = (Raise (DBSubjectLockError m), w1) ∧
     MutationPool.QueueQueryAndOwn "aff4:/Q" 30 10 None contended_forever
     = (Return [], w1)) ∧
  (∃ lock w1 m w2,
     DataStore.LockRetryWrapper 10 "aff4:/Q" 1 None 10 true (Some 30)
       broken_reads = (Return lock, w1) ∧
     MutationPool._QueueQueryAndOwn (lock_subject lock) 30 10 "" None w1
     = (Raise (Error m), w2) ∧
     MutationPool.QueueQueryAndOwn "aff4:/Q" 30 10 None broken_reads
     = (Return [],
        set_logged (logged w2 ++ [(WARNING, "Datastore exception: " +:+ m)])
          w2) ∧
     m = "backend unavailable"%string) ∧
  (perform (Flush_calls (pool broken_writes)) broken_writes).1
  = Raise (Error "backend unavailable") ∧
  (MutationPool.Flush broken_writes).1 = Raise (Error "backend unavailable") ∧
  pool (MutationPool.Flush broken_writes).2 = pool broken_writes.
Proof.
  destruct (@QueueQueryAndOwn_swallows_and_Flush_propagates ToyStore _ _)
    as (Hswallow & Hpropagate).
  split; [|split].
  - run_to Hlock
      (DataStore.LockRetryWrapper 10 "aff4:/Q" 1 None 10 true (Some 30)
         contended_forever).
    eexists _, _. split; [exact Hlock|].
    destruct (Hswallow "aff4:/Q"%string 30 10 None contended_forever)
      as (Hcontended & _).
    cbv zeta in Hcontended. cbn [pool contended_forever toy_world] in Hcontended.
    cbn [token MutationPool.__init__] in Hcontended.
    rewrite Hlock in Hcontended. exact (Hcontended _ eq_refl).
  - run_to Hlock
      (DataStore.LockRetryWrapper 10 "aff4:/Q" 1 None 10 true (Some 30)
         broken_reads).
    match type of Hlock with
    | _ = (Return ?lock, ?w1) =>
        run_to Hclaim
          (MutationPool._QueueQueryAndOwn (lock_subject lock) 30 10 "" None w1)
    end.
    eexists _, _, _, _. split; [exact Hlock|]. split; [exact Hclaim|].
    split; [|reflexivity].
    destruct (Hswallow "aff4:/Q"%string 30 10 None broken_reads)
      as (_ & _ & Herror).
    cbv zeta in Herror. cbn [pool broken_reads toy_world] in Herror.
    cbn [token MutationPool.__init__] in Herror.
    rewrite Hlock in Herror.
    destruct (Herror _ eq_refl) as (_ & Hwarn).
    cbn [fst snd] in Hwarn. rewrite Hclaim in Hwarn.
    exact (Hwarn _ eq_refl).
  - assert (Hraise :
      (perform (Flush_calls (pool broken_writes)) broken_writes).1
      = Raise (Error "backend unavailable")) by (vm_compute; reflexivity).
    split; [exact Hraise|]. exact (Hpropagate broken_writes _ Hraise).
Defined.

Lemma queue_reads_sorted_by_priority_witness :
  (∃ cells w1 parsed,
     DataStore.ResolvePrefix "aff4:/Q" "task:" ALL_TIMESTAMPS None None
       three_tasks = (Return cells, w1) ∧
     tasks_of_cells cells = Some parsed ∧
     0 ≤ 2 ∧
     DataStore.QueueQueryTasks "aff4:/Q" 2 None three_tasks
     = (Return (take 2 (DataStore.sort_by_priority parsed)), w1) ∧
     map rdf_flows.priority (take 2 (DataStore.sort_by_priority parsed))
     = [10; 5] ∧
     map rdf_flows.eta (take 2 (DataStore.sort_by_priority parsed))
     = [10; 10]) ∧
  (∃ rows w1 tasks,
     DataStore.MultiResolvePrefix ["aff4:/Q"%string] "task:" ALL_TIMESTAMPS
       None None three_tasks = (Return rows, w1) ∧
     Forall (λ row : string * list cell, is_Some (tasks_of_cells row.2))
       rows ∧
     DataStore.QueueMultiQuery ["aff4:/Q"%string] None three_tasks
     = (Return tasks, w1) ∧
     map rdf_flows.priority <$> tasks !! "aff4:/Q"%string = Some [10; 5; 1]).
Proof.
  destruct (@queue_reads_sorted_by_priority ToyStore _ _) as (Hone & Hmany).
  split.
  - run_to Hcells
      (DataStore.ResolvePrefix "aff4:/Q" "task:" ALL_TIMESTAMPS None None
         three_tasks).
    match type of Hcells with
    | _ = (Return ?cells, _) => run_to Hparsed (tasks_of_cells cells)
    end.
    eexists _, _, _. split; [exact Hcells|]. split; [exact Hparsed|].
    split; [lia|].
    destruct (Hone _ 2 _ _ _ _ _ Hcells Hparsed ltac:(lia)) as (Hrun & _).
    split; [exact Hrun|]. split; vm_compute; reflexivity.
  - run_to Hrows
      (DataStore.MultiResolvePrefix ["aff4:/Q"%string] "task:" ALL_TIMESTAMPS
         None None three_tasks).
    match type of Hrows with
    | _ = (Return ?rows, _) =>
        assert (Hparse :
          Forall (λ row : string * list cell, is_Some (tasks_of_cells row.2))
            rows)
          by (repeat constructor; vm_compute; eexists; reflexivity)
    end.
    destruct (Hmany _ _ _ _ _ Hrows Hparse) as (tasks & Hrun & _).
    eexists _, _, tasks. split; [exact Hrows|]. split; [exact Hparse|].
    split; [exact Hrun|].
    assert (Hresult :
      (map rdf_flows.priority <$>
       default ∅
         (match (DataStore.QueueMultiQuery ["aff4:/Q"%string] None
                   three_tasks).1 with
          | Return tasks => Some tasks
          | _ => None
          end) !! "aff4:/Q"%string) = Some [10; 5; 1])
      by (vm_compute; reflexivity).
    rewrite Hrun in Hresult. exact Hresult.
Defined.

Lemma GetNotifications_spec_witness :
  ∃ cells w1,
    DataStore.ResolvePrefix "aff4:/W" "notify:" (TimestampRange 0 100)
      (Some 10000) None two_notifications = (Return cells, w1) ∧
    (DataStore.GetNotifications "aff4:/W" 100 10000 None two_notifications).1
    = Return [{| rdf_flows.session_id := "aff4:/flows/F:1";
                 rdf_flows.timestamp := 5;
                 rdf_flows.notification_args := "fine" |}] ∧
    calls (DataStore.GetNotifications "aff4:/W" 100 10000 None
             two_notifications).2
    = [CallResolvePrefix "aff4:/W" "notify:" (TimestampRange 0 100)
         (Some 10000) None;
       CallMultiResolvePrefix ["aff4:/W"] "notify:" (TimestampRange 0 100)
         (Some 10000) None;
       CallDeleteAttributes "aff4:/W" ["notify:aff4:/flows/F:2"] (Some 6)
         (Some 6) true None]%string.
Proof.
  run_to Hcells
    (DataStore.ResolvePrefix "aff4:/W" "notify:" (TimestampRange 0 100)
       (Some 10000) None two_notifications).
  eexists _, _. split; [exact Hcells|].
  destruct (GetNotifications_spec "aff4:/W" 100 10000 None two_notifications
              _ _ Hcells) as (Hresult & _ & Hcalls & _).
  split.
  - rewrite Hresult. vm_compute. reflexivity.
  - rewrite Hcalls. vm_compute. reflexivity.
Defined.

Lemma IndexReadPostingLists_spec_witness :
  ∃ rows w1 result last_seen_map',
    DataStore.MultiResolvePrefix
      (map_to_list
         (DataStore.keyword_urns_of "aff4:/I" ["ssh"; "linux"; "mac"])).*1
      "kw_index:" (TimestampRange 0 (100 + 1)) None None alice_index
    = (Return rows, w1) ∧
    Forall (λ row : string * list cell,
              row.2 = [] ∨
              is_Some (DataStore.keyword_urns_of "aff4:/I"
                         ["ssh"; "linux"; "mac"] !! row.1)) rows ∧
    DataStore.IndexReadPostingLists "aff4:/I" ["ssh"; "linux"; "mac"] 0 100
      (Some {[("ssh", "alice") := 7]}) None alice_index
    = (Return (result, last_seen_map'), w1) ∧
    result !! "ssh"%string = Some {["alice"%string]} ∧
    result !! "linux"%string = Some {["alice"%string]} ∧
    result !! "mac"%string = Some ∅ ∧
    result !! "bsd"%string = None ∧
    ∃ m',
      last_seen_map' = Some m' ∧
      m' !! ("ssh", "alice")%string = Some 7 ∧
      m' !! ("linux", "alice")%string = Some 4 ∧
      m' !! ("mac", "alice")%string = None.
Proof.
  run_to Hrows
    (DataStore.MultiResolvePrefix
       (map_to_list
          (DataStore.keyword_urns_of "aff4:/I" ["ssh"; "linux"; "mac"])).*1
       "kw_index:" (TimestampRange 0 (100 + 1)) None None alice_index).
  match type of Hrows with
  | _ = (Return ?rows, _) =>
      assert (Hknown :
        Forall (λ row : string * list cell,
                  row.2 = [] ∨
                  is_Some (DataStore.keyword_urns_of "aff4:/I"
                             ["ssh"; "linux"; "mac"] !! row.1)) rows)
        by (constructor; [right; vm_compute; eexists; reflexivity|];
            constructor; [right; vm_compute; eexists; reflexivity|];
            constructor)
  end.
  destruct (IndexReadPostingLists_spec "aff4:/I" ["ssh"; "linux"; "mac"]%string
              0 100 (Some {[("ssh", "alice")%string := 7]}) None alice_index
              _ _ Hrows Hknown)
    as (result & last_seen_map' & Hrun & Hin & Hout & _ & _ & _ & _ & m'
        & Hseen & Hstamps).
  eexists _, _, result, last_seen_map'.
  split; [exact Hrows|]. split; [exact Hknown|]. split; [exact Hrun|].
  split; [rewrite Hin by (repeat constructor); vm_compute; reflexivity|].
  split; [rewrite Hin by (repeat constructor); vm_compute; reflexivity|].
  split; [rewrite Hin by (repeat constructor); vm_compute; reflexivity|].
  split.
  { apply Hout. intros Hbsd. apply list_elem_of_In in Hbsd. simpl in Hbsd.
    intuition discriminate. }
  exists m'. split; [exact Hseen|].
  rewrite !Hstamps. vm_compute. repeat split; reflexivity.
Defined.

Lemma QueueQueryAndOwn_decrements_ttl_witness :
  ∃ cells w1 claims w',
    DataStore.ResolvePrefix "aff4:/Q" "task:" (TimestampRange 0 1000) None
      None three_tasks = (Return cells, w1) ∧
    Forall (λ c : cell, is_Some (GrrMessage_FromSerializedString c.1.2))
      cells ∧
    MutationPool._QueueQueryAndOwn "aff4:/Q" 30 10 "user" None three_tasks
    = (Return (List.filter (λ task, negb (ttl_expired task)) claims), w') ∧
    GetCounter "grr_task_ttl_expired_count" w'
    = GetCounter "grr_task_ttl_expired_count" three_tasks
      + count_if ttl_expired claims ∧
    GetCounter "grr_task_retransmission_count" w'
    = GetCounter "grr_task_retransmission_count" three_tasks
      + count_if retransmitted claims ∧
    map rdf_flows.task_ttl (List.filter (λ task, negb (ttl_expired task)) claims)
    = [4; 3] ∧
    GetCounter "grr_task_ttl_expired_count" w' = 1 ∧
    GetCounter "grr_task_retransmission_count" w' = 1 ∧
    set_requests (pool w')
    = [("aff4:/Q"%string,
        {["task:00000001"%string := [("5tttt"%string, None)];
          "task:00000002"%string := [(":ttt"%string, None)]]},
        Some 30001000, true, Some {["task:00000003"%string]})].
Proof.
  destruct (@QueueQueryAndOwn_decrements_ttl ToyStore _ _) as (_ & Hloop).
  run_to Hcells
    (DataStore.ResolvePrefix "aff4:/Q" "task:" (TimestampRange 0 1000) None
       None three_tasks).
  match type of Hcells with
  | _ = (Return ?cells, _) =>
      assert (Hparse :
        Forall (λ c : cell, is_Some (GrrMessage_FromSerializedString c.1.2))
          cells)
        by (repeat (constructor; [vm_compute; eexists; reflexivity|]);
            constructor)
  end.
  destruct (Hloop "aff4:/Q"%string 30 10 "user"%string None three_tasks _ _
              Hcells Hparse)
    as (visited & rest & claims & values & w' & _ & _ & _ & Hrun & Hexp
        & Hret & _).
  eexists _, _, claims, w'.
  split; [exact Hcells|]. split; [exact Hparse|]. split; [exact Hrun|].
  split; [exact Hexp|]. split; [exact Hret|].
  assert (Hkept :
    map rdf_flows.task_ttl
      (match (MutationPool._QueueQueryAndOwn "aff4:/Q" 30 10 "user" None
                three_tasks).1 with
       | Return kept => kept
       | _ => []
       end) = [4; 3]) by (vm_compute; reflexivity).
  assert (Hexpired :
    GetCounter "grr_task_ttl_expired_count"
      (MutationPool._QueueQueryAndOwn "aff4:/Q" 30 10 "user" None
         three_tasks).2 = 1) by (vm_compute; reflexivity).
  assert (Hretransmitted :
    GetCounter "grr_task_retransmission_count"
      (MutationPool._QueueQueryAndOwn "aff4:/Q" 30 10 "user" None
         three_tasks).2 = 1) by (vm_compute; reflexivity).
  assert (Hrequests :
    set_requests
      (pool (MutationPool._QueueQueryAndOwn "aff4:/Q" 30 10 "user" None
               three_tasks).2)
    = [("aff4:/Q"%string,
        {["task:00000001"%string := [("5tttt"%string, None)];
          "task:00000002"%string := [(":ttt"%string, None)]]},
        Some 30001000, true, Some {["task:00000003"%string]})])
    by (vm_compute; reflexivity).
  rewrite Hrun in Hkept, Hexpired, Hretransmitted, Hrequests.
  split; [exact Hkept|]. split; [exact Hexpired|].
  split; [exact Hretransmitted|exact Hrequests].
Defined.

(** C1, as the claim states it, fails on a fresh task: its [task_ttl]
    before the decrement is [max_ttl = 5], which differs from
    [max_ttl - 1], the task is returned, and yet
    [grr_task_retransmission_count] is not incremented. *)
Lemma QueueQueryAndOwn_fresh_task_counterexample :
  ∃ task,
    (MutationPool._QueueQueryAndOwn "aff4:/Q" 30 10 "user" None fresh_queue).1
    = Return [task] ∧
    rdf_flows.task_ttl <$> GrrMessage_FromSerializedString "5ttttt" = Some 5 ∧
    rdf_flows.task_ttl task = 5 - 1 ∧
    ¬ (GetCounter "grr_task_retransmission_count"
         (MutationPool._QueueQueryAndOwn "aff4:/Q" 30 10 "user" None
            fresh_queue).2
       = GetCounter "grr_task_retransmission_count" fresh_queue + 1
       ↔ 5 ≠ GrrMessage_max_ttl - 1).
Proof.
  eexists. split; [vm_compute; reflexivity|].
  split; [vm_compute; reflexivity|]. split; [vm_compute; reflexivity|].
  intros [_ Hclaim].
  assert (Hcount :
    GetCounter "grr_task_retransmission_count"
      (MutationPool._QueueQueryAndOwn "aff4:/Q" 30 10 "user" None
         fresh_queue).2 = 0) by (vm_compute; reflexivity).
  rewrite Hcount in Hclaim.
  assert (Hdiffers : 5 ≠ GrrMessage_max_ttl - 1) by (vm_compute; discriminate).
  specialize (Hclaim Hdiffers). vm_compute in Hclaim. discriminate Hclaim.
Qed.

End Runs.

(** ** The further methods at work on the small backend *)

Import Toy MoreToy.

Lemma pool_buffers_until_Flush_witness :
  (for_each sample_ops run_op empty_world).1 = Return tt ∧
  calls (for_each sample_ops run_op empty_world).2 = [] ∧
  MutationPool.Size (pool (for_each sample_ops run_op empty_world).2) = 2.
Proof.
  destruct (pool_buffers_until_Flush sample_ops empty_world)
    as (Hreturn & _ & Hcalls & _ & _ & Hsize).
  split; [exact Hreturn|]. split; [exact Hcalls|].
  rewrite Hsize. reflexivity.
Defined.

Lemma Flush_after_buffering_witness :
  pool empty_world = MutationPool.__init__ None ∧
  ((for_each sample_ops run_op;; MutationPool.Flush) empty_world).1
  = Return tt ∧
  calls ((for_each sample_ops run_op;; MutationPool.Flush) empty_world).2
  = [CallDeleteSubjects ["aff4:/s"] false None;
     CallDeleteSubject "aff4:/s" false None;
     CallMultiSet "aff4:/s" {["a" := [("1", None)]]} None true None false None;
     CallFlush;
     CallCreateNotifications "aff4:/W" three_notifications None;
     CallMultiSet "aff4:/W"
       (DataStore.notification_values three_notifications) None false None
       true None]%string.
Proof.
  split; [reflexivity|].
  destruct (Flush_after_buffering None sample_ops empty_world eq_refl)
    as (issued & Hcalls & _ & Hall & Hreturns & _).
  assert (Hreturn :
    ((for_each sample_ops run_op;; MutationPool.Flush) empty_world).1
    = Return tt) by (apply Hreturns; vm_compute; reflexivity).
  split; [exact Hreturn|].
  rewrite Hcalls. destruct (Hall Hreturn) as [-> _]. reflexivity.
Defined.

Lemma Flush_of_Size_zero_witness :
  MutationPool.Size (pool (toy_world (toy_store []) notifying_pool)) = 0 ∧
  (CallFlush
   ∉ calls (MutationPool.Flush (toy_world (toy_store []) notifying_pool)).2) ∧
  length (calls (MutationPool.Flush
                   (toy_world (toy_store []) notifying_pool)).2) = 3%nat.
Proof.
  split; [reflexivity|].
  destruct (Flush_of_Size_zero (toy_world (toy_store []) notifying_pool)
              eq_refl)
    as [(issued & Hcalls & _ & Hall & Hnone) _].
  split; [by rewrite Hcalls|].
  rewrite Hcalls, Hall by (vm_compute; reflexivity). reflexivity.
Defined.

Lemma QueueTaskIdToColumn_injective_witness :
  0 ≤ 7 ∧ 0 ≤ 3 + 4 ∧
  StoreMethods.QueueTaskIdToColumn 7 = "task:00000007"%string ∧
  StoreMethods.QueueTaskIdToColumn 7 = StoreMethods.QueueTaskIdToColumn (3 + 4)
  ∧ 7 = 3 + 4.
Proof.
  split; [lia|]. split; [lia|]. split; [reflexivity|].
  split; [reflexivity|].
  apply (QueueTaskIdToColumn_injective 7 (3 + 4)); [lia|lia|reflexivity].
Defined.

Lemma CollectionMakeURN_order_preserving_witness :
  0 ≤ 5 < 2 ^ 64 ∧ 0 ≤ 9 ≤ 0xffffff ∧ 0 ≤ 10 ≤ 0xffffff ∧
  String.compare
    (DataStore.CollectionMakeURN 0 "aff4:/C" 5 (Some 10) None).1.1
    (DataStore.CollectionMakeURN 0 "aff4:/C" 5 (Some 9) None).1.1
  = Gt.
Proof.
  split; [lia|]. split; [lia|]. split; [lia|].
  rewrite (CollectionMakeURN_order_preserving 0 0 "aff4:/C" None 5 5 10 9)
    by lia.
  reflexivity.
Defined.

Lemma CollectionScanItems_reads_added_items_witness :
  StoreMethods.CollectionScanItems_loop toy_items
    [("aff4:/C/Results/0000000000000001.00000a",
      {["aff4:sequential_value" := (1, "x")]});
     ("aff4:/C/Results/0000000000000002.000005",
      {["aff4:sequential_value" := (2, "y")]})]%string
    empty_world
  = (Return [("x", 1, 10); ("y", 2, 5)]%string, empty_world).
Proof.
  destruct (CollectionScanItems_reads_added_items toy_items "aff4:/C"
              [(0, "x", 1, Some 10); (4, "y", 2, None)]%string empty_world)
    as [_ Hscan].
  - constructor; [split; [reflexivity|intros s [= <-]; lia]|].
    constructor; [split; [reflexivity|discriminate]|]. constructor.
  - exact Hscan.
Defined.

Lemma CollectionReadIndex_reads_added_index_witness :
  Forall (λ e : Z * Z * Z, 0 ≤ e.1.1 ∧ 0 ≤ e.2)
    [(0, 100, 7); (255, 200, 16777215)] ∧
  map index_cell [(0, 100, 7); (255, 200, 16777215)]
  = [("index:sc_00000000", "000007", 100);
     ("index:sc_000000ff", "ffffff", 200)]%string ∧
  StoreMethods.CollectionReadIndex_loop
    [("index:sc_00000000", "000007", 100);
     ("index:sc_000000ff", "ffffff", 200)]%string empty_world
  = (Return [(0, 100, 7); (255, 200, 16777215)], empty_world).
Proof.
  assert (Hentries : Forall (λ e : Z * Z * Z, 0 ≤ e.1.1 ∧ 0 ≤ e.2)
                       [(0, 100, 7); (255, 200, 16777215)]).
  { repeat constructor; cbn; lia. }
  split; [exact Hentries|]. split; [reflexivity|].
  destruct (CollectionReadIndex_reads_added_index "aff4:/C"
              [(0, 100, 7); (255, 200, 16777215)] empty_world empty_world
              Hentries) as (_ & _ & Hread).
  exact Hread.
Defined.

Lemma CollectionScanItems_after_urn_bounds_witness :
  StoreMethods.CollectionScanItems_after_urn "aff4:/C" (Some 0) (Some 3)
  = None ∧
  0 < 5 < 2 ^ 64 ∧
  ∃ after_urn,
    StoreMethods.CollectionScanItems_after_urn "aff4:/C" (Some 5) (Some 0)
    = Some after_urn ∧
    String.compare after_urn
      (DataStore.CollectionMakeURN 0 "aff4:/C" 5 (Some 0xffffff) None).1.1
    = Eq ∧
    String.compare after_urn
      (DataStore.CollectionMakeURN 0 "aff4:/C" 6 (Some 0) None).1.1
    = Lt.
Proof.
  destruct (CollectionScanItems_after_urn_bounds "aff4:/C" (Some 0) (Some 3))
    as [Hnone _].
  split; [apply Hnone; by right|]. split; [lia|].
  destruct (CollectionScanItems_after_urn_bounds "aff4:/C" (Some 5) (Some 0))
    as [_ Hsome].
  destruct (Hsome 5 eq_refl ltac:(lia) ltac:(vm_compute; split; discriminate))
    as (after_urn & Hurn & Hcompare).
  exists after_urn. split; [exact Hurn|].
  rewrite !Hcompare by lia. split; reflexivity.
Defined.

Lemma notification_values_last_wins_witness :
  DataStore.notification_values three_notifications
    !! "notify:aff4:/flows/F:1"%string
  = Some [("last"%string, Some 3)] ∧
  is_Some (DataStore.notification_values three_notifications
             !! "notify:aff4:/flows/F:2"%string) ∧
  ∃ n, n ∈ three_notifications ∧
       "notify:aff4:/flows/F:2"%string
       = DataStore.NOTIFY_PREDICATE_TEMPLATE (rdf_flows.session_id n).
Proof.
  destruct (notification_values_last_wins three_notifications)
    as (Hlast & Hkeys & _).
  assert (Hsome : is_Some (DataStore.notification_values three_notifications
                             !! "notify:aff4:/flows/F:2"%string)).
  { change "notify:aff4:/flows/F:2"%string
      with (DataStore.NOTIFY_PREDICATE_TEMPLATE "aff4:/flows/F:2").
    rewrite Hlast. by eexists. }
  split; [|split; [exact Hsome|exact (Hkeys _ Hsome)]].
  change "notify:aff4:/flows/F:1"%string
    with (DataStore.NOTIFY_PREDICATE_TEMPLATE "aff4:/flows/F:1").
  rewrite Hlast. reflexivity.
Defined.

Lemma DeleteNotifications_calls_witness :
  (StoreMethods.DeleteNotifications ["aff4:/W1"; "aff4:/W2"]
     ["aff4:/flows/F:1"; "aff4:/flows/F:2"] (Some 0) (Some 9) None
     empty_world).1 = Return tt ∧
  calls (StoreMethods.DeleteNotifications ["aff4:/W1"; "aff4:/W2"]
           ["aff4:/flows/F:1"; "aff4:/flows/F:2"] (Some 0) (Some 9) None
           empty_world).2
  = [CallDeleteAttributes "aff4:/W1"
       ["notify:aff4:/flows/F:1"; "notify:aff4:/flows/F:2"] (Some 0) (Some 9)
       true None;
     CallDeleteAttributes "aff4:/W2"
       ["notify:aff4:/flows/F:1"; "notify:aff4:/flows/F:2"] (Some 0) (Some 9)
       true None]%string.
Proof.
  destruct (DeleteNotifications_calls ["aff4:/W1"; "aff4:/W2"]%string
              ["aff4:/flows/F:1"; "aff4:/flows/F:2"]%string (Some 0) (Some 9)
              None empty_world) as [Hrun _].
  rewrite Hrun. split; vm_compute; reflexivity.
Defined.

Lemma IndexAddKeywordsForName_calls_witness :
  (StoreMethods.IndexAddKeywordsForName "aff4:/I" "alice"
     ["ssh"; "linux"; "ssh"] None empty_world).1 = Return tt ∧
  length (calls (StoreMethods.IndexAddKeywordsForName "aff4:/I" "alice"
                   ["ssh"; "linux"; "ssh"] None empty_world).2) = 4%nat ∧
  CallMultiSet "aff4:/I/ssh" {["kw_index:alice" := [("", None)]]} (Some 1000)
    true None false None
  ∈ calls (StoreMethods.IndexAddKeywordsForName "aff4:/I" "alice"
             ["ssh"; "linux"; "ssh"] None empty_world).2.
Proof.
  destruct (IndexAddKeywordsForName_calls "aff4:/I" "alice"
              ["ssh"; "linux"; "ssh"]%string None empty_world)
    as (_ & Hin & Hrun & issued & Hcalls & _ & Hall & _).
  assert (Hreturn :
    (StoreMethods.IndexAddKeywordsForName "aff4:/I" "alice"
       ["ssh"; "linux"; "ssh"] None empty_world).1 = Return tt)
    by (rewrite Hrun; vm_compute; reflexivity).
  split; [exact Hreturn|]. rewrite Hcalls, (Hall Hreturn).
  split; [vm_compute; reflexivity|].
  apply elem_of_app. right. apply elem_of_cons. right.
  apply elem_of_app. left.
  apply (list_elem_of_fmap_2
           (λ keyword,
              CallMultiSet (DataStore._KeywordToURN "aff4:/I" keyword)
                {[StoreMethods._INDEX_COLUMN_FORMAT "alice" :=
                    [(""%string, None)]]}
                (Some (now empty_world)) true None false None)
           _ "ssh"%string).
  apply Hin. apply elem_of_cons. by left.
Defined.

Lemma IndexRemoveKeywordsForName_calls_witness :
  (StoreMethods.IndexRemoveKeywordsForName "aff4:/I" "alice" [] None
     empty_world).1 = Return tt ∧
  calls (StoreMethods.IndexRemoveKeywordsForName "aff4:/I" "alice" [] None
           empty_world).2
  = [CallDeleteSubjects [] false None] ∧
  length (calls (StoreMethods.IndexRemoveKeywordsForName "aff4:/I" "alice"
                   ["ssh"; "ssh"] None empty_world).2) = 3%nat.
Proof.
  destruct (IndexRemoveKeywordsForName_calls "aff4:/I" "alice" [] None
              empty_world) as (_ & _ & Hrun & _).
  destruct (IndexRemoveKeywordsForName_calls "aff4:/I" "alice"
              ["ssh"; "ssh"]%string None empty_world) as (_ & _ & Hrun2 & _).
  rewrite Hrun, Hrun2. repeat split; vm_compute; reflexivity.
Defined.

Lemma AFF4FetchChildren_sorted_witness :
  ∃ rows w1,
    DataStore.MultiResolvePrefix ["aff4:/D"%string] "index:dir/" ALL_TIMESTAMPS
      None None
      (called (CallResolvePrefix "aff4:/D" "index:dir/" ALL_TIMESTAMPS None
                 None) small_directory).2
    = (Return rows, w1) ∧
    Forall (λ c : cell, ∃ name, c.1.1 = "index:dir/" +:+ name)
      (first_values rows) ∧
    ∃ children,
      StoreMethods.AFF4FetchChildren "aff4:/D" ALL_TIMESTAMPS None None
        small_directory = (Return children, w1) ∧
      children = [("a", 1); ("b", 2)]%string ∧
      StronglySorted (λ a b : string * Z, String.leb a.1 b.1 = true) children.
Proof.
  run_to Hrows
    (DataStore.MultiResolvePrefix ["aff4:/D"%string] "index:dir/"
       ALL_TIMESTAMPS None None
       (called (CallResolvePrefix "aff4:/D" "index:dir/" ALL_TIMESTAMPS None
                  None) small_directory).2).
  eexists _, _. split; [exact Hrows|].
  assert (Hprefix :
    Forall (λ c : cell,
              ∃ name, c.1.1 = StoreMethods.AFF4_INDEX_DIR_PREFIX +:+ name)
      [("index:dir/b", "", 2); ("index:dir/a", "", 1)]%string).
  { constructor; [by exists "b"%string|].
    constructor; [by exists "a"%string|]. constructor. }
  split; [exact Hprefix|].
  destruct (AFF4FetchChildren_sorted _ _ _ _ _ _ _ Hrows Hprefix)
    as (children & Hrun & Hsorted & _).
  exists children. split; [exact Hrun|]. split; [|exact Hsorted].
  assert (Hchildren :
    (StoreMethods.AFF4FetchChildren "aff4:/D" ALL_TIMESTAMPS None None
       small_directory).1 = Return [("a", 1); ("b", 2)]%string)
    by (vm_compute; reflexivity).
  rewrite Hrun in Hchildren. cbn [fst] in Hchildren. congruence.
Defined.

Lemma LabelFetchAll_sorted_witness :
  (StoreMethods.LabelFetchAll "aff4:/D" None small_directory).1
  = Return ["blue"; "red"; "red"]%string ∧
  ∃ labels,
    (StoreMethods.LabelFetchAll "aff4:/D" None small_directory).1
    = Return labels ∧
    StronglySorted (λ a b, String.leb a b = true) labels.
Proof.
  split; [vm_compute; reflexivity|].
  destruct (LabelFetchAll_sorted "aff4:/D" None small_directory)
    as [_ Hlabels].
  assert (Hresolved :
    ∃ cells,
      (DataStore.ResolvePrefix "aff4:/D" StoreMethods.LABEL_ATTRIBUTE_PREFIX
         TimestampNone None None small_directory).1 = Return cells)
    by (eexists; vm_compute; reflexivity).
  destruct Hresolved as [cells Hcells]. rewrite Hcells in Hlabels.
  destruct Hlabels as (labels & Hrun & Hsorted & _).
  exists labels. by split.
Defined.

Lemma LockRetryWrapper_gives_up_witness :
  (0 ≤ 0 ∧
   DataStore.LockRetryWrapper 10 "aff4:/Q" 1 None 0 true None empty_world
   = (Raise (DBSubjectLockError "Retry number exceeded."),
      (IncrementCounter "grr_commit_failure"
         (called (CallLockRetryWrapper "aff4:/Q" 1 0 true None None)
            empty_world).2).2)) ∧
  (0 < 10 ∧
   ∃ w1,
     DataStore.DBSubjectLock "aff4:/Q" None None
       (called (CallLockRetryWrapper "aff4:/Q" 1 10 true None None)
          down_world).2
     = (Raise (Error "backend unavailable"), w1) ∧
     DataStore.LockRetryWrapper 10 "aff4:/Q" 1 None 10 true None down_world
     = (Raise (Error "backend unavailable"), w1) ∧
     slept w1 = []).
Proof.
  split.
  - split; [lia|].
    destruct (LockRetryWrapper_gives_up 10 "aff4:/Q" 1 None 0 true None
                empty_world) as [Hmax _].
    destruct (Hmax ltac:(lia)) as [Hrun _]. exact Hrun.
  - split; [lia|].
    run_to Hlock
      (DataStore.DBSubjectLock "aff4:/Q" None None
         (called (CallLockRetryWrapper "aff4:/Q" 1 10 true None None)
            down_world).2).
    eexists. split; [exact Hlock|].
    destruct (LockRetryWrapper_gives_up 10 "aff4:/Q" 1 None 10 true None
                down_world) as [_ Hother].
    destruct (Hother _ _ ltac:(lia) ltac:(lia) Hlock eq_refl)
      as (Hrun & Hslept & _).
    split; [exact Hrun|]. rewrite Hrun in Hslept. exact Hslept.
Defined.

Lemma LockRetryWrapper_sleep_bounded_witness :
  0 < 3 ∧ 0 ≤ 10 ∧
  slept (DataStore.LockRetryWrapper 20 "aff4:/Q" 3 None 10 true None
           contended_forever).2 = [3; 3; 3; 3] ∧
  ∃ k : nat,
    slept (DataStore.LockRetryWrapper 20 "aff4:/Q" 3 None 10 true None
             contended_forever).2 = replicate k 3 ∧
    Z.of_nat k * 3 < 10 + 3.
Proof.
  split; [lia|]. split; [lia|]. split; [vm_compute; reflexivity|].
  destruct (LockRetryWrapper_sleep_bounded 20 "aff4:/Q" 3 None 10 true None
              contended_forever) as (k & Hslept & _ & _ & Hbound).
  exists k. split; [exact Hslept|]. apply Hbound; lia.
Defined.

Lemma QueueQueryAndOwn_at_most_limit_witness :
  ∃ claimed w',
    MutationPool.QueueQueryAndOwn "aff4:/Q" 10 0 None three_tasks
    = (Return claimed, w') ∧
    length claimed = 1%nat ∧
    Z.of_nat (length claimed) ≤ Z.max 0 1.
Proof.
  run_to Hrun (MutationPool.QueueQueryAndOwn "aff4:/Q" 10 0 None three_tasks).
  eexists _, _. split; [exact Hrun|]. split; [reflexivity|].
  exact (QueueQueryAndOwn_at_most_limit _ _ _ _ _ _ _ Hrun).
Defined.

Lemma QueueClaimRecords_claims_witness :
  StoreMethods.ScanAttributes (DataStore.RDFURN_Add "aff4:/Q" "Records")
    [StoreMethods.COLLECTION_ATTRIBUTE; StoreMethods.QUEUE_LOCK_ATTRIBUTE]
    None (Some (4 * 10)) (token (pool records_queue)) false records_queue
  = (Return records_rows, records_queue) ∧
  ∃ out,
    (PoolMethods.QueueClaimRecords "aff4:/Q" toy_items 10 60 None
       (λ _, false) 1000 records_queue).1 = Return out ∧
    out = map snd free_records ∧
    Z.of_nat (length out) ≤ Z.max 10 1 ∧
    set_requests
      (pool (PoolMethods.QueueClaimRecords "aff4:/Q" toy_items 10 60 None
               (λ _, false) 1000 records_queue).2)
    = map (lease_request 1060) free_records ∧
    delete_attributes_requests
      (pool (PoolMethods.QueueClaimRecords "aff4:/Q" toy_items 10 60 None
               (λ _, false) 1000 records_queue).2)
    = [lease_deletion "aff4:/Q/Records/0000000000000006.000002"].
Proof.
  assert (Hscan :
    StoreMethods.ScanAttributes (DataStore.RDFURN_Add "aff4:/Q" "Records")
      [StoreMethods.COLLECTION_ATTRIBUTE; StoreMethods.QUEUE_LOCK_ATTRIBUTE]
      None (Some (4 * 10)) (token (pool records_queue)) false records_queue
    = (Return records_rows, records_queue)) by (vm_compute; reflexivity).
  split; [exact Hscan|].
  destruct (QueueClaimRecords_claims "aff4:/Q" toy_items 10 60 None
              (λ _, false) 1000 records_queue records_queue records_rows
              Hscan)
    as (claimed & dangling & _ & _ & _ & _ & _ & _ & Hout).
  assert (Hreturn :
    (PoolMethods.QueueClaimRecords "aff4:/Q" toy_items 10 60 None
       (λ _, false) 1000 records_queue).1 = Return (map snd free_records))
    by (vm_compute; reflexivity).
  exists (map snd free_records). split; [exact Hreturn|].
  split; [reflexivity|].
  split; [exact (proj2 (Hout _ Hreturn))|].
  split; vm_compute; reflexivity.
Defined.

Lemma Queue_records_address_their_rows_witness :
  map PoolMethods.record_subject (map snd free_records)
  = map fst free_records ∧
  delete_attributes_requests
    (pool (PoolMethods.QueueReleaseRecords (map snd free_records)
             records_queue).2)
  = map lease_deletion (map fst free_records) ∧
  set_requests
    (pool (PoolMethods.QueueRefreshClaims (map snd free_records) 60
             records_queue).2)
  = map (lease_request 1060) free_records.
Proof.
  destruct (Queue_records_address_their_rows "aff4:/Q" toy_items free_records
              60 records_queue)
    as (Hsubjects & Hrelease & _ & Hrefresh).
  - constructor.
    + exists 0, 5, {[StoreMethods.COLLECTION_ATTRIBUTE := (5, "one"%string)]},
        "one"%string.
      split; [reflexivity|]. split; reflexivity.
    + constructor; [|constructor].
      exists 3, 8, {[StoreMethods.COLLECTION_ATTRIBUTE := (8, "three"%string)]},
        "three"%string.
      split; [reflexivity|]. split; reflexivity.
  - split; [exact Hsubjects|]. rewrite Hrelease, Hrefresh.
    split; reflexivity.
Defined.

Lemma CollectionDelete_conserves_witness :
  StoreMethods.ScanAttributes (DataStore.RDFURN_Add "aff4:/C" "Results")
    [StoreMethods.COLLECTION_ATTRIBUTE] None None
    (token (pool small_collection)) false small_collection
  = (Return collection_rows, small_collection) ∧
  Forall (λ row : string * gmap string (Z * string),
            is_Some (row.2 !! StoreMethods.COLLECTION_ATTRIBUTE))
    collection_rows ∧
  (PoolMethods.CollectionDelete "aff4:/C" small_collection).1 = Return tt ∧
  deleted_in (calls (PoolMethods.CollectionDelete "aff4:/C"
                       small_collection).2)
  ++ delete_subject_requests
       (pool (PoolMethods.CollectionDelete "aff4:/C" small_collection).2)
  = "aff4:/old"%string :: map fst collection_rows ∧
  MutationPool.Size
    (pool (PoolMethods.CollectionDelete "aff4:/C" small_collection).2)
  ≤ 50000.
Proof.
  assert (Hscan :
    StoreMethods.ScanAttributes (DataStore.RDFURN_Add "aff4:/C" "Results")
      [StoreMethods.COLLECTION_ATTRIBUTE] None None
      (token (pool small_collection)) false small_collection
    = (Return collection_rows, small_collection))
    by (vm_compute; reflexivity).
  assert (Hrows :
    Forall (λ row : string * gmap string (Z * string),
              is_Some (row.2 !! StoreMethods.COLLECTION_ATTRIBUTE))
      collection_rows)
    by (repeat constructor; eexists; vm_compute; reflexivity).
  split; [exact Hscan|]. split; [exact Hrows|].
  destruct (CollectionDelete_conserves "aff4:/C" collection_rows
              small_collection small_collection Hscan Hrows)
    as [_ Hreturned].
  assert (Hreturn :
    (PoolMethods.CollectionDelete "aff4:/C" small_collection).1 = Return tt)
    by (vm_compute; reflexivity).
  destruct (Hreturned Hreturn) as (Hsize & _ & Hkept).
  split; [exact Hreturn|]. split; [rewrite Hkept; reflexivity|].
  apply Hsize. discriminate.
Defined.
